(** * Coverzy daily shipment reconciliation: the validator and the orchestrator

    A shallow embedding of [backend/cron/coverzyCron.js] (the cutoff-to-CIP
    window generation) and of its second generation (cutoff only, with the
    service and declared-value rules), followed by the properties of the
    validator, the cap, the result store and the run summary.

    Conventions.
    - JavaScript strings are [string]; case mapping and trimming act on the
      ASCII letters and the ASCII white space, which is what country codes,
      service names, company names and mail addresses use. The built-ins of
      JavaScript also map letters and strip blanks outside ASCII; the
      statements below compare texts through one and the same mapping and do
      not rest on what happens outside ASCII.
    - [Number] is read on the fields of a clock time: a run of decimal digits
      is a small integer, which a double holds exactly; such numbers are kept
      in [Z] and [None] stands for NaN. The statements on the time rules
      quantify over two-digit fields, where this reading is the one of
      JavaScript.
    - Numbers that go through a division (declared value, exchange rate,
      success rate) are IEEE binary64 values, as in JavaScript: [float].
    - Asynchronous calls are sequential in the source (every call is awaited),
      so a run is a state-passing computation that may throw. *)

From Stdlib Require Import ZArith List String Ascii Bool Lia PeanoNat.
From Stdlib Require Import PrimFloat Uint63 FloatOps FloatAxioms SpecFloat.
Import ListNotations.

Local Open Scope string_scope.
Local Open Scope Z_scope.

(* ================================================================== *)
(** * The JavaScript built-ins the code relies on *)

Module Js.

(** [String.prototype.split] with a one-character separator. The result always
    has at least one piece: [split ":" ""] is the list holding the empty string. *)
Fixpoint split (sep : ascii) (s : string) : list string :=
  match s with
  | EmptyString => [EmptyString]
  | String c s' =>
      if Ascii.eqb c sep then EmptyString :: split sep s'
      else match split sep s' with
           | [] => [String c EmptyString]
           | w :: ws => String c w :: ws
           end
  end.

(** The value of a decimal digit, when the character is one. *)
Definition digit_of (c : ascii) : option Z :=
  let n := nat_of_ascii c in
  if (Nat.leb 48 n && Nat.leb n 57)%bool then Some (Z.of_nat (n - 48)) else None.

Fixpoint digits_value (acc : Z) (s : string) : option Z :=
  match s with
  | EmptyString => Some acc
  | String c s' =>
      match digit_of c with
      | Some d => digits_value (10 * acc + d) s'
      | None => None
      end
  end.

(** [Number(str)] on the texts a clock field can hold: a run of decimal digits
    is its value, the empty string is 0, and a text with any other character
    is NaN ([None]). This is [Number] for a field of digits that a double
    holds exactly (up to fifteen digits), and for a field with a letter or a
    colon-free word, which is NaN. It is not [Number] on the rest of its
    grammar: surrounding blanks, a sign, a fraction, an exponent, a
    hexadecimal literal or [Infinity], which JavaScript reads as numbers, and
    longer runs of digits, which it rounds. The theorems on the time rules
    are stated for two-digit fields. *)
Definition Number (s : string) : option Z := digits_value 0 s.

(** Arithmetic and comparison on numbers that may be NaN: an operation with a
    NaN operand is NaN, a comparison with a NaN operand is false. *)
Definition num_add (a b : option Z) : option Z :=
  match a, b with Some x, Some y => Some (x + y) | _, _ => None end.

Definition num_mul (a b : option Z) : option Z :=
  match a, b with Some x, Some y => Some (x * y) | _, _ => None end.

Definition num_le (a b : option Z) : bool :=
  match a, b with Some x, Some y => x <=? y | _, _ => false end.

Definition num_lt (a b : option Z) : bool :=
  match a, b with Some x, Some y => x <? y | _, _ => false end.

Definition num_ge (a b : option Z) : bool := num_le b a.

(** [toUpperCase] and [toLowerCase] on the ASCII letters; every other
    character is left as it is (JavaScript also maps the letters outside
    ASCII). *)
Definition upper_char (c : ascii) : ascii :=
  let n := nat_of_ascii c in
  if (Nat.leb 97 n && Nat.leb n 122)%bool then ascii_of_nat (n - 32) else c.

Definition lower_char (c : ascii) : ascii :=
  let n := nat_of_ascii c in
  if (Nat.leb 65 n && Nat.leb n 90)%bool then ascii_of_nat (n + 32) else c.

Fixpoint map_string (f : ascii -> ascii) (s : string) : string :=
  match s with
  | EmptyString => EmptyString
  | String c s' => String (f c) (map_string f s')
  end.

Definition toUpperCase : string -> string := map_string upper_char.
Definition toLowerCase : string -> string := map_string lower_char.

(** [String.prototype.includes]: [needle] occurs in [hay] as a substring. *)
Fixpoint str_includes (hay needle : string) : bool :=
  if String.prefix needle hay then true
  else match hay with
       | EmptyString => false
       | String _ hay' => str_includes hay' needle
       end.

(** [Array.prototype.includes] on an array of strings (strict equality). *)
Definition arr_includes (l : list string) (x : string) : bool :=
  existsb (String.eqb x) l.

(** [Array.prototype.slice(0, e)]: a negative end counts from the back. *)
Definition slice0 {A : Type} (l : list A) (e : Z) : list A :=
  let len := Z.of_nat (List.length l) in
  let k := if e <? 0 then Z.max (len + e) 0 else Z.min e len in
  firstn (Z.to_nat k) l.

(** Truthiness of a value that is a string or absent: [undefined], [null]
    and the empty string are falsy. *)
Definition truthy (v : option string) : bool :=
  match v with
  | Some s => negb (String.eqb s "")
  | None => false
  end.

(** [v || d] for such a value. *)
Definition or_else (v : option string) (d : string) : string :=
  match v with
  | Some s => if String.eqb s "" then d else s
  | None => d
  end.

Definition is_space (c : ascii) : bool :=
  let n := nat_of_ascii c in
  (Nat.leb 9 n && Nat.leb n 13)%bool || Nat.eqb n 32.

Fixpoint trim_start (s : string) : string :=
  match s with
  | EmptyString => EmptyString
  | String c s' => if is_space c then trim_start s' else s
  end.

Fixpoint rev_string (acc s : string) : string :=
  match s with
  | EmptyString => acc
  | String c s' => rev_string (String c acc) s'
  end.

(** [String.prototype.trim] for ASCII white space: tab, line feed, vertical
    tab, form feed, carriage return and blank (JavaScript also strips the
    no-break space and the other Unicode blanks). *)
Definition trim (s : string) : string :=
  rev_string "" (trim_start (rev_string "" (trim_start s))).

End Js.

(* ================================================================== *)
(** * Time of day, as both generations read it *)

(** [pickupTime.split(' ')[1] || pickupTime]: the clock part of a
    "YYYY-MM-DD HH:MM:SS" text, or the whole text when there is none. *)
Definition pickupTimeStr (pickupTime : string) : string :=
  Js.or_else (nth_error (Js.split " " pickupTime) 1) pickupTime.

(** [timeToMinutes]: the first two colon-separated fields, as
    [hours * 60 + minutes]. A missing minutes field is [undefined], which
    makes the sum NaN. Any seconds field is dropped by the destructuring. *)
Definition timeToMinutes (timeStr : string) : option Z :=
  match map Js.Number (Js.split ":" timeStr) with
  | hours :: minutes :: _ => Js.num_add (Js.num_mul hours (Some 60)) minutes
  | _ => None
  end.

(** A clock time as the platform and the settings table write it: two
    decimal digits per field, HH:MM:SS. *)
Definition two_digits (n : nat) : string :=
  String (ascii_of_nat (48 + n / 10))
    (String (ascii_of_nat (48 + n mod 10)) EmptyString).

Definition clock (h m s : nat) : string :=
  two_digits h ++ ":" ++ two_digits m ++ ":" ++ two_digits s.

(** Whether a character occurs in a text. *)
Fixpoint has_char (c : ascii) (s : string) : bool :=
  match s with
  | EmptyString => false
  | String x s' => Ascii.eqb x c || has_char c s'
  end.

(** Both generations share the destination rule:
    [allowedCountries.includes(destinationCountry.toUpperCase())]. *)
Definition isDestinationAllowed (destinationCountry : string)
    (allowedCountries : list string) : bool :=
  Js.arr_includes allowedCountries (Js.toUpperCase destinationCountry).

(** What "equal up to letter case" means on ASCII text. *)
Definition same_up_to_case (a b : string) : Prop :=
  Js.toUpperCase a = Js.toUpperCase b.

(** [isSupplierAllowed], also shared: a missing or empty company name is
    refused; otherwise some allowed supplier contains the name or is contained
    in it, both in lower case. *)
Definition isSupplierAllowed (companyName : option string)
    (allowedSuppliers : list string) : bool :=
  match companyName with
  | None => false
  | Some name =>
      if String.eqb name "" then false
      else existsb (fun supplier =>
             Js.str_includes (Js.toLowerCase supplier) (Js.toLowerCase name)
             || Js.str_includes (Js.toLowerCase name) (Js.toLowerCase supplier))
           allowedSuppliers
  end.

(* ================================================================== *)
(** * Data model *)

(** The settings snapshot of one run. The window generation reads the first
    five fields; the cutoff-only generation also reads the last two, which
    [parseFloat] has already turned into numbers (NaN when not numeric). *)
Record Settings := mkSettings {
  suppliers : list string;
  countries : list string;
  maxShipments : Z;
  cutoffTime : option string;
  cipTime : option string;
  minShipmentValueUsd : float;
  usdToInrRate : float
}.

(** A shipment detail record of the logistics platform. A field that the
    response lacks is [None]; [Package_Value] is the number [parseFloat]
    reads from the field (NaN when it is missing or not numeric). *)
Record ShipmentDetails := mkShipment {
  Name : option string;
  Create_Pick_Up_Date : option string;
  Destination_Country : option string;
  Package_Value : float;
  Description : option string;
  Customer_ID : option string;
  Service_Type : option string
}.

Record CustomerInfo := mkCustomerInfo {
  name : option string;
  last_name : option string;
  company_name : option string;
  email : option string
}.

Record Address := mkAddress {
  label : option string;
  country_code : option string
}.

(** The customer response is a pair: [customerDetails[0]] is the customer,
    [customerDetails[1]] the list of addresses. *)
Definition CustomerDetails : Type := CustomerInfo * list Address.

(** [{}], which stands in for the customer when the lookup fails. *)
Definition emptyCustomerInfo : CustomerInfo :=
  mkCustomerInfo None None None None.

Record Payload := mkPayload {
  transportMode : string;
  awb : option string;
  departureDate : option string;
  origin : string;
  destination : option string;
  eta : option string;
  carrierCode : option string;
  value_amount : float;
  value_currency : string;
  goods_description : option string;
  customerName : string;
  customerCountry : string;
  customerEmail : string
}.

(** The three properties the pipeline reads from an answer of the
    underwriting API. A property the answer lacks is [None]. *)
Record CoverzyResponse := mkResponse {
  status : option string;
  policyId : option string;
  amount : float
}.

(** What the underwriting API answers, [response.data]: [null], on which
    reading a property throws, or any other value, of which the properties
    are read. *)
Inductive CovrzyAnswer :=
| NullAnswer
| Answer (r : CoverzyResponse).

(** A row of [coverzy_shipments]. *)
Record Row := mkRow {
  shipment_id : string;
  supplier_name : option string;
  destination_country : option string;
  policy_id : option string;
  row_amount : float;
  currency : string;
  view_pdf : option string
}.

(** Every way a step of the pipeline throws. The validator's messages carry
    the offending value and the configured bound; the constructors keep
    them. *)
Inductive Error :=
| ShipmentLookupFailed (awb : string)
| TypeError
| DestinationNotAllowed (dest : string) (allowed : list string)
| ServiceNotSupported (service dest : string)
| PickupTimeNotAllowed (pickup cutoff cip : option string)
| ValueBelowThreshold (value usd threshold : float)
| SupplierNotAllowed (company : option string) (allowed : list string)
| CovrzyRequestFailed
| DatabaseFailure
| NoSettingsFound
| DailyShipmentsFailed.

Inductive ErrorType := database_error | api_error | cron_failure.

(** A row of the error log table. *)
Record ErrorLogEntry := mkErrorLog {
  jobName : string;
  errorType : ErrorType;
  errorMessage : Error;
  executionDate : string;
  shipmentAwb : option string
}.

Inductive ValidationResult :=
| Valid (awb : string) (shipmentDetails : ShipmentDetails) (customerInfo : CustomerInfo)
| Invalid (awb : string) (error : Error).

Definition valid (v : ValidationResult) : bool :=
  match v with Valid _ _ _ => true | Invalid _ _ => false end.

Definition vr_awb (v : ValidationResult) : string :=
  match v with Valid a _ _ => a | Invalid a _ => a end.

Record ProcessResult := mkProcessResult {
  coverzyResponse : CoverzyResponse;
  savedToDatabase : bool;
  pr_error : option string
}.

Record Summary := mkSummary {
  totalShipments : nat;
  validShipments : nat;
  processedShipments : nat;
  successfulShipments : nat;
  failedValidation : nat;
  failedProcessing : nat
}.

(** What a run returns. The early return for an empty listing has neither
    [processed] nor [validFound]. *)
Record RunResult := mkRunResult {
  results : list (string * ProcessResult);
  errors : list (string * Error);
  total : nat;
  processed : option nat;
  validFound : option nat
}.

(* ================================================================== *)
(** * Comma-separated settings columns *)

(** [text.split(',').map(item => item.trim())]: how [getCoverzySettings]
    (and the mailer, for the admin addresses) turns a comma-separated column
    into a list. *)
Definition splitTrim (text : string) : list string :=
  map Js.trim (Js.split "," text).

(* ================================================================== *)
(** * The mailer: smtp/errorEmail.js *)

Module Mailer.

(** The two columns the mailer reads from the latest settings row;
    [admin_emails] may be NULL. *)
Record EmailRow := mkEmailRow {
  admin_emails : option string;
  email_enabled : bool
}.

Record EmailSettings := mkEmailSettings {
  adminEmails : list string;
  emailEnabled : bool
}.

(** [getEmailSettings]: [None] is [null], returned when there is no row, when
    the query fails, and when [admin_emails] is NULL (the [.split] throws and
    the handler returns [null]). *)
Definition getEmailSettings (row : option EmailRow) : option EmailSettings :=
  match row with
  | Some r =>
      match admin_emails r with
      | Some text => Some (mkEmailSettings (splitTrim text) (email_enabled r))
      | None => None
      end
  | None => None
  end.

(** How a send ends. [Sent] and [SendFailed] carry the [to] header that was
    handed to the transport. *)
Inductive SendOutcome :=
| SettingsNotFound
| Skipped
| NoRecipients
| Sent (to : string)
| SendFailed (to : string).

(** The decisions [sendCronErrorEmail] and [sendDailySummaryEmail] share, in
    source order; subject and bodies are not modelled. [transportAccepts]
    tells whether [transporter.sendMail] returns for the given [to]; when it
    throws, the handler returns a failure. *)
Definition send (row : option EmailRow) (transportAccepts : string -> bool) : SendOutcome :=
  match getEmailSettings row with
  | None => SettingsNotFound
  | Some emailSettings =>
      if negb (emailEnabled emailSettings) then Skipped
      else if Nat.eqb (List.length (adminEmails emailSettings)) 0 then NoRecipients
      else
        let to := String.concat "," (adminEmails emailSettings) in
        if transportAccepts to then Sent to else SendFailed to
  end.

End Mailer.

(* ================================================================== *)
(** * The outside world and the state of a run *)

(** The collaborators, as functions of the request: during one run the same
    request gets the same answer. [None] is a failed request. The listing
    yields the [full_awb_number] of each item, which an item may lack.
    [settings_row] is what [getCoverzySettings] makes of the latest row of
    [coverzy_settings] ([None] without a row, without a connection, or with a
    row it cannot read); [email_row] holds the two columns the mailer reads
    from that same row ([None] without a row or without a connection), and
    [mail_accepts] tells whether the SMTP transport takes a mail for the
    given recipients. *)
Record World := mkWorld {
  settings_row : option Settings;
  lex_daily : string -> string -> option (list (option string));
  lex_shipment : string -> option ShipmentDetails;
  lex_customer : option string -> option CustomerDetails;
  covrzy : Payload -> option CovrzyAnswer;
  db_accepts : Row -> bool;
  errlog_accepts : bool;
  email_row : option Mailer.EmailRow;
  mail_accepts : string -> bool
}.

(** What a mail is about. *)
Inductive MailKind :=
| ErrorAlert (t : ErrorType)
| DailySummary (s : Summary).

(** Outbound calls, in the order they are made. [DailySummaryEmail] and
    [CronErrorEmail] are the calls of the run into the mailer, which then
    reads its settings; [SendMail] is the mailer handing a mail for the
    recipients [to] to the SMTP transport. *)
Inductive Call :=
| PostDailyShipments (fromdate todate : string)
| GetShipment (awb : string)
| GetCustomer (customerId : option string)
| PostCovrzy (p : Payload)
| DailySummaryEmail (s : Summary)
| CronErrorEmail (t : ErrorType)
| SendMail (to : string) (m : MailKind).

Record State := mkState {
  coverzy_shipments : list Row;
  cron_error_logs : list ErrorLogEntry;
  calls : list Call
}.

Inductive Result (A : Type) :=
| Ok (a : A)
| Throw (e : Error).
Arguments Ok {A} a.
Arguments Throw {A} e.

(** A computation that reads and updates the state and returns or throws. *)
Definition M (A : Type) : Type := State -> State * Result A.

Definition ret {A} (a : A) : M A := fun st => (st, Ok a).

Definition throw {A} (e : Error) : M A := fun st => (st, Throw e).

Definition bind {A B} (m : M A) (k : A -> M B) : M B :=
  fun st =>
    match m st with
    | (st', Ok a) => k a st'
    | (st', Throw e) => (st', Throw e)
    end.

(** [try { m } catch (error) { h error }]: the state changes made before the
    throw stay. *)
Definition catch {A} (m : M A) (h : Error -> M A) : M A :=
  fun st =>
    match m st with
    | (st', Ok a) => (st', Ok a)
    | (st', Throw e) => h e st'
    end.

Notation "x <- m ;; k" := (bind m (fun x => k))
  (at level 61, m at next level, right associativity).
Notation "m ;;; k" := (bind m (fun _ => k))
  (at level 61, right associativity).

Definition call (c : Call) : M unit :=
  fun st => (mkState (coverzy_shipments st) (cron_error_logs st) (calls st ++ [c])%list, Ok tt).

(** [if (cond) { throw new Error(...) }] *)
Definition throw_if (cond : bool) (e : Error) : M unit :=
  if cond then throw e else ret tt.

(** Reading a field that must be there: a method call on [undefined] throws. *)
Definition field {A} (v : option A) : M A :=
  match v with Some a => ret a | None => throw TypeError end.

(** [array.filter(awb => awb)]: the listing items that carry a number. *)
Fixpoint truthy_strings (l : list (option string)) : list string :=
  match l with
  | [] => []
  | v :: l' => if Js.truthy v then Js.or_else v "" :: truthy_strings l'
               else truthy_strings l'
  end.

(** [INSERT ... ON DUPLICATE KEY UPDATE] on a table held as the list of its
    rows: a row with the same [shipment_id] has its other columns replaced by
    the new values, otherwise the new row is added.

    Modelled from the spec: the table definition is not part of the sources;
    the spec keys the persisted record uniquely by shipment id, and key
    comparison is taken to be equality of the text. *)
Fixpoint upsert (r : Row) (t : list Row) : list Row :=
  match t with
  | [] => [r]
  | x :: t' =>
      if String.eqb (shipment_id x) (shipment_id r)
      then mkRow (shipment_id x) (supplier_name r) (destination_country r)
                 (policy_id r) (row_amount r) (currency r) (view_pdf r) :: t'
      else x :: upsert r t'
  end.

(** [coverzyResponse.status === 'success' && coverzyResponse.policyId] *)
Definition isSuccessful (r : CoverzyResponse) : bool :=
  match status r with
  | Some s => String.eqb s "success"
  | None => false
  end && Js.truthy (policyId r).

(** A list length as a JavaScript number. *)
Definition num_of_nat (n : nat) : float :=
  PrimFloat.of_uint63 (Uint63.of_Z (Z.of_nat n)).

(** [len > 0 ? (ok / len) * 100 : 0] *)
Definition successRate (ok len : nat) : float :=
  if Nat.ltb 0 len
  then (num_of_nat ok / num_of_nat len * 100)%float
  else 0%float.

(* ================================================================== *)
(** * The calls both generations share *)

Section Collaborators.

Variable w : World.

(** [logErrorToDatabase]: a failed insert is swallowed. *)
Definition logErrorToDatabase (entry : ErrorLogEntry) : M unit :=
  fun st =>
    if errlog_accepts w
    then (mkState (coverzy_shipments st) (cron_error_logs st ++ [entry])%list (calls st), Ok tt)
    else (st, Ok tt).

(** [getCoverzySettings]: the latest settings row, already split into its
    lists; without a row (or without a connection) the failure is logged and
    thrown. *)
Definition getCoverzySettings (today : string) : M Settings :=
  match settings_row w with
  | Some s => ret s
  | None =>
      logErrorToDatabase
        (mkErrorLog "coverzy_daily_shipments" database_error NoSettingsFound today None) ;;;
      throw NoSettingsFound
  end.

Definition getDailyShipmentsData (fromDate : string) (toDate : option string)
  : M (list string) :=
  let targetDate := Js.or_else toDate fromDate in
  call (PostDailyShipments fromDate targetDate) ;;;
  match lex_daily w fromDate targetDate with
  | Some items => ret (truthy_strings items)
  | None => throw DailyShipmentsFailed
  end.

Definition getShipmentDetails (awb : string) : M ShipmentDetails :=
  call (GetShipment awb) ;;;
  match lex_shipment w awb with
  | Some d => ret d
  | None => throw (ShipmentLookupFailed awb)
  end.

(** A failed customer lookup is [null], not a throw. *)
Definition getCustomerDetails (customerId : option string) : M (option CustomerDetails) :=
  call (GetCustomer customerId) ;;;
  ret (lex_customer w customerId).

(** [sendToCovrzyAPI]: the body of the answer, [response.data], whatever
    it is; a failed request is thrown on. *)
Definition sendToCovrzyAPI (payload : Payload) : M CovrzyAnswer :=
  call (PostCovrzy payload) ;;;
  match covrzy w payload with
  | Some answer => ret answer
  | None => throw CovrzyRequestFailed
  end.

(** Reading [coverzyResponse.status]: on [null] the property access throws a
    TypeError. *)
Definition propertiesOf (answer : CovrzyAnswer) : M CoverzyResponse :=
  match answer with
  | Answer r => ret r
  | NullAnswer => throw TypeError
  end.

(** [saveShipmentToDatabase]: one upsert, currency fixed to INR, no document
    URL; a database failure is thrown on. *)
Definition saveShipmentToDatabase (awb : string) (supplierName destinationCountry : option string)
    (coverzyResponse : CoverzyResponse) : M unit :=
  let row := mkRow awb supplierName destinationCountry
                   (policyId coverzyResponse) (amount coverzyResponse) "INR" None in
  fun st =>
    if db_accepts w row
    then (mkState (upsert row (coverzy_shipments st)) (cron_error_logs st) (calls st), Ok tt)
    else (st, Throw DatabaseFailure).

(** What the mailer hands to the transport for a mail of kind [m]: nothing
    unless [Mailer.send] gets as far as [transporter.sendMail]. *)
Definition deliveries (m : MailKind) : list Call :=
  match Mailer.send (email_row w) (mail_accepts w) with
  | Mailer.Sent to => [SendMail to m]
  | Mailer.SendFailed to => [SendMail to m]
  | _ => []
  end.

(** [sendDailySummaryEmail] and [sendCronErrorEmail] of smtp/errorEmail.js:
    the mailer is called, decides as [Mailer.send] does and hands the mail to
    the transport or not. Whatever happens inside is caught there: the call
    returns, and neither the shipment table nor the error log is touched. *)
Definition sendDailySummaryEmail (s : Summary) : M unit :=
  call (DailySummaryEmail s) ;;;
  match Mailer.send (email_row w) (mail_accepts w) with
  | Mailer.Sent to => call (SendMail to (DailySummary s))
  | Mailer.SendFailed to => call (SendMail to (DailySummary s))
  | _ => ret tt
  end.

Definition sendCronErrorEmail (t : ErrorType) : M unit :=
  call (CronErrorEmail t) ;;;
  match Mailer.send (email_row w) (mail_accepts w) with
  | Mailer.Sent to => call (SendMail to (ErrorAlert t))
  | Mailer.SendFailed to => call (SendMail to (ErrorAlert t))
  | _ => ret tt
  end.

(** [customerDetails ? customerDetails[0] : {}] *)
Definition customerInfoOf (customerDetails : option CustomerDetails) : CustomerInfo :=
  match customerDetails with
  | Some cd => fst cd
  | None => emptyCustomerInfo
  end.

End Collaborators.

(* ================================================================== *)
(** * The window generation: backend/cron/coverzyCron.js *)

Module Window.

(** [isPickupTimeValid] of coverzyCron.js. An absent ([undefined] or [null])
    argument makes [.split] throw, which the function's own handler turns
    into [false]. *)
Definition isPickupTimeValid (pickupTime cutoffTime cipTime : option string) : bool :=
  match pickupTime, cutoffTime, cipTime with
  | Some pickup, Some cutoff, Some cip =>
      let pickupMinutes := timeToMinutes (pickupTimeStr pickup) in
      let cutoffMinutes := timeToMinutes cutoff in
      let cipMinutes := timeToMinutes cip in
      if Js.num_le cutoffMinutes cipMinutes
      then Js.num_ge pickupMinutes cutoffMinutes && Js.num_le pickupMinutes cipMinutes
      else Js.num_ge pickupMinutes cutoffMinutes || Js.num_le pickupMinutes cipMinutes
  | _, _, _ => false
  end.


Section Pipeline.

Variable w : World.

(** The three dates the run computes from the clock: yesterday as
    DD-MM-YYYY, yesterday as YYYY-MM-DD, and today as YYYY-MM-DD. *)
Variables (yesterdayDate yesterdayDateMySQL today : string).

Definition jobName : string := "coverzy_daily_shipments".

(** The payload object that [mapShipmentDetailsToPayload] builds from the
    shipment and the customer response: the carrier is fixed and the ETA is
    the pickup date. *)
Definition payloadOf (shipmentDetails : ShipmentDetails)
    (customerDetails : option CustomerDetails) : Payload :=
  let customerInfo := customerInfoOf customerDetails in
  let customerAddresses :=
    match customerDetails with Some cd => snd cd | None => [] end in
  let registeredAddress :=
    find (fun addr => match label addr with
                      | Some l => String.eqb l "Registered Address"
                      | None => false
                      end) customerAddresses in
  mkPayload "air"
    (Name shipmentDetails)
    (Create_Pick_Up_Date shipmentDetails)
    "IN"
    (Destination_Country shipmentDetails)
    (Create_Pick_Up_Date shipmentDetails)
    (Some "FX")
    (Package_Value shipmentDetails)
    "INR"
    (Description shipmentDetails)
    (Js.trim (Js.or_else (name customerInfo) "" ++ " "
              ++ Js.or_else (last_name customerInfo) ""))
    (Js.or_else (match registeredAddress with
                 | Some a => country_code a
                 | None => None
                 end) "IN")
    (Js.or_else (email customerInfo) "").

(** [mapShipmentDetailsToPayload]: fetches the customer again. *)
Definition mapShipmentDetailsToPayload (shipmentDetails : ShipmentDetails) : M Payload :=
  customerDetails <- getCustomerDetails w (Customer_ID shipmentDetails) ;;
  ret (payloadOf shipmentDetails customerDetails).

(** The lines [validateShipmentOnly] and [processShipment] have in common:
    the lookup and the three rules, in the order of the source; each failure
    throws. The customer is fetched only after the destination and the pickup
    time have passed. *)
Definition checkShipment (awb : string) (settings : Settings)
  : M (ShipmentDetails * CustomerInfo) :=
  shipmentDetails <- getShipmentDetails w awb ;;
  dest <- field (Destination_Country shipmentDetails) ;;
  throw_if (negb (isDestinationAllowed dest (countries settings)))
           (DestinationNotAllowed dest (countries settings)) ;;;
  throw_if (negb (isPickupTimeValid (Create_Pick_Up_Date shipmentDetails)
                                    (cutoffTime settings) (cipTime settings)))
           (PickupTimeNotAllowed (Create_Pick_Up_Date shipmentDetails)
                                 (cutoffTime settings) (cipTime settings)) ;;;
  customerDetails <- getCustomerDetails w (Customer_ID shipmentDetails) ;;
  let customerInfo := customerInfoOf customerDetails in
  throw_if (negb (isSupplierAllowed (company_name customerInfo) (suppliers settings)))
           (SupplierNotAllowed (company_name customerInfo) (suppliers settings)) ;;;
  ret (shipmentDetails, customerInfo).

(** [validateShipmentOnly]: every throw becomes an invalid verdict. *)
Definition validateShipmentOnly (awb : string) (settings : Settings) : M ValidationResult :=
  catch
    (r <- checkShipment awb settings ;;
     ret (Valid awb (fst r) (snd r)))
    (fun error => ret (Invalid awb error)).

(** The tail [processShipment] and [processValidatedShipment] share: map,
    submit, and save when the answer is a success with a policy id. *)
Definition submitAndSave (awb : string) (shipmentDetails : ShipmentDetails)
    (customerInfo : CustomerInfo) : M ProcessResult :=
  payload <- mapShipmentDetailsToPayload shipmentDetails ;;
  answer <- sendToCovrzyAPI w payload ;;
  coverzyResponse <- propertiesOf answer ;;
  if isSuccessful coverzyResponse
  then
    saveShipmentToDatabase w awb (company_name customerInfo)
      (Destination_Country shipmentDetails) coverzyResponse ;;;
    ret (mkProcessResult coverzyResponse true None)
  else
    ret (mkProcessResult coverzyResponse false
           (Some "Coverzy API response not successful")).

(** [processShipment]: validate and process in one go; its handler rethrows. *)
Definition processShipment (awb : string) (settings : Settings) : M ProcessResult :=
  catch
    (r <- checkShipment awb settings ;;
     submitAndSave awb (fst r) (snd r))
    (fun error => throw error).

(** [processValidatedShipment]: the input is a valid verdict, whose
    [shipmentDetails] and [customerInfo] are read. *)
Definition processValidatedShipment (validationResult : ValidationResult)
    (settings : Settings) : M ProcessResult :=
  catch
    (match validationResult with
     | Valid awb shipmentDetails customerInfo =>
         submitAndSave awb shipmentDetails customerInfo
     | Invalid _ _ => throw TypeError
     end)
    (fun error => throw error).

(** First pass of the scheduled run: every listed number is validated. *)
Fixpoint validationLoop (settings : Settings) (awbNumbers : list string)
    (validShipments invalidShipments : list ValidationResult)
  : M (list ValidationResult * list ValidationResult) :=
  match awbNumbers with
  | [] => ret (validShipments, invalidShipments)
  | awb :: rest =>
      acc <- catch
               (validationResult <- validateShipmentOnly awb settings ;;
                if valid validationResult
                then ret ((validShipments ++ [validationResult])%list, invalidShipments)
                else ret (validShipments, (invalidShipments ++ [validationResult])%list))
               (fun error => ret (validShipments, (invalidShipments ++ [Invalid awb error])%list)) ;;
      validationLoop settings rest (fst acc) (snd acc)
  end.

(** Second pass: the capped valid shipments, one submission each. *)
Fixpoint processingLoop (settings : Settings) (shipmentsToProcess : list ValidationResult)
    (results : list (string * ProcessResult)) (processingErrors : list (string * Error))
  : M (list (string * ProcessResult) * list (string * Error)) :=
  match shipmentsToProcess with
  | [] => ret (results, processingErrors)
  | validationResult :: rest =>
      acc <- catch
               (result <- processValidatedShipment validationResult settings ;;
                ret ((results ++ [(vr_awb validationResult, result)])%list, processingErrors))
               (fun error =>
                  ret (results, (processingErrors ++ [(vr_awb validationResult, error)])%list)) ;;
      processingLoop settings rest (fst acc) (snd acc)
  end.

Definition invalidErrors (invalidShipments : list ValidationResult) : list (string * Error) :=
  flat_map (fun inv => match inv with
                       | Invalid a e => [(a, e)]
                       | Valid _ _ _ => []
                       end) invalidShipments.

(** The part of [processPreviousDayShipments] that follows the listing:
    validate every number, cap the valid ones, process the capped ones and
    summarise. *)
Definition validateThenProcess (settings : Settings) (awbNumbers : list string)
  : M RunResult :=
  if Nat.eqb (List.length awbNumbers) 0
  then ret (mkRunResult [] [] 0 None None)
  else
    vs <- validationLoop settings awbNumbers [] [] ;;
    let validShipments := fst vs in
    let invalidShipments := snd vs in
    if Nat.eqb (List.length validShipments) 0
    then ret (mkRunResult [] (invalidErrors invalidShipments)
                (List.length awbNumbers) (Some 0%nat) (Some 0%nat))
    else
      let shipmentsToProcess := Js.slice0 validShipments (maxShipments settings) in
      ps <- processingLoop settings shipmentsToProcess [] [] ;;
      let results := fst ps in
      let processingErrors := snd ps in
      let allErrors := (invalidErrors invalidShipments ++ processingErrors)%list in
      let rate := successRate (List.length results) (List.length shipmentsToProcess) in
      (if PrimFloat.leb 80 rate
       then sendDailySummaryEmail w
              (mkSummary (List.length awbNumbers) (List.length validShipments)
                 (List.length shipmentsToProcess) (List.length results)
                 (List.length invalidShipments) (List.length processingErrors))
       else ret tt) ;;;
      ret (mkRunResult results allErrors (List.length awbNumbers)
             (Some (List.length shipmentsToProcess))
             (Some (List.length validShipments))).

(** [processPreviousDayShipments]: the scheduled two-phase run. A failed
    listing is logged, the mailer is called for an API-error alert and the
    failure is thrown on; whatever is thrown is logged once more, as a cron
    failure, and the mailer is called for a cron-failure alert. *)
Definition processPreviousDayShipments : M RunResult :=
  catch
    (settings <- getCoverzySettings w today ;;
     awbNumbers <-
       catch (getDailyShipmentsData w yesterdayDate (Some yesterdayDate))
             (fun error =>
                logErrorToDatabase w
                  (mkErrorLog jobName api_error error yesterdayDateMySQL None) ;;;
                sendCronErrorEmail w api_error ;;;
                throw error) ;;
     validateThenProcess settings awbNumbers)
    (fun error =>
       logErrorToDatabase w
         (mkErrorLog jobName cron_failure error yesterdayDateMySQL None) ;;;
       sendCronErrorEmail w cron_failure ;;;
       throw error).

(** The loop of the single-date run: validation and processing together. *)
Fixpoint processLoop (settings : Settings) (limitedAwbNumbers : list string)
    (results : list (string * ProcessResult)) (errors : list (string * Error))
  : M (list (string * ProcessResult) * list (string * Error)) :=
  match limitedAwbNumbers with
  | [] => ret (results, errors)
  | awb :: rest =>
      acc <- catch
               (result <- processShipment awb settings ;;
                ret ((results ++ [(awb, result)])%list, errors))
               (fun error => ret (results, (errors ++ [(awb, error)])%list)) ;;
      processLoop settings rest (fst acc) (snd acc)
  end.

(** [processShipmentsForDate]: the ad hoc run for one date; the listing is
    cut to [maxShipments] before anything is validated. *)
Definition processShipmentsForDate (date : string) : M RunResult :=
  catch
    (settings <- getCoverzySettings w today ;;
     awbNumbers <- getDailyShipmentsData w date None ;;
     if Nat.eqb (List.length awbNumbers) 0
     then ret (mkRunResult [] [] 0 (Some 0%nat) None)
     else
       let limitedAwbNumbers := Js.slice0 awbNumbers (maxShipments settings) in
       rs <- processLoop settings limitedAwbNumbers [] [] ;;
       ret (mkRunResult (fst rs) (snd rs) (List.length awbNumbers)
              (Some (List.length limitedAwbNumbers)) None))
    (fun error => throw error).

End Pipeline.

End Window.

(* ================================================================== *)
(** * The cutoff-only generation, with the service and value rules *)

Module Cutoff.

(** [isPickupTimeValid] of the cutoff-only generation: the CIP argument is
    accepted and never read. A pickup or cutoff that is absent throws inside
    the function and yields [false]. *)
Definition isPickupTimeValid (pickupTime cutoffTime cipTime : option string) : bool :=
  match pickupTime, cutoffTime with
  | Some pickup, Some cutoff =>
      let pickupMinutes := timeToMinutes (pickupTimeStr pickup) in
      let cutoffMinutes := timeToMinutes cutoff in
      Js.num_lt pickupMinutes cutoffMinutes
  | _, _ => false
  end.


(** [convertInrToUsd]: the throw on a NaN amount, a NaN rate or a rate that
    is not positive is caught by the function itself, which then returns 0. *)
Definition convertInrToUsd (inrAmount usdToInrRate : float) : float :=
  if (PrimFloat.is_nan inrAmount || PrimFloat.is_nan usdToInrRate
      || PrimFloat.leb usdToInrRate 0)%bool
  then 0%float
  else (inrAmount / usdToInrRate)%float.

(** [isShipmentValueValid]: [usdValue >= minValue]. *)
Definition isShipmentValueValid (packageValue minShipmentValueUsd usdToInrRate : float) : bool :=
  let usdValue := convertInrToUsd packageValue usdToInrRate in
  PrimFloat.leb minShipmentValueUsd usdValue.

(** [getCarrierInfo]: carrier code and delivery days. A United States
    destination with an unknown service falls through to the United Kingdom
    test and ends in [null]. *)
Definition getCarrierInfo (destinationCountry serviceType : string) : option (string * Z) :=
  let destination := Js.toUpperCase destinationCountry in
  let service := Js.toLowerCase serviceType in
  let uk (_ : unit) :=
    if (String.eqb destination "UK" || String.eqb destination "GB"
        || String.eqb destination "UNITED KINGDOM")%bool
    then if String.eqb service "ship+" then Some ("Royal Mail", 10)
         else if String.eqb service "shipd" then Some ("Royal Mail", 8)
         else None
    else None in
  if (String.eqb destination "USA" || String.eqb destination "US"
      || String.eqb destination "UNITED STATES")%bool
  then if String.eqb service "ship+" then Some ("USPS", 15)
       else if String.eqb service "shipd" then Some ("USPS", 12)
       else uk tt
  else uk tt.

Definition isServiceDestinationValid (destinationCountry serviceType : string) : bool :=
  match getCarrierInfo destinationCountry serviceType with
  | Some _ => true
  | None => false
  end.

Section Validator.

Variable w : World.

(** The body of [validateShipmentOnly] before its handler: the lookup and
    the five rules, in the order of the source; each failure throws. The ETA
    and the carrier that the source computes after the last rule only feed
    its log lines. *)
Definition checkShipment (awb : string) (settings : Settings)
  : M (ShipmentDetails * CustomerInfo) :=
  shipmentDetails <- getShipmentDetails w awb ;;
  dest <- field (Destination_Country shipmentDetails) ;;
  throw_if (negb (isDestinationAllowed dest (countries settings)))
           (DestinationNotAllowed dest (countries settings)) ;;;
  service <- field (Service_Type shipmentDetails) ;;
  throw_if (negb (isServiceDestinationValid dest service))
           (ServiceNotSupported service dest) ;;;
  throw_if (negb (isPickupTimeValid (Create_Pick_Up_Date shipmentDetails)
                                    (cutoffTime settings) (cipTime settings)))
           (PickupTimeNotAllowed (Create_Pick_Up_Date shipmentDetails)
                                 (cutoffTime settings) None) ;;;
  throw_if (negb (isShipmentValueValid (Package_Value shipmentDetails)
                    (minShipmentValueUsd settings) (usdToInrRate settings)))
           (ValueBelowThreshold (Package_Value shipmentDetails)
              (convertInrToUsd (Package_Value shipmentDetails) (usdToInrRate settings))
              (minShipmentValueUsd settings)) ;;;
  customerDetails <- getCustomerDetails w (Customer_ID shipmentDetails) ;;
  let customerInfo := customerInfoOf customerDetails in
  throw_if (negb (isSupplierAllowed (company_name customerInfo) (suppliers settings)))
           (SupplierNotAllowed (company_name customerInfo) (suppliers settings)) ;;;
  ret (shipmentDetails, customerInfo).

Definition validateShipmentOnly (awb : string) (settings : Settings) : M ValidationResult :=
  catch
    (r <- checkShipment awb settings ;;
     ret (Valid awb (fst r) (snd r)))
    (fun error => ret (Invalid awb error)).

End Validator.

End Cutoff.

(* ================================================================== *)
(** * Reading a run: the verdicts and the calls it made *)

Definition add_calls (st : State) (cs : list Call) : State :=
  mkState (coverzy_shipments st) (cron_error_logs st) (calls st ++ cs)%list.

(** The shipment numbers looked up, in order. *)
Definition lookups (cs : list Call) : list string :=
  flat_map (fun c => match c with GetShipment a => [a] | _ => [] end) cs.

(** The payloads submitted to the underwriting API, in order. *)
Definition submissions (cs : list Call) : list Payload :=
  flat_map (fun c => match c with PostCovrzy p => [p] | _ => [] end) cs.

(** What concerns mail among the calls of a run, summaries and alerts alike:
    the calls into the mailer and the mails it handed to the transport. *)
Definition mails (cs : list Call) : list Call :=
  filter (fun c => match c with
                   | DailySummaryEmail _ | CronErrorEmail _ | SendMail _ _ => true
                   | _ => false
                   end) cs.

(** The mails handed to the transport, with their recipients. *)
Definition sent (cs : list Call) : list (string * MailKind) :=
  flat_map (fun c => match c with SendMail to m => [(to, m)] | _ => [] end) cs.

Definition keys (t : list Row) : list string := map shipment_id t.

(** The rows of a table that carry a given shipment id. *)
Definition rows_of (id : string) (t : list Row) : list Row :=
  filter (fun x => String.eqb (shipment_id x) id) t.

(** The verdict of the window generation as the spec words it: the rules in
    their fixed order, the first failure decides. *)
Definition windowVerdict (w : World) (settings : Settings) (awb : string) : ValidationResult :=
  match lex_shipment w awb with
  | None => Invalid awb (ShipmentLookupFailed awb)
  | Some sd =>
      match Destination_Country sd with
      | None => Invalid awb TypeError
      | Some dest =>
          if negb (isDestinationAllowed dest (countries settings))
          then Invalid awb (DestinationNotAllowed dest (countries settings))
          else if negb (Window.isPickupTimeValid (Create_Pick_Up_Date sd)
                          (cutoffTime settings) (cipTime settings))
          then Invalid awb (PickupTimeNotAllowed (Create_Pick_Up_Date sd)
                              (cutoffTime settings) (cipTime settings))
          else
            let customerInfo := customerInfoOf (lex_customer w (Customer_ID sd)) in
            if negb (isSupplierAllowed (company_name customerInfo) (suppliers settings))
            then Invalid awb (SupplierNotAllowed (company_name customerInfo)
                                (suppliers settings))
            else Valid awb sd customerInfo
      end
  end.

(** The valid shipments of a listing, in listing order. *)
Definition validList (w : World) (settings : Settings) (awbNumbers : list string)
  : list ValidationResult :=
  filter valid (map (windowVerdict w settings) awbNumbers).

Definition invalidList (w : World) (settings : Settings) (awbNumbers : list string)
  : list ValidationResult :=
  filter (fun v => negb (valid v)) (map (windowVerdict w settings) awbNumbers).

(** The row [saveShipmentToDatabase] writes for a shipment and an answer. *)
Definition rowFor (awb : string) (supplierName destinationCountry : option string)
    (coverzyResponse : CoverzyResponse) : Row :=
  mkRow awb supplierName destinationCountry
        (policyId coverzyResponse) (amount coverzyResponse) "INR" None.

(** The calls one processing step makes. *)
Definition processCalls (w : World) (sd : ShipmentDetails) : list Call :=
  [GetCustomer (Customer_ID sd);
   PostCovrzy (Window.payloadOf sd (lex_customer w (Customer_ID sd)))].

(** The summary of the scheduled run: the mailer is called when the success
    rate of the capped shipments is at least 80, and sends or not. *)
Definition summaryMails (w : World) (nListed nValid nCapped nOk nInvalid nFailed : nat)
  : list Call :=
  if PrimFloat.leb 80 (successRate nOk nCapped)
  then DailySummaryEmail (mkSummary nListed nValid nCapped nOk nInvalid nFailed)
       :: deliveries w (DailySummary (mkSummary nListed nValid nCapped nOk nInvalid nFailed))
  else [].

(** The payload submitted for a valid shipment. *)
Definition payloadFor (w : World) (v : ValidationResult) : list Payload :=
  match v with
  | Valid _ sd _ => [Window.payloadOf sd (lex_customer w (Customer_ID sd))]
  | Invalid _ _ => []
  end.

(** What a computation leaves behind: a change of the shipment table, the
    error-log rows it appended and the calls it made. None of the pipeline's
    steps reads the state, so a step is described by its effect and its
    outcome. *)
Record Effect := mkEffect {
  on_rows : list Row -> list Row;
  new_logs : list ErrorLogEntry;
  new_calls : list Call
}.

Definition apply_effect (e : Effect) (st : State) : State :=
  mkState (on_rows e (coverzy_shipments st))
          (cron_error_logs st ++ new_logs e)%list
          (calls st ++ new_calls e)%list.

Definition no_effect : Effect := mkEffect (fun t => t) [] [].

Definition calls_effect (cs : list Call) : Effect := mkEffect (fun t => t) [] cs.

Definition seq_effect (e1 e2 : Effect) : Effect :=
  mkEffect (fun t => on_rows e2 (on_rows e1 t))
           (new_logs e1 ++ new_logs e2)%list
           (new_calls e1 ++ new_calls e2)%list.

(** [does m e r]: from every state, [m] has effect [e] and outcome [r]. *)
Definition does {A} (m : M A) (e : Effect) (r : Result A) : Prop :=
  forall st, m st = (apply_effect e st, r).

(** A table change that keeps every shipment id that was there. *)
Definition keeps_rows (f : list Row -> list Row) : Prop :=
  forall t, incl (keys t) (keys (f t)).

(* ================================================================== *)
(** * A sample world *)

(** Three shipments: AWB1 goes to the US at 20:00 for "ACME Corp", AWB2 goes
    to France, AWB3 goes to Great Britain at 21:00 for "Acme". The allow-lists
    are US and GB, and ACME; the window is 19:00 to 23:30. The underwriting API
    issues a policy for every shipment but AWB3, which it answers without a
    policy id. Mail is enabled for two administrators and the transport takes
    every mail. *)
Module Sample.

Definition shipment (dest pickup customer awbName : string) : ShipmentDetails :=
  mkShipment (Some awbName) (Some pickup) (Some dest) 1000%float
             (Some "Garments") (Some customer) (Some "Ship+").

Definition sampleSettings (n : Z) : Settings :=
  mkSettings ["ACME"] ["US"; "GB"] n (Some "19:00:00") (Some "23:30:00")
             20%float 83%float.

Definition sampleWorld (n : Z) (listing : list string) : World :=
  mkWorld
    (Some (sampleSettings n))
    (fun _ _ => Some (map Some listing))
    (fun awb =>
       if String.eqb awb "AWB1" then Some (shipment "US" "2024-05-01 20:00:00" "C1" "AWB1")
       else if String.eqb awb "AWB2" then Some (shipment "FR" "2024-05-01 20:30:00" "C2" "AWB2")
       else if String.eqb awb "AWB3" then Some (shipment "GB" "2024-05-01 21:00:00" "C3" "AWB3")
       else None)
    (fun id =>
       match id with
       | Some "C1" => Some (mkCustomerInfo (Some "Asha") (Some "Rao") (Some "ACME Corp")
                              (Some "asha@acme.example"), [])
       | Some "C2" => Some (mkCustomerInfo (Some "Luc") None (Some "Globex") None, [])
       | Some "C3" => Some (mkCustomerInfo None None (Some "Acme") None,
                            [mkAddress (Some "Registered Address") (Some "GB")])
       | _ => None
       end)
    (fun p =>
       match awb p with
       | Some "AWB3" => Some (Answer (mkResponse (Some "success") (Some "") 0%float))
       | Some a => Some (Answer (mkResponse (Some "success") (Some ("POL-" ++ a)) 250%float))
       | None => None
       end)
    (fun _ => true)
    true
    (Some (Mailer.mkEmailRow (Some "ops@lex.example, it@lex.example") true))
    (fun _ => true).

Definition emptyState : State := mkState [] [] [].


(** The same world with other mail settings. *)
Definition withMail (w : World) (row : option Mailer.EmailRow) : World :=
  mkWorld (settings_row w) (lex_daily w) (lex_shipment w) (lex_customer w) (covrzy w)
          (db_accepts w) (errlog_accepts w) row (mail_accepts w).

End Sample.

(* ================================================================== *)
(** * The rest of the code: failed runs, schedule, access, ETA *)

(** Letter case compared through [toLowerCase], as the supplier rule and the
    carrier table do. *)
Definition same_lower (a b : string) : Prop :=
  Js.toLowerCase a = Js.toLowerCase b.

(** The verdict of the cutoff-only generation, rule by rule in source order. *)
Definition cutoffVerdict (w : World) (settings : Settings) (awb : string) : ValidationResult :=
  match lex_shipment w awb with
  | None => Invalid awb (ShipmentLookupFailed awb)
  | Some sd =>
      match Destination_Country sd with
      | None => Invalid awb TypeError
      | Some dest =>
          if negb (isDestinationAllowed dest (countries settings))
          then Invalid awb (DestinationNotAllowed dest (countries settings))
          else
            match Service_Type sd with
            | None => Invalid awb TypeError
            | Some service =>
                if negb (Cutoff.isServiceDestinationValid dest service)
                then Invalid awb (ServiceNotSupported service dest)
                else if negb (Cutoff.isPickupTimeValid (Create_Pick_Up_Date sd)
                                (cutoffTime settings) (cipTime settings))
                then Invalid awb (PickupTimeNotAllowed (Create_Pick_Up_Date sd)
                                    (cutoffTime settings) None)
                else if negb (Cutoff.isShipmentValueValid (Package_Value sd)
                                (minShipmentValueUsd settings) (usdToInrRate settings))
                then Invalid awb
                       (ValueBelowThreshold (Package_Value sd)
                          (Cutoff.convertInrToUsd (Package_Value sd) (usdToInrRate settings))
                          (minShipmentValueUsd settings))
                else
                  let customerInfo := customerInfoOf (lex_customer w (Customer_ID sd)) in
                  if negb (isSupplierAllowed (company_name customerInfo) (suppliers settings))
                  then Invalid awb (SupplierNotAllowed (company_name customerInfo)
                                      (suppliers settings))
                  else Valid awb sd customerInfo
            end
      end
  end.

(** The error-log rows a failed scheduled run writes. *)
Definition settingsFailureLogs (today yesterdayDateMySQL : string) : list ErrorLogEntry :=
  [mkErrorLog "coverzy_daily_shipments" database_error NoSettingsFound today None;
   mkErrorLog Window.jobName cron_failure NoSettingsFound yesterdayDateMySQL None].

Definition listingFailureLogs (yesterdayDateMySQL : string) : list ErrorLogEntry :=
  [mkErrorLog Window.jobName api_error DailyShipmentsFailed yesterdayDateMySQL None;
   mkErrorLog Window.jobName cron_failure DailyShipmentsFailed yesterdayDateMySQL None].

(** The alerts among the calls of a run, by error type: the calls into the
    mailer for an alert and the alerts it handed to the transport. *)
Definition alerts (cs : list Call) : list ErrorType :=
  flat_map (fun c => match c with
                     | CronErrorEmail t => [t]
                     | SendMail _ (ErrorAlert t) => [t]
                     | _ => []
                     end) cs.

(** What the mail settings let through, read off the settings row: a mail
    goes to the transport when there is a row whose [admin_emails] is not
    NULL and whose [email_enabled] is set, and it goes to all the addresses
    of the column, trimmed and joined by commas. *)
Definition handedOver (w : World) (m : MailKind) : list Call :=
  match email_row w with
  | Some (Mailer.mkEmailRow (Some text) true) =>
      [SendMail (String.concat "," (splitTrim text)) m]
  | _ => []
  end.

(** ** The schedule: [setupDynamicCronJob] *)

Module Schedule.

Definition is_digit (c : ascii) : bool :=
  let n := nat_of_ascii c in (Nat.leb 48 n && Nat.leb n 57)%bool.

(** [/^\d{2}:\d{2}:\d{2}$/]: exactly eight characters, digits around two
    colons. *)
Definition matchesClock (s : string) : bool :=
  match s with
  | String a (String b (String c (String d (String e (String f
      (String g (String h EmptyString))))))) =>
      is_digit a && is_digit b && Ascii.eqb c ":"
      && is_digit d && is_digit e && Ascii.eqb f ":"
      && is_digit g && is_digit h
  | _ => false
  end.

(** The cron expression the server hands to [cron.schedule], or [None] when
    it refuses the stored [cip_time] and returns before that:
    [`${minutes} ${hours} * * *`] from [cipTime.split(':')]. *)
Definition cronExpression (cipTime : option string) : option string :=
  match cipTime with
  | None => None
  | Some t =>
      if negb (Js.truthy cipTime) || negb (matchesClock t) then None
      else match Js.split ":" t with
           | hours :: minutes :: _ => Some (minutes ++ " " ++ hours ++ " * * *")
           | _ => None
           end
  end.

(** How [setupDynamicCronJob] ends. It never throws: a failure to read the
    settings and a refusal of the scheduler are caught and logged. *)
Inductive Setup :=
| SettingsUnread
| CipTimeRefused
| SchedulerRefused (expression : string)
| Scheduled (expression : string).

(** [setupDynamicCronJob]: [settings] is what [getCoverzySettings] returned
    ([None] when it threw), and [schedulerAccepts] tells whether
    [cron.schedule] of the node-cron library takes the expression or throws;
    the server itself checks the shape of the text only. *)
Definition setupDynamicCronJob (settings : option Settings)
    (schedulerAccepts : string -> bool) : Setup :=
  match settings with
  | None => SettingsUnread
  | Some s =>
      match cronExpression (cipTime s) with
      | None => CipTimeRefused
      | Some expression =>
          if schedulerAccepts expression then Scheduled expression
          else SchedulerRefused expression
      end
  end.

End Schedule.

(** ** Access to the API routes: [authenticateToken] of routes/test.js *)

Module Access.

Inductive Outcome :=
| Denied401
| Denied403
| Next.

(** [authHeader && authHeader.split(' ')[1]]: a missing or empty header is
    its own (falsy) token. *)
Definition tokenOf (authHeader : option string) : option string :=
  if Js.truthy authHeader
  then match authHeader with
       | Some h => nth_error (Js.split " " h) 1
       | None => None
       end
  else authHeader.

(** [authenticateToken]; [BEARER_TOKEN] is the environment variable, [None]
    when it is not set. *)
Definition authenticateToken (authHeader BEARER_TOKEN : option string) : Outcome :=
  let token := tokenOf authHeader in
  if negb (Js.truthy token) then Denied401
  else match token, BEARER_TOKEN with
       | Some t, Some expected => if String.eqb t expected then Next else Denied403
       | _, _ => Denied403
       end.

(** The credential checks of [AuthController.login], up to the point where
    the token is generated. Both values are texts when present. *)
Inductive LoginCheck :=
| Status400
| Status401
| Accepted.

Definition checkCredentials (username password ADMIN_USERNAME ADMIN_PASSWORD : option string)
  : LoginCheck :=
  if negb (Js.truthy username) || negb (Js.truthy password) then Status400
  else match username, password with
       | Some u, Some p =>
           match ADMIN_USERNAME with
           | Some au =>
               if negb (String.eqb (Js.trim u) au) then Status401
               else match ADMIN_PASSWORD with
                    | Some ap => if negb (String.eqb (Js.trim p) ap) then Status401
                                 else Accepted
                    | None => Status401
                    end
           | None => Status401
           end
       | _, _ => Status400
       end.

End Access.

(** ** Business days: the loop of [calculateETA] *)

Module Eta.

(** Calendar days are counted from 1 January 1970, a Thursday; [getDay] is 0
    on Sundays and 6 on Saturdays. *)
Definition getDay (date : Z) : Z := (date + 4) mod 7.

Definition isWeekend (date : Z) : bool :=
  (getDay date =? 0) || (getDay date =? 6).

(** [while (addedDays < businessDays) { currentDate += 1 day;
    if (not a weekend) addedDays++ }], with a bound on the number of turns. *)
Fixpoint etaLoop (fuel : nat) (currentDate addedDays businessDays : Z) : option Z :=
  if addedDays <? businessDays
  then match fuel with
       | O => None
       | S fuel' =>
           let next := currentDate + 1 in
           if isWeekend next
           then etaLoop fuel' next addedDays businessDays
           else etaLoop fuel' next (addedDays + 1) businessDays
       end
  else Some currentDate.

(** The loop with three turns per business day, which are always enough. *)
Definition addBusinessDays (date businessDays : Z) : option Z :=
  etaLoop (3 * Z.to_nat businessDays) date 0 businessDays.

(** The number of turns the loop needs to reach the next business day. *)
Definition turnsToBusinessDay (date : Z) : Z :=
  if getDay date =? 5 then 3 else if getDay date =? 6 then 2 else 1.

(** The business days among the [k] days that follow [date]. *)
Fixpoint businessDaysAfter (date : Z) (k : nat) : Z :=
  match k with
  | O => 0
  | S k' => businessDaysAfter date k'
            + (if isWeekend (date + Z.of_nat k) then 0 else 1)
  end.

End Eta.

(* ================================================================== *)
(** * Properties of the time-of-day rules *)

Ltac leb_cases :=
  repeat match goal with
         | |- context [Z.leb ?a ?b] => destruct (Z.leb_spec a b)
         | |- context [Z.ltb ?a ?b] => destruct (Z.ltb_spec a b)
         end.

(** The window rule on three readable times, in terms of their minutes. *)
Lemma window_rule_minutes (pickup cutoff cip : string) (p c k : Z) :
  timeToMinutes (pickupTimeStr pickup) = Some p ->
  timeToMinutes cutoff = Some c ->
  timeToMinutes cip = Some k ->
  Window.isPickupTimeValid (Some pickup) (Some cutoff) (Some cip)
  = if c <=? k then (c <=? p) && (p <=? k) else (c <=? p) || (p <=? k).
Proof.
  intros Hp Hc Hk. unfold Window.isPickupTimeValid.
  rewrite Hp, Hc, Hk. reflexivity.
Qed.

Example window_wrap_before_cip :
  Window.isPickupTimeValid (Some "2024-05-02 01:00:00") (Some "23:00:00") (Some "02:00:00")
  = true.
Proof. reflexivity. Qed.

Example window_wrap_midday :
  Window.isPickupTimeValid (Some "2024-05-01 12:00:00") (Some "23:00:00") (Some "02:00:00")
  = false.
Proof. reflexivity. Qed.

Example window_plain_bounds :
  Window.isPickupTimeValid (Some "2024-05-01 19:00:59") (Some "19:00:00") (Some "23:30:00") = true
  /\ Window.isPickupTimeValid (Some "2024-05-01 23:30:59") (Some "19:00:00") (Some "23:30:00") = true
  /\ Window.isPickupTimeValid (Some "2024-05-01 23:31:00") (Some "19:00:00") (Some "23:30:00") = false.
Proof. repeat split. Qed.

Example cutoff_one_second_late :
  Cutoff.isPickupTimeValid (Some "23:00:01") (Some "23:00:00") None = false
  /\ Cutoff.isPickupTimeValid (Some "23:00:00") (Some "23:00:00") None = false
  /\ Cutoff.isPickupTimeValid (Some "2024-05-01 22:59:59") (Some "23:00:00") None = true
  /\ Cutoff.isPickupTimeValid (Some "2024-05-01 23:00:01") (Some "23:00:00") None = false.
Proof. repeat split. Qed.

(** How the readings behave off the beaten track. *)
Example Number_readings :
  Js.Number "" = Some 0 /\ Js.Number "07" = Some 7 /\ Js.Number "7a" = None.
Proof. repeat split. Qed.

Example timeToMinutes_readings :
  timeToMinutes "19:00:00" = Some 1140
  /\ timeToMinutes "19:00" = Some 1140
  /\ timeToMinutes "19" = None
  /\ pickupTimeStr "2024-05-01 20:15:00" = "20:15:00"
  /\ pickupTimeStr "20:15:00" = "20:15:00".
Proof. repeat split. Qed.

(** An argument that is absent makes either rule answer [false]; a cutoff
    that does not read as a time makes every comparison with it false, which
    sends the window rule to its wrapping branch. *)
Example pickup_rule_unreadable :
  Window.isPickupTimeValid None (Some "19:00:00") (Some "23:30:00") = false
  /\ Window.isPickupTimeValid (Some "20:00:00") (Some "19:00:00") None = false
  /\ Cutoff.isPickupTimeValid (Some "20:00:00") None None = false
  /\ Cutoff.isPickupTimeValid (Some "20:00:00") (Some "late") None = false
  /\ Window.isPickupTimeValid (Some "01:00:00") (Some "late") (Some "02:00:00") = true.
Proof. repeat split. Qed.

(** Every clock time reads as its minutes since midnight, and the clock
    part of a date-and-time text is found after the blank. *)
Lemma split_no_sep (sep : ascii) (s : string) :
  has_char sep s = false -> Js.split sep s = [s].
Proof.
  induction s as [|x s IH]; simpl; [reflexivity|].
  intros H. apply orb_false_iff in H. destruct H as [Hx Hs].
  rewrite Hx, (IH Hs). reflexivity.
Qed.

Lemma split_app_sep (sep : ascii) (a b : string) :
  has_char sep a = false ->
  Js.split sep (a ++ String sep b) = a :: Js.split sep b.
Proof.
  induction a as [|x a IH]; simpl.
  - intros _. now rewrite Ascii.eqb_refl.
  - intros H. apply orb_false_iff in H. destruct H as [Hx Ha].
    rewrite Hx, (IH Ha). reflexivity.
Qed.

Lemma has_char_app (c : ascii) (a b : string) :
  has_char c (a ++ b) = has_char c a || has_char c b.
Proof.
  induction a as [|x a IH]; simpl; [reflexivity|].
  now rewrite IH, orb_assoc.
Qed.

Lemma two_digits_facts (n : nat) :
  (n < 100)%nat ->
  Js.Number (two_digits n) = Some (Z.of_nat n)
  /\ has_char ":" (two_digits n) = false
  /\ has_char " " (two_digits n) = false.
Proof.
  intros H. do 100 (destruct n as [|n]; [repeat split|]). lia.
Qed.

Lemma timeToMinutes_clock (h m s : nat) :
  (h < 100)%nat -> (m < 100)%nat -> (s < 100)%nat ->
  timeToMinutes (clock h m s) = Some (Z.of_nat h * 60 + Z.of_nat m).
Proof.
  intros Hh Hm Hs.
  destruct (two_digits_facts h Hh) as [Nh [Ch _]].
  destruct (two_digits_facts m Hm) as [Nm [Cm _]].
  destruct (two_digits_facts s Hs) as [_ [Cs _]].
  unfold timeToMinutes, clock.
  change (two_digits h ++ ":" ++ two_digits m ++ ":" ++ two_digits s)
    with (two_digits h ++ String ":" (two_digits m ++ String ":" (two_digits s))).
  rewrite (split_app_sep _ _ _ Ch), (split_app_sep _ _ _ Cm), (split_no_sep _ _ Cs).
  cbn [map]. now rewrite Nh, Nm.
Qed.

Lemma pickupTimeStr_datetime (date : string) (h m s : nat) :
  has_char " " date = false ->
  (h < 100)%nat -> (m < 100)%nat -> (s < 100)%nat ->
  pickupTimeStr (date ++ " " ++ clock h m s) = clock h m s.
Proof.
  intros Hd Hh Hm Hs.
  destruct (two_digits_facts h Hh) as [_ [_ Bh]].
  destruct (two_digits_facts m Hm) as [_ [_ Bm]].
  destruct (two_digits_facts s Hs) as [_ [_ Bs]].
  assert (Hc : has_char " " (clock h m s) = false).
  { unfold clock. rewrite !has_char_app, Bh, Bm, Bs. reflexivity. }
  unfold pickupTimeStr.
  change (date ++ " " ++ clock h m s) with (date ++ String " " (clock h m s)).
  rewrite (split_app_sep _ _ _ Hd), (split_no_sep _ _ Hc). reflexivity.
Qed.

(** The window rule on the clock itself: a pickup at [hp:mp] against the
    window from [hc:mc] to [hk:mk]. *)
Corollary window_rule_clock (date : string) (hp mp sp hc mc sc hk mk sk : nat) :
  has_char " " date = false ->
  (hp < 100 /\ mp < 100 /\ sp < 100)%nat ->
  (hc < 100 /\ mc < 100 /\ sc < 100)%nat ->
  (hk < 100 /\ mk < 100 /\ sk < 100)%nat ->
  let p := Z.of_nat hp * 60 + Z.of_nat mp in
  let c := Z.of_nat hc * 60 + Z.of_nat mc in
  let k := Z.of_nat hk * 60 + Z.of_nat mk in
  Window.isPickupTimeValid (Some (date ++ " " ++ clock hp mp sp))
    (Some (clock hc mc sc)) (Some (clock hk mk sk))
  = if c <=? k then (c <=? p) && (p <=? k) else (c <=? p) || (p <=? k).
Proof.
  intros Hd [Hp1 [Hp2 Hp3]] [Hc1 [Hc2 Hc3]] [Hk1 [Hk2 Hk3]] p c k.
  apply window_rule_minutes.
  - rewrite pickupTimeStr_datetime by assumption. now apply timeToMinutes_clock.
  - now apply timeToMinutes_clock.
  - now apply timeToMinutes_clock.
Qed.

Lemma clock_no_blank (h m s : nat) :
  (h < 100)%nat -> (m < 100)%nat -> (s < 100)%nat ->
  has_char " " (clock h m s) = false.
Proof.
  intros Hh Hm Hs.
  destruct (two_digits_facts h Hh) as [_ [_ Bh]].
  destruct (two_digits_facts m Hm) as [_ [_ Bm]].
  destruct (two_digits_facts s Hs) as [_ [_ Bs]].
  unfold clock. rewrite !has_char_app, Bh, Bm, Bs. reflexivity.
Qed.

(** A pickup text without a date is its own clock part. *)
Lemma pickupTimeStr_clock (h m s : nat) :
  (h < 100)%nat -> (m < 100)%nat -> (s < 100)%nat ->
  pickupTimeStr (clock h m s) = clock h m s.
Proof.
  intros Hh Hm Hs. unfold pickupTimeStr.
  rewrite (split_no_sep _ _ (clock_no_blank h m s Hh Hm Hs)). reflexivity.
Qed.

(** The minutes the rules read from a pickup text, with or without a date. *)
Lemma pickup_minutes (date pickup : string) (h m s : nat) :
  has_char " " date = false ->
  (h < 100 /\ m < 100 /\ s < 100)%nat ->
  pickup = clock h m s \/ pickup = date ++ " " ++ clock h m s ->
  timeToMinutes (pickupTimeStr pickup) = Some (Z.of_nat h * 60 + Z.of_nat m).
Proof.
  intros Hd [Hh [Hm Hs]] [-> | ->].
  - rewrite pickupTimeStr_clock by assumption. now apply timeToMinutes_clock.
  - rewrite pickupTimeStr_datetime by assumption. now apply timeToMinutes_clock.
Qed.

(** C1. In the window generation, for a pickup at [hp:mp:sp] (given as a
    clock time or as a date, a blank and a clock time), a cutoff at
    [hc:mc:sc] and a CIP time at [hk:mk:sk], each field written with two
    digits: the three texts are read as the minutes [p], [c] and [k] since
    midnight, hours times 60 plus minutes, and [isPickupTimeValid] is true
    exactly when the pickup lies in the window from cutoff to CIP, both ends
    included; when the cutoff is later than the CIP the window wraps past
    midnight and holds the pickups at or after the cutoff and those at or
    before the CIP. *)
Theorem window_isPickupTimeValid_spec (date pickup : string)
    (hp mp sp hc mc sc hk mk sk : nat) :
  has_char " " date = false ->
  (hp < 100 /\ mp < 100 /\ sp < 100)%nat ->
  (hc < 100 /\ mc < 100 /\ sc < 100)%nat ->
  (hk < 100 /\ mk < 100 /\ sk < 100)%nat ->
  pickup = clock hp mp sp \/ pickup = date ++ " " ++ clock hp mp sp ->
  let p := Z.of_nat hp * 60 + Z.of_nat mp in
  let c := Z.of_nat hc * 60 + Z.of_nat mc in
  let k := Z.of_nat hk * 60 + Z.of_nat mk in
  timeToMinutes (pickupTimeStr pickup) = Some p
  /\ timeToMinutes (clock hc mc sc) = Some c
  /\ timeToMinutes (clock hk mk sk) = Some k
  /\ (Window.isPickupTimeValid (Some pickup) (Some (clock hc mc sc)) (Some (clock hk mk sk))
      = true
      <-> (c <= k /\ c <= p <= k) \/ (k < c /\ (c <= p \/ p <= k))).
Proof.
  intros Hd Hp [Hc1 [Hc2 Hc3]] [Hk1 [Hk2 Hk3]] Hpick p c k.
  pose proof (pickup_minutes date pickup hp mp sp Hd Hp Hpick) as Rp.
  pose proof (timeToMinutes_clock hc mc sc Hc1 Hc2 Hc3) as Rc.
  pose proof (timeToMinutes_clock hk mk sk Hk1 Hk2 Hk3) as Rk.
  fold p in Rp. fold c in Rc. fold k in Rk.
  split; [exact Rp|]. split; [exact Rc|]. split; [exact Rk|].
  rewrite (window_rule_minutes _ _ _ _ _ _ Rp Rc Rk).
  leb_cases; simpl; split; intros ?; try discriminate; try reflexivity; lia.
Qed.

(** The examples of the spec: with the cutoff 23:00 and the CIP time 02:00,
    the pickups at 23:30 and at 01:00 are valid and the pickup at noon is
    not. *)
Lemma window_isPickupTimeValid_spec_witness :
  Window.isPickupTimeValid (Some "2024-05-01 23:30:00") (Some "23:00:00") (Some "02:00:00")
  = true
  /\ Window.isPickupTimeValid (Some "2024-05-02 01:00:00") (Some "23:00:00") (Some "02:00:00")
     = true
  /\ Window.isPickupTimeValid (Some "2024-05-01 12:00:00") (Some "23:00:00") (Some "02:00:00")
     = false.
Proof.
  split; [|split].
  - apply (window_isPickupTimeValid_spec "2024-05-01" "2024-05-01 23:30:00"
             23 30 0 23 0 0 2 0 0);
      [reflexivity | lia | lia | lia | right; reflexivity | right; simpl; lia].
  - apply (window_isPickupTimeValid_spec "2024-05-02" "2024-05-02 01:00:00"
             1 0 0 23 0 0 2 0 0);
      [reflexivity | lia | lia | lia | right; reflexivity | right; simpl; lia].
  - apply not_true_is_false. intros H.
    apply (window_isPickupTimeValid_spec "2024-05-01" "2024-05-01 12:00:00"
             12 0 0 23 0 0 2 0 0) in H;
      [simpl in H; lia | reflexivity | lia | lia | lia | right; reflexivity].
Defined.

(** C7. In the cutoff-only generation, for a pickup at [hp:mp:sp] (given as
    a clock time or as a date, a blank and a clock time) and a cutoff at
    [hc:mc:sc], each field written with two digits: the two texts are read as
    the minutes [p] and [c] since midnight, hours times 60 plus minutes, and
    [isPickupTimeValid] is true exactly when [p < c]. The seconds take no
    part on either side, and the CIP argument is not read: the verdict is the
    same for any other seconds and any other CIP argument. *)
Theorem cutoff_isPickupTimeValid_spec (date pickup : string)
    (hp mp sp hc mc sc : nat) (cip : option string) :
  has_char " " date = false ->
  (hp < 100 /\ mp < 100 /\ sp < 100)%nat ->
  (hc < 100 /\ mc < 100 /\ sc < 100)%nat ->
  pickup = clock hp mp sp \/ pickup = date ++ " " ++ clock hp mp sp ->
  let p := Z.of_nat hp * 60 + Z.of_nat mp in
  let c := Z.of_nat hc * 60 + Z.of_nat mc in
  timeToMinutes (pickupTimeStr pickup) = Some p
  /\ timeToMinutes (clock hc mc sc) = Some c
  /\ (Cutoff.isPickupTimeValid (Some pickup) (Some (clock hc mc sc)) cip = true <-> p < c)
  /\ (forall (sp' sc' : nat) (cip' : option string),
        (sp' < 100)%nat -> (sc' < 100)%nat ->
        Cutoff.isPickupTimeValid (Some (clock hp mp sp')) (Some (clock hc mc sc')) cip'
        = Cutoff.isPickupTimeValid (Some pickup) (Some (clock hc mc sc)) cip).
Proof.
  intros Hd Hp [Hc1 [Hc2 Hc3]] Hpick p c.
  pose proof (pickup_minutes date pickup hp mp sp Hd Hp Hpick) as Rp.
  pose proof (timeToMinutes_clock hc mc sc Hc1 Hc2 Hc3) as Rc.
  fold p in Rp. fold c in Rc.
  split; [exact Rp|]. split; [exact Rc|].
  unfold Cutoff.isPickupTimeValid. rewrite Rp, Rc. split.
  - simpl. apply Z.ltb_lt.
  - intros sp' sc' cip' Hsp Hsc. destruct Hp as [Hp1 [Hp2 _]].
    rewrite (pickupTimeStr_clock hp mp sp') by assumption.
    rewrite (timeToMinutes_clock hp mp sp'), (timeToMinutes_clock hc mc sc') by assumption.
    reflexivity.
Qed.

(** The examples of the spec: against the cutoff 23:00:00 the pickup at
    22:59:59 is valid, the pickups at 23:00:01 and at 23:00:00 are not. *)
Lemma cutoff_isPickupTimeValid_spec_witness :
  Cutoff.isPickupTimeValid (Some "22:59:59") (Some "23:00:00") None = true
  /\ Cutoff.isPickupTimeValid (Some "23:00:01") (Some "23:00:00") None = false
  /\ Cutoff.isPickupTimeValid (Some "23:00:00") (Some "23:00:00") None = false.
Proof.
  split; [|split].
  - apply (cutoff_isPickupTimeValid_spec "" "22:59:59" 22 59 59 23 0 0 None);
      [reflexivity | lia | lia | left; reflexivity | simpl; lia].
  - apply not_true_is_false. intros H.
    apply (cutoff_isPickupTimeValid_spec "" "23:00:01" 23 0 1 23 0 0 None) in H;
      [simpl in H; lia | reflexivity | lia | lia | left; reflexivity].
  - apply not_true_is_false. intros H.
    apply (cutoff_isPickupTimeValid_spec "" "23:00:00" 23 0 0 23 0 0 None) in H;
      [simpl in H; lia | reflexivity | lia | lia | left; reflexivity].
Defined.

(* ================================================================== *)
(** * The destination rule *)

Lemma arr_includes_In (l : list string) (x : string) :
  Js.arr_includes l x = true <-> In x l.
Proof.
  unfold Js.arr_includes. rewrite existsb_exists. split.
  - intros [y [Hy Heq]]. apply String.eqb_eq in Heq. now subst.
  - intros H. exists x. split; [assumption | apply String.eqb_refl].
Qed.

(** The rule as the code has it: the destination is put in upper case, the
    entries of the allow-list are compared as they stand. *)
Lemma isDestinationAllowed_In (destinationCountry : string) (allowedCountries : list string) :
  isDestinationAllowed destinationCountry allowedCountries = true
  <-> In (Js.toUpperCase destinationCountry) allowedCountries.
Proof. apply arr_includes_In. Qed.

Lemma upper_char_idem (c : ascii) : Js.upper_char (Js.upper_char c) = Js.upper_char c.
Proof.
  destruct c as [[] [] [] [] [] [] [] []]; reflexivity.
Qed.

Lemma toUpperCase_idem (s : string) : Js.toUpperCase (Js.toUpperCase s) = Js.toUpperCase s.
Proof.
  induction s as [|c s IH]; simpl; [reflexivity|].
  unfold Js.toUpperCase in *. simpl. now rewrite upper_char_idem, IH.
Qed.

(** The verdict does not depend on the case of the destination. *)
Lemma isDestinationAllowed_destination_case (d d' : string) (allowed : list string) :
  same_up_to_case d d' ->
  isDestinationAllowed d allowed = isDestinationAllowed d' allowed.
Proof.
  unfold same_up_to_case, isDestinationAllowed. now intros ->.
Qed.

(** With an allow-list written in upper case, membership is up to case. *)
Lemma isDestinationAllowed_upper_list (d : string) (allowed : list string) :
  Forall (fun c => Js.toUpperCase c = c) allowed ->
  isDestinationAllowed d allowed = true <-> exists c, In c allowed /\ same_up_to_case d c.
Proof.
  intros Hup. rewrite isDestinationAllowed_In. unfold same_up_to_case. split.
  - intros Hin. exists (Js.toUpperCase d). split; [assumption|].
    now rewrite toUpperCase_idem.
  - intros [c [Hin Heq]]. rewrite Forall_forall in Hup.
    rewrite Heq, (Hup c Hin). assumption.
Qed.

(** C8. The destination "US" is refused against the allow-list ["us"], which
    it equals up to case, while "us" against ["US"] is accepted: the code
    upper-cases the destination only, so an entry that is not in upper case
    never matches. *)
Theorem isDestinationAllowed_entry_case :
  isDestinationAllowed "US" ["us"] = false
  /\ same_up_to_case "US" "us"
  /\ isDestinationAllowed "us" ["US"] = true
  /\ (forall d, isDestinationAllowed d ["us"] = false).
Proof.
  repeat split.
  intros d. destruct (isDestinationAllowed d ["us"]) eqn:E; [|reflexivity].
  apply isDestinationAllowed_In in E. destruct E as [E|[]].
  assert (H : Js.toUpperCase (Js.toUpperCase d) = Js.toUpperCase "us") by now rewrite <- E.
  rewrite toUpperCase_idem, <- E in H. discriminate H.
Qed.

(* ================================================================== *)
(** * The order of the validator's rules *)

(** Unfolds one run of a validator down to the collaborators' answers. *)
Ltac unfold_run :=
  unfold Window.validateShipmentOnly, Window.checkShipment,
         Cutoff.validateShipmentOnly, Cutoff.checkShipment,
         getShipmentDetails, getCustomerDetails, throw_if, field,
         catch, bind, call, ret, throw in *.



(* ================================================================== *)
(** * The declared-value rule of the cutoff-only generation *)

Lemma Prim2SF_zero : Prim2SF 0%float = S754_zero false.
Proof. reflexivity. Qed.

(** A rate above zero is a number, and is not at or below zero. *)
Lemma positive_rate (r : float) :
  PrimFloat.ltb 0 r = true ->
  PrimFloat.is_nan r = false /\ PrimFloat.leb r 0 = false.
Proof.
  intros H. rewrite ltb_spec, Prim2SF_zero in H.
  unfold PrimFloat.is_nan. rewrite eqb_spec, leb_spec, Prim2SF_zero.
  unfold SFltb, SFeqb, SFleb in *.
  destruct (Prim2SF r) as [s|s| |s m e]; simpl in *; try discriminate;
    destruct s; try discriminate; split; try reflexivity.
  now rewrite Z.compare_refl, Pos.compare_cont_refl.
Qed.

Lemma convertInrToUsd_quotient (v r : float) :
  PrimFloat.is_nan v = false ->
  PrimFloat.ltb 0 r = true ->
  Cutoff.convertInrToUsd v r = (v / r)%float.
Proof.
  intros Hv Hr. destruct (positive_rate r Hr) as [Hn Hl].
  unfold Cutoff.convertInrToUsd. now rewrite Hv, Hn, Hl.
Qed.

(** C9. In the value rule of the cutoff-only generation, for a declared value
    [v] that is a number and a rate [r] above zero, the check passes exactly
    when the quotient [v / r] is at least the threshold [m]; and a shipment
    that passed the destination, service and pickup rules and whose quotient
    is below the threshold is refused with the value-below-threshold reason,
    before its customer is fetched. *)
Theorem value_rule_spec (v r m : float) :
  PrimFloat.is_nan v = false ->
  PrimFloat.ltb 0 r = true ->
  (Cutoff.isShipmentValueValid v m r = true <-> PrimFloat.leb m (v / r) = true)
  /\ (forall w awb settings st sd dest service,
        lex_shipment w awb = Some sd ->
        Destination_Country sd = Some dest ->
        isDestinationAllowed dest (countries settings) = true ->
        Service_Type sd = Some service ->
        Cutoff.isServiceDestinationValid dest service = true ->
        Cutoff.isPickupTimeValid (Create_Pick_Up_Date sd)
          (cutoffTime settings) (cipTime settings) = true ->
        Package_Value sd = v ->
        usdToInrRate settings = r ->
        minShipmentValueUsd settings = m ->
        PrimFloat.leb m (v / r) = false ->
        Cutoff.validateShipmentOnly w awb settings st
        = (mkState (coverzy_shipments st) (cron_error_logs st)
                   (calls st ++ [GetShipment awb])%list,
           Ok (Invalid awb (ValueBelowThreshold v (v / r) m)))).
Proof.
  intros Hv Hr. split.
  - unfold Cutoff.isShipmentValueValid.
    rewrite (convertInrToUsd_quotient v r Hv Hr). reflexivity.
  - intros w awb settings st sd dest service Hsd Hdest Hd Hsv Hs Hp Hval Hrate Hmin Hlow.
    unfold_run. simpl. rewrite Hsd. simpl. rewrite Hdest. simpl. rewrite Hd. simpl.
    rewrite Hsv. simpl. rewrite Hs. simpl. rewrite Hp. simpl.
    unfold Cutoff.isShipmentValueValid.
    rewrite Hval, Hrate, Hmin, (convertInrToUsd_quotient v r Hv Hr), Hlow.
    reflexivity.
Qed.

(** The example of the spec: 1000 at the rate 83.0 is about 12.05 USD, below
    the threshold 20.00. *)
Lemma value_rule_spec_witness :
  (Cutoff.isShipmentValueValid 1000 20 83 = true <-> PrimFloat.leb 20 (1000 / 83) = true)
  /\ PrimFloat.leb 20 (1000 / 83) = false
  /\ PrimFloat.ltb 12 (1000 / 83) = true
  /\ PrimFloat.ltb (1000 / 83) 12.0625 = true.
Proof.
  split; [exact (proj1 (value_rule_spec 1000 83 20 eq_refl eq_refl))|].
  repeat split.
Defined.

(** The same example through the validator: AWB1 of the sample world, with a
    cutoff that its pickup time respects. *)
Example value_below_threshold_verdict :
  snd (Cutoff.validateShipmentOnly (Sample.sampleWorld 2 ["AWB1"]) "AWB1"
         (mkSettings ["ACME"] ["US"; "GB"] 2 (Some "23:00:00") None 20 83)
         Sample.emptyState)
  = Ok (Invalid "AWB1" (ValueBelowThreshold 1000 (1000 / 83) 20)).
Proof. reflexivity. Qed.

(** A declared value that is not a number counts as 0 USD. *)
Lemma value_rule_nan (v r m : float) :
  PrimFloat.is_nan v = true ->
  Cutoff.isShipmentValueValid v m r = PrimFloat.leb m 0.
Proof.
  intros Hv. unfold Cutoff.isShipmentValueValid, Cutoff.convertInrToUsd.
  now rewrite Hv.
Qed.

(* ================================================================== *)
(** * Effects of the pipeline's steps *)

Lemma apply_no_effect (st : State) : apply_effect no_effect st = st.
Proof.
  destruct st as [rows logs cs]. unfold apply_effect. simpl.
  now rewrite !app_nil_r.
Qed.

Lemma apply_seq_effect (e1 e2 : Effect) (st : State) :
  apply_effect e2 (apply_effect e1 st) = apply_effect (seq_effect e1 e2) st.
Proof.
  unfold apply_effect. simpl. now rewrite !app_assoc.
Qed.

Lemma does_ret {A} (a : A) : does (ret a) no_effect (Ok a).
Proof. intros st. unfold ret. now rewrite apply_no_effect. Qed.

Lemma does_throw {A} (x : Error) : does (@throw A x) no_effect (Throw x).
Proof. intros st. unfold throw. now rewrite apply_no_effect. Qed.

Lemma does_call (c : Call) : does (call c) (calls_effect [c]) (Ok tt).
Proof.
  intros st. unfold call, apply_effect. simpl. now rewrite app_nil_r.
Qed.

Lemma does_bind {A B} (m : M A) (k : A -> M B) e1 e2 (a : A) (r : Result B) :
  does m e1 (Ok a) -> does (k a) e2 r -> does (bind m k) (seq_effect e1 e2) r.
Proof.
  intros Hm Hk st. unfold bind. rewrite Hm, Hk. now rewrite apply_seq_effect.
Qed.

Lemma does_bind_pure {A B} (m : M A) (k : A -> M B) e (a : A) (r : Result B) :
  does m e (Ok a) -> does (k a) no_effect r -> does (bind m k) e r.
Proof.
  intros Hm Hk st. unfold bind. rewrite Hm, Hk. now rewrite apply_no_effect.
Qed.

Lemma does_bind_throw {A B} (m : M A) (k : A -> M B) e (x : Error) :
  does m e (Throw x) -> does (bind m k) e (Throw x).
Proof. intros Hm st. unfold bind. now rewrite Hm. Qed.

Lemma does_catch_ok {A} (m : M A) (h : Error -> M A) e (a : A) :
  does m e (Ok a) -> does (catch m h) e (Ok a).
Proof. intros Hm st. unfold catch. now rewrite Hm. Qed.

Lemma does_catch_throw {A} (m : M A) (h : Error -> M A) e1 e2 (x : Error) (r : Result A) :
  does m e1 (Throw x) -> does (h x) e2 r -> does (catch m h) (seq_effect e1 e2) r.
Proof.
  intros Hm Hh st. unfold catch. rewrite Hm, Hh. now rewrite apply_seq_effect.
Qed.

Lemma does_catch_pure {A} (m : M A) (h : Error -> M A) e (x : Error) (r : Result A) :
  does m e (Throw x) -> does (h x) no_effect r -> does (catch m h) e r.
Proof.
  intros Hm Hh st. unfold catch. rewrite Hm, Hh. now rewrite apply_no_effect.
Qed.

Lemma lookups_app (a b : list Call) : lookups (a ++ b) = (lookups a ++ lookups b)%list.
Proof. apply flat_map_app. Qed.

Lemma submissions_app (a b : list Call) :
  submissions (a ++ b) = (submissions a ++ submissions b)%list.
Proof. apply flat_map_app. Qed.

Lemma mails_app (a b : list Call) : mails (a ++ b) = (mails a ++ mails b)%list.
Proof. apply filter_app. Qed.

Lemma sent_app (a b : list Call) : sent (a ++ b) = (sent a ++ sent b)%list.
Proof. apply flat_map_app. Qed.

(** What the mailer hands over is mail, and nothing else. *)
Lemma deliveries_calls (w : World) (m : MailKind) :
  mails (deliveries w m) = deliveries w m
  /\ lookups (deliveries w m) = []
  /\ submissions (deliveries w m) = [].
Proof.
  unfold deliveries. now destruct (Mailer.send _ _).
Qed.

Lemma logErrorToDatabase_does (w : World) (entry : ErrorLogEntry) :
  does (logErrorToDatabase w entry)
       (mkEffect (fun t => t) (if errlog_accepts w then [entry] else []) []) (Ok tt).
Proof.
  intros st. unfold logErrorToDatabase, apply_effect.
  destruct (errlog_accepts w); simpl; rewrite ?app_nil_r; [reflexivity | now destruct st].
Qed.

(** A call into the mailer returns, whatever the mailer decides. *)
Lemma sendDailySummaryEmail_does (w : World) (s : Summary) :
  does (sendDailySummaryEmail w s)
       (calls_effect (DailySummaryEmail s :: deliveries w (DailySummary s))) (Ok tt).
Proof.
  intros st. unfold sendDailySummaryEmail, deliveries, bind, call, ret, apply_effect.
  destruct (Mailer.send _ _); simpl; now rewrite ?app_nil_r, <- ?app_assoc.
Qed.

Lemma sendCronErrorEmail_does (w : World) (t : ErrorType) :
  does (sendCronErrorEmail w t)
       (calls_effect (CronErrorEmail t :: deliveries w (ErrorAlert t))) (Ok tt).
Proof.
  intros st. unfold sendCronErrorEmail, deliveries, bind, call, ret, apply_effect.
  destruct (Mailer.send _ _); simpl; now rewrite ?app_nil_r, <- ?app_assoc.
Qed.

(** One run of the window validator: the verdict is the one the rules give in
    their order, the shipment is looked up once, nothing is submitted, mailed,
    logged or written. *)
Lemma window_validate_does (w : World) (awb : string) (settings : Settings) :
  exists cs,
    does (Window.validateShipmentOnly w awb settings) (calls_effect cs)
         (Ok (windowVerdict w settings awb))
    /\ lookups cs = [awb] /\ submissions cs = [] /\ mails cs = [].
Proof.
  unfold windowVerdict.
  destruct (lex_shipment w awb) as [sd|] eqn:Hsd.
  2:{ exists [GetShipment awb]. split; [|now repeat split].
      intros st. unfold_run. simpl. rewrite Hsd. unfold apply_effect. simpl.
      now rewrite app_nil_r. }
  destruct (Destination_Country sd) as [dest|] eqn:Hdest.
  2:{ exists [GetShipment awb]. split; [|now repeat split].
      intros st. unfold_run. simpl. rewrite Hsd. simpl. rewrite Hdest.
      unfold apply_effect. simpl. now rewrite app_nil_r. }
  destruct (isDestinationAllowed dest (countries settings)) eqn:Hd; simpl.
  2:{ exists [GetShipment awb]. split; [|now repeat split].
      intros st. unfold_run. simpl. rewrite Hsd. simpl. rewrite Hdest. simpl. rewrite Hd.
      unfold apply_effect. simpl. now rewrite app_nil_r. }
  destruct (Window.isPickupTimeValid _ _ _) eqn:Hp; simpl.
  2:{ exists [GetShipment awb]. split; [|now repeat split].
      intros st. unfold_run. simpl. rewrite Hsd. simpl. rewrite Hdest. simpl. rewrite Hd.
      simpl. rewrite Hp. unfold apply_effect. simpl. now rewrite app_nil_r. }
  exists [GetShipment awb; GetCustomer (Customer_ID sd)].
  split; [|now repeat split].
  intros st. unfold_run. simpl. rewrite Hsd. simpl. rewrite Hdest. simpl. rewrite Hd.
  simpl. rewrite Hp. simpl.
  destruct (isSupplierAllowed _ _); unfold apply_effect; simpl;
    now rewrite app_nil_r, <- app_assoc.
Qed.

Lemma does_calls_seq {A} (m : M A) (a b : list Call) (r : Result A) :
  does m (seq_effect (calls_effect a) (calls_effect b)) r ->
  does m (calls_effect (a ++ b)) r.
Proof. exact (fun H => H). Qed.

Lemma does_calls_nil {A} (m : M A) (r : Result A) :
  does m no_effect r -> does m (calls_effect []) r.
Proof. exact (fun H => H). Qed.

Lemma validList_cons (w : World) (settings : Settings) (awb : string) (rest : list string) :
  validList w settings (awb :: rest)
  = if valid (windowVerdict w settings awb)
    then windowVerdict w settings awb :: validList w settings rest
    else validList w settings rest.
Proof. reflexivity. Qed.

Lemma invalidList_cons (w : World) (settings : Settings) (awb : string) (rest : list string) :
  invalidList w settings (awb :: rest)
  = if valid (windowVerdict w settings awb)
    then invalidList w settings rest
    else windowVerdict w settings awb :: invalidList w settings rest.
Proof.
  unfold invalidList. simpl. now destruct (valid (windowVerdict w settings awb)).
Qed.

(** The first pass looks up every listed number, in listing order, and sorts
    the verdicts into the valid and the invalid ones, keeping that order. *)
Lemma validationLoop_does (w : World) (settings : Settings) (awbNumbers : list string) :
  forall validShipments invalidShipments,
  exists cs,
    does (Window.validationLoop w settings awbNumbers validShipments invalidShipments)
         (calls_effect cs)
         (Ok ((validShipments ++ validList w settings awbNumbers)%list,
              (invalidShipments ++ invalidList w settings awbNumbers)%list))
    /\ lookups cs = awbNumbers /\ submissions cs = [] /\ mails cs = [].
Proof.
  induction awbNumbers as [|awb rest IH]; intros V I.
  - exists []. split; [|now repeat split].
    apply does_calls_nil. simpl. unfold validList, invalidList. simpl.
    rewrite !app_nil_r. apply does_ret.
  - destruct (window_validate_does w awb settings) as [cs1 [H1 [L1 [S1 M1]]]].
    set (v := windowVerdict w settings awb) in *.
    set (acc := if valid v then ((V ++ [v])%list, I) else (V, (I ++ [v])%list)).
    destruct (IH (fst acc) (snd acc)) as [cs2 [H2 [L2 [S2 M2]]]].
    exists (cs1 ++ cs2)%list. split.
    + apply does_calls_seq. simpl.
      replace ((V ++ validList w settings (awb :: rest))%list,
               (I ++ invalidList w settings (awb :: rest))%list)
        with ((fst acc ++ validList w settings rest)%list,
              (snd acc ++ invalidList w settings rest)%list).
      * eapply does_bind; [|exact H2].
        apply does_catch_ok.
        eapply does_bind_pure; [exact H1|].
        fold v. unfold acc. destruct (valid v); apply does_ret.
      * rewrite validList_cons, invalidList_cons. fold v. unfold acc.
        destruct (valid v); simpl; now rewrite <- app_assoc.
    + rewrite lookups_app, submissions_app, mails_app, L1, L2, S1, S2, M1, M2.
      now repeat split.
Qed.

(* ================================================================== *)
(** * The result store *)

Lemma keys_upsert (r : Row) (t : list Row) :
  keys (upsert r t)
  = if existsb (String.eqb (shipment_id r)) (keys t) then keys t
    else (keys t ++ [shipment_id r])%list.
Proof.
  induction t as [|x t IH]; simpl; [reflexivity|].
  rewrite (String.eqb_sym (shipment_id r) (shipment_id x)).
  destruct (String.eqb (shipment_id x) (shipment_id r)) eqn:E; simpl; [reflexivity|].
  rewrite IH. now destruct (existsb _ (keys t)).
Qed.

Lemma upsert_keeps_rows (r : Row) : keeps_rows (upsert r).
Proof.
  intros t. rewrite keys_upsert.
  destruct (existsb _ (keys t)); [apply incl_refl | apply incl_appl, incl_refl].
Qed.

Lemma keeps_rows_id : keeps_rows (fun t => t).
Proof. intros t. apply incl_refl. Qed.

Lemma keeps_rows_compose (f g : list Row -> list Row) :
  keeps_rows f -> keeps_rows g -> keeps_rows (fun t => g (f t)).
Proof.
  intros Hf Hg t. eapply incl_tran; [apply Hf | apply Hg].
Qed.

Lemma upsert_NoDup (r : Row) (t : list Row) :
  NoDup (keys t) -> NoDup (keys (upsert r t)).
Proof.
  intros Hnd. rewrite keys_upsert.
  destruct (existsb (String.eqb (shipment_id r)) (keys t)) eqn:E; [assumption|].
  apply NoDup_app; [assumption | repeat constructor; intros [] |].
  intros a Ha [Hb|[]]. subst a.
  assert (existsb (String.eqb (shipment_id r)) (keys t) = true).
  { apply existsb_exists. exists (shipment_id r). split; [assumption | apply String.eqb_refl]. }
  congruence.
Qed.

(** After an upsert the rows of the written id are the written row alone,
    provided the table had at most one row per id. *)
Lemma rows_of_upsert_same (r : Row) (t : list Row) :
  NoDup (keys t) -> rows_of (shipment_id r) (upsert r t) = [r].
Proof.
  induction t as [|x t IH]; intros Hnd; simpl.
  - unfold rows_of. simpl. now rewrite String.eqb_refl.
  - inversion Hnd as [|k ks Hnotin Hnd']; subst.
    destruct (String.eqb (shipment_id x) (shipment_id r)) eqn:E.
    + apply String.eqb_eq in E. unfold rows_of. simpl. rewrite E, String.eqb_refl.
      f_equal; [now destruct r|].
      rewrite E in Hnotin. clear - Hnotin.
      induction t as [|y t IH]; simpl; [reflexivity|].
      destruct (String.eqb (shipment_id y) (shipment_id r)) eqn:Ey.
      * apply String.eqb_eq in Ey. exfalso. apply Hnotin. simpl. now left.
      * apply IH. intros Hin. apply Hnotin. simpl. now right.
    + unfold rows_of in *. simpl. rewrite E. now apply IH.
Qed.

(** The rows of every other id are left as they were. *)
Lemma rows_of_upsert_other (r : Row) (t : list Row) (id : string) :
  id <> shipment_id r -> rows_of id (upsert r t) = rows_of id t.
Proof.
  intros Hne. induction t as [|x t IH]; simpl.
  - unfold rows_of. simpl.
    destruct (String.eqb (shipment_id r) id) eqn:E; [|reflexivity].
    apply String.eqb_eq in E. congruence.
  - destruct (String.eqb (shipment_id x) (shipment_id r)) eqn:E.
    + apply String.eqb_eq in E. unfold rows_of. simpl.
      destruct (String.eqb (shipment_id x) id) eqn:Ex; [|reflexivity].
      apply String.eqb_eq in Ex. congruence.
    + unfold rows_of in *. simpl. now rewrite IH.
Qed.

(* ================================================================== *)
(** * Processing one validated shipment *)


(** The five ways the processing of a valid shipment ends. *)
Lemma processValidated_cases (w : World) (awb : string) (sd : ShipmentDetails)
    (ci : CustomerInfo) (settings : Settings) :
  let m := Window.processValidatedShipment w (Valid awb sd ci) settings in
  let row r := rowFor awb (company_name ci) (Destination_Country sd) r in
  match covrzy w (Window.payloadOf sd (lex_customer w (Customer_ID sd))) with
  | None => does m (calls_effect (processCalls w sd)) (Throw CovrzyRequestFailed)
  | Some NullAnswer => does m (calls_effect (processCalls w sd)) (Throw TypeError)
  | Some (Answer r) =>
      if isSuccessful r
      then if db_accepts w (row r)
           then does m (mkEffect (upsert (row r)) [] (processCalls w sd))
                       (Ok (mkProcessResult r true None))
           else does m (calls_effect (processCalls w sd)) (Throw DatabaseFailure)
      else does m (calls_effect (processCalls w sd))
                  (Ok (mkProcessResult r false (Some "Coverzy API response not successful")))
  end.
Proof.
  intros m row. subst m row.
  unfold Window.processValidatedShipment, Window.submitAndSave,
    Window.mapShipmentDetailsToPayload, getCustomerDetails, sendToCovrzyAPI, propertiesOf,
    saveShipmentToDatabase, rowFor, processCalls.
  destruct (covrzy w _) as [[|r]|] eqn:Hr.
  - intros st. unfold catch, bind, call, ret, throw; simpl. rewrite Hr.
    unfold apply_effect. simpl. now rewrite app_nil_r, <- app_assoc.
  - destruct (isSuccessful r) eqn:Hs.
    + destruct (db_accepts w _) eqn:Hdb; intros st;
        unfold catch, bind, call, ret, throw; simpl; rewrite Hr; simpl; rewrite Hs; simpl;
        rewrite Hdb; unfold apply_effect; simpl; now rewrite app_nil_r, <- app_assoc.
    + intros st. unfold catch, bind, call, ret, throw; simpl. rewrite Hr. simpl. rewrite Hs.
      unfold apply_effect. simpl. now rewrite app_nil_r, <- app_assoc.
  - intros st. unfold catch, bind, call, ret, throw; simpl. rewrite Hr.
    unfold apply_effect. simpl. now rewrite app_nil_r, <- app_assoc.
Qed.

(** In every case: a step of the second pass makes exactly one submission, no
    lookup and no mail, logs nothing and keeps the rows of the table. *)
Lemma processValidated_does (w : World) (awb : string) (sd : ShipmentDetails)
    (ci : CustomerInfo) (settings : Settings) :
  exists e r,
    does (Window.processValidatedShipment w (Valid awb sd ci) settings) e r
    /\ keeps_rows (on_rows e) /\ new_logs e = []
    /\ new_calls e = processCalls w sd.
Proof.
  pose proof (processValidated_cases w awb sd ci settings) as H. simpl in H.
  destruct (covrzy w _) as [[|r]|].
  - eexists _, _. split; [exact H|]. repeat split. apply keeps_rows_id.
  - destruct (isSuccessful r).
    + destruct (db_accepts w _).
      * eexists _, _. split; [exact H|]. repeat split. apply upsert_keeps_rows.
      * eexists _, _. split; [exact H|]. repeat split. apply keeps_rows_id.
    + eexists _, _. split; [exact H|]. repeat split. apply keeps_rows_id.
  - eexists _, _. split; [exact H|]. repeat split. apply keeps_rows_id.
Qed.

(** The second pass over a list of valid shipments: it returns, each shipment
    is submitted once and in order, whatever the answers are, and each ends
    either in the results or in the processing errors. *)
Lemma processingLoop_does (w : World) (settings : Settings) (vs : list ValidationResult) :
  Forall (fun v => valid v = true) vs ->
  forall results processingErrors,
  exists e R E,
    does (Window.processingLoop w settings vs results processingErrors) e
         (Ok ((results ++ R)%list, (processingErrors ++ E)%list))
    /\ keeps_rows (on_rows e) /\ new_logs e = []
    /\ lookups (new_calls e) = []
    /\ submissions (new_calls e) = flat_map (payloadFor w) vs
    /\ mails (new_calls e) = []
    /\ incl (map fst E) (map vr_awb vs)
    /\ incl (map fst R) (map vr_awb vs)
    /\ (List.length R + List.length E = List.length vs)%nat.
Proof.
  induction 1 as [|v vs Hv Hvs IH]; intros R0 E0.
  - exists no_effect, [], []. rewrite !app_nil_r. simpl.
    split; [apply does_ret|]. repeat split; try apply incl_refl. apply keeps_rows_id.
  - destruct v as [awb sd ci|]; [|discriminate].
    destruct (processValidated_does w awb sd ci settings) as [e1 [r1 [H1 [K1 [L1 C1]]]]].
    assert (Hstep : exists R1 E1,
      does (catch
              (bind (Window.processValidatedShipment w (Valid awb sd ci) settings)
                 (fun result => ret ((R0 ++ [(vr_awb (Valid awb sd ci), result)])%list, E0)))
              (fun error => ret (R0, (E0 ++ [(vr_awb (Valid awb sd ci), error)])%list)))
           e1 (Ok ((R0 ++ R1)%list, (E0 ++ E1)%list))
      /\ incl (map fst R1) [awb] /\ incl (map fst E1) [awb]
      /\ (List.length R1 + List.length E1 = 1)%nat).
    { destruct r1 as [pr|x].
      - exists [(awb, pr)], []. rewrite app_nil_r. split; [|repeat split].
        + apply does_catch_ok. eapply does_bind_pure; [exact H1 | apply does_ret].
        + apply incl_refl.
        + apply incl_nil_l.
      - exists [], [(awb, x)]. rewrite app_nil_r. split; [|repeat split].
        + eapply does_catch_pure; [apply does_bind_throw; exact H1 | apply does_ret].
        + apply incl_nil_l.
        + apply incl_refl. }
    destruct Hstep as [R1 [E1 [Hs [IR1 [IE1 Len1]]]]].
    destruct (IH (R0 ++ R1)%list (E0 ++ E1)%list)
      as [e2 [R2 [E2 [H2 [K2 [L2 [Lk2 [S2 [M2 [IE2 [IR2 Len2]]]]]]]]]]].
    exists (seq_effect e1 e2), (R1 ++ R2)%list, (E1 ++ E2)%list.
    split.
    + rewrite !app_assoc. simpl. eapply does_bind; [exact Hs | exact H2].
    + simpl. rewrite L1, L2, lookups_app, submissions_app, mails_app, C1, Lk2, S2, M2.
      rewrite !map_app, !length_app.
      repeat split.
      * now apply keeps_rows_compose.
      * apply incl_app; [eapply incl_tran; [exact IE1 | apply incl_cons; [now left | apply incl_nil_l]]
                        | now apply incl_tl].
      * apply incl_app; [eapply incl_tran; [exact IR1 | apply incl_cons; [now left | apply incl_nil_l]]
                        | now apply incl_tl].
      * lia.
Qed.

(* ================================================================== *)
(** * The scheduled two-phase run *)

Lemma Forall_firstn {A} (P : A -> Prop) (n : nat) (l : list A) :
  Forall P l -> Forall P (firstn n l).
Proof.
  intros H. rewrite <- (firstn_skipn n l) in H. now apply Forall_app in H.
Qed.

Lemma slice0_nonneg {A} (l : list A) (n : Z) :
  0 <= n -> Js.slice0 l n = firstn (Nat.min (Z.to_nat n) (List.length l)) l.
Proof.
  intros Hn. unfold Js.slice0.
  destruct (Z.ltb_spec n 0); [lia|].
  f_equal. rewrite Z2Nat.inj_min, Nat2Z.id. reflexivity.
Qed.

Lemma firstn_min_length {A} (n : nat) (l : list A) :
  firstn (Nat.min n (List.length l)) l = firstn n l.
Proof.
  destruct (Nat.le_ge_cases n (List.length l)) as [H|H].
  - now rewrite Nat.min_l.
  - rewrite Nat.min_r by assumption. now rewrite firstn_all, firstn_all2.
Qed.

Example slice0_readings :
  Js.slice0 [1; 2; 3] 2 = [1; 2]
  /\ Js.slice0 [1; 2; 3] 5 = [1; 2; 3]
  /\ Js.slice0 [1; 2; 3] 0 = []
  /\ Js.slice0 [1; 2; 3] (-1) = [1; 2].
Proof. repeat split. Qed.

Lemma slice0_valid (w : World) (settings : Settings) (awbNumbers : list string) (n : Z) :
  Forall (fun v => valid v = true) (Js.slice0 (validList w settings awbNumbers) n).
Proof.
  unfold Js.slice0. apply Forall_firstn. apply Forall_forall.
  intros v Hv. unfold validList in Hv. now apply filter_In in Hv.
Qed.

Lemma or_else_same (s : string) : Js.or_else (Some s) s = s.
Proof. unfold Js.or_else. now destruct (String.eqb s ""). Qed.

(** The run after a non-empty listing: every listed number is looked up, the
    capped valid shipments are submitted in order, and nothing else is. *)
Lemma validateThenProcess_does (w : World) (settings : Settings) (awbNumbers : list string) :
  awbNumbers <> [] ->
  exists e R E,
    does (Window.validateThenProcess w settings awbNumbers) e
         (Ok (mkRunResult R
                (Window.invalidErrors (invalidList w settings awbNumbers) ++ E)%list
                (List.length awbNumbers)
                (Some (List.length (Js.slice0 (validList w settings awbNumbers)
                                      (maxShipments settings))))
                (Some (List.length (validList w settings awbNumbers)))))
    /\ keeps_rows (on_rows e) /\ new_logs e = []
    /\ lookups (new_calls e) = awbNumbers
    /\ submissions (new_calls e)
       = flat_map (payloadFor w)
           (Js.slice0 (validList w settings awbNumbers) (maxShipments settings))
    /\ mails (new_calls e)
       = summaryMails w (List.length awbNumbers)
           (List.length (validList w settings awbNumbers))
           (List.length (Js.slice0 (validList w settings awbNumbers) (maxShipments settings)))
           (List.length R)
           (List.length (invalidList w settings awbNumbers))
           (List.length E)
    /\ incl (map fst E)
            (map vr_awb (Js.slice0 (validList w settings awbNumbers) (maxShipments settings)))
    /\ incl (map fst R)
            (map vr_awb (Js.slice0 (validList w settings awbNumbers) (maxShipments settings)))
    /\ (List.length R + List.length E
        = List.length (Js.slice0 (validList w settings awbNumbers) (maxShipments settings)))%nat.
Proof.
  intros Hne.
  set (vl := validList w settings awbNumbers).
  set (il := invalidList w settings awbNumbers).
  set (capped := Js.slice0 vl (maxShipments settings)).
  unfold Window.validateThenProcess.
  destruct awbNumbers as [|a0 rest]; [contradiction|].
  change (Nat.eqb (List.length (a0 :: rest)) 0) with false. cbv iota.
  destruct (validationLoop_does w settings (a0 :: rest) [] []) as [cs [Hv [L [S M]]]].
  simpl app in Hv. fold vl il in Hv.
  destruct (Nat.eqb (List.length vl) 0) eqn:Hlen.
  - assert (Hvl : vl = []) by (apply Nat.eqb_eq in Hlen; now destruct vl).
    assert (Hc : capped = []).
    { unfold capped, Js.slice0. rewrite Hvl. apply firstn_nil. }
    exists (calls_effect cs), [], []. rewrite app_nil_r, Hc.
    split.
    + eapply does_bind_pure; [exact Hv|]. cbv zeta. simpl fst. simpl snd.
      rewrite Hlen, Hvl. apply does_ret.
    + simpl. rewrite L, S, M. repeat split; try apply incl_refl. apply keeps_rows_id.
  - destruct (processingLoop_does w settings capped (slice0_valid w settings _ _) [] [])
      as [e2 [R [E [H2 [K2 [L2 [Lk2 [S2 [M2 [IE [IR Len]]]]]]]]]]].
    simpl app in H2.
    set (mail := summaryMails w (List.length (a0 :: rest)) (List.length vl) (List.length capped)
                   (List.length R) (List.length il) (List.length E)).
    exists (seq_effect (calls_effect cs) (seq_effect e2 (calls_effect mail))), R, E.
    split.
    + eapply does_bind; [exact Hv|]. cbv zeta. simpl fst. simpl snd. rewrite Hlen.
      fold capped. eapply does_bind; [exact H2|]. simpl fst. simpl snd.
      unfold mail, summaryMails.
      destruct (PrimFloat.leb 80 (successRate (List.length R) (List.length capped))).
      * eapply does_bind_pure; [apply sendDailySummaryEmail_does | apply does_ret].
      * eapply does_bind_pure; [apply does_ret | apply does_ret].
    + simpl. rewrite L2, !lookups_app, !submissions_app, !mails_app, L, S, M, Lk2, S2, M2.
      simpl. rewrite ?app_nil_r.
      assert (Hmail : mails mail = mail /\ lookups mail = [] /\ submissions mail = []).
      { unfold mail, summaryMails. destruct (PrimFloat.leb 80 _); [|now repeat split].
        destruct (deliveries_calls w (DailySummary
                    (mkSummary (List.length (a0 :: rest)) (List.length vl)
                       (List.length capped) (List.length R) (List.length il)
                       (List.length E)))) as [Dm [Dl Ds]].
        cbn [mails lookups submissions filter flat_map app].
        fold (mails (deliveries w (DailySummary
                    (mkSummary (List.length (a0 :: rest)) (List.length vl)
                       (List.length capped) (List.length R) (List.length il)
                       (List.length E))))).
        fold (lookups (deliveries w (DailySummary
                    (mkSummary (List.length (a0 :: rest)) (List.length vl)
                       (List.length capped) (List.length R) (List.length il)
                       (List.length E))))).
        fold (submissions (deliveries w (DailySummary
                    (mkSummary (List.length (a0 :: rest)) (List.length vl)
                       (List.length capped) (List.length R) (List.length il)
                       (List.length E))))).
        now rewrite Dm, Dl, Ds. }
      destruct Hmail as [Hm [Hl Hs]].
      rewrite Hm, Hl, Hs, !app_nil_r.
      repeat split; try assumption.
Qed.

(** With settings and a listing at hand, the scheduled run is the listing
    call followed by the two phases. *)
Lemma scheduled_run_does (w : World) (y ym t : string) (settings : Settings)
    (items : list (option string)) (awbNumbers : list string) (e : Effect) (r : RunResult) :
  settings_row w = Some settings ->
  lex_daily w y y = Some items ->
  truthy_strings items = awbNumbers ->
  does (Window.validateThenProcess w settings awbNumbers) e (Ok r) ->
  does (Window.processPreviousDayShipments w y ym t)
       (seq_effect (calls_effect [PostDailyShipments y y]) e) (Ok r).
Proof.
  intros Hs Hl <- Hbody st.
  unfold Window.processPreviousDayShipments, getCoverzySettings, getDailyShipmentsData.
  rewrite Hs, or_else_same, Hl.
  unfold catch at 1. unfold bind at 1. unfold ret at 1.
  unfold bind at 1. unfold catch at 1. unfold bind at 1. unfold call at 1. unfold ret at 1.
  rewrite Hbody. unfold apply_effect. simpl. now rewrite <- !app_assoc.
Qed.

Lemma payloadFor_length (w : World) (vs : list ValidationResult) :
  Forall (fun v => valid v = true) vs ->
  List.length (flat_map (payloadFor w) vs) = List.length vs.
Proof.
  induction 1 as [|v vs Hv _ IH]; [reflexivity|].
  destruct v; [|discriminate]. simpl. now rewrite IH.
Qed.

(** C3. In the scheduled run, with settings loaded, a listing received and a
    cap [maxShipments] that is not negative: the run returns; every listed
    number is looked up for validation, in listing order, whatever the cap is;
    the payloads submitted are those of the first [min (maxShipments, number
    of valid shipments)] valid shipments, in listing order, one each; the
    other valid shipments are not submitted, and no error-log row is written;
    every entry of the returned error list is an invalid shipment or a capped
    shipment whose processing failed. *)
Theorem scheduled_run_caps_valid_list (w : World) (y ym t : string) (settings : Settings)
    (items : list (option string)) (st : State) :
  settings_row w = Some settings ->
  lex_daily w y y = Some items ->
  0 <= maxShipments settings ->
  let awbNumbers := truthy_strings items in
  let vl := validList w settings awbNumbers in
  let n := Nat.min (Z.to_nat (maxShipments settings)) (List.length vl) in
  exists st' r E,
    Window.processPreviousDayShipments w y ym t st = (st', Ok r)
    /\ lookups (calls st') = (lookups (calls st) ++ awbNumbers)%list
    /\ submissions (calls st')
       = (submissions (calls st) ++ flat_map (payloadFor w) (firstn n vl))%list
    /\ List.length (flat_map (payloadFor w) (firstn n vl)) = n
    /\ cron_error_logs st' = cron_error_logs st
    /\ errors r = (Window.invalidErrors (invalidList w settings awbNumbers) ++ E)%list
    /\ incl (map fst E) (map vr_awb (firstn n vl))
    /\ incl (map fst (results r)) (map vr_awb (firstn n vl))
    /\ (List.length (results r) + List.length E = n)%nat
    /\ (awbNumbers <> [] ->
        total r = List.length awbNumbers
        /\ validFound r = Some (List.length vl)
        /\ processed r = Some n).
Proof.
  intros Hs Hl Hn. cbv zeta.
  remember (truthy_strings items) as awbNumbers eqn:Hawbs. symmetry in Hawbs.
  set (vl := validList w settings awbNumbers).
  set (n := Nat.min (Z.to_nat (maxShipments settings)) (List.length vl)).
  assert (Hcap : Js.slice0 vl (maxShipments settings) = firstn n vl)
    by (apply slice0_nonneg; assumption).
  assert (Hlen : List.length (firstn n vl) = n).
  { unfold n. rewrite length_firstn. lia. }
  assert (Hpl : List.length (flat_map (payloadFor w) (firstn n vl)) = n).
  { rewrite payloadFor_length; [assumption|].
    rewrite <- Hcap. apply slice0_valid. }
  destruct awbNumbers as [|a0 rest].
  - (* nothing listed: the early return *)
    assert (Hvl : vl = []) by reflexivity.
    assert (Hn0 : n = 0%nat) by (unfold n; rewrite Hvl; simpl; lia).
    pose proof (scheduled_run_does w y ym t settings items [] no_effect
                  (mkRunResult [] [] 0 None None) Hs Hl Hawbs (does_ret _) st) as Hrun.
    eexists _, _, []. split; [exact Hrun|].
    unfold apply_effect. simpl. rewrite lookups_app, submissions_app, Hn0. simpl.
    repeat split; try apply incl_refl; try congruence. now rewrite app_nil_r.
  - destruct (validateThenProcess_does w settings (a0 :: rest))
      as [e [R [E [Hbody [K [Lg [Lk [Sb [Ml [IE [IR Len]]]]]]]]]]]; [discriminate|].
    pose proof (scheduled_run_does w y ym t settings items (a0 :: rest) e _
                  Hs Hl Hawbs Hbody st) as Hrun.
    fold vl in Sb, IE, IR, Len, Hrun. rewrite Hcap in Sb, IE, IR, Len, Hrun.
    eexists _, _, E. split; [exact Hrun|].
    unfold apply_effect. simpl.
    rewrite lookups_app, submissions_app. simpl. rewrite Lg, Lk, Sb, Hlen, app_nil_r.
    repeat split; try assumption. congruence.
Qed.

(** The theorem at the sample world with the cap 1 and the listing
    AWB1, AWB2, AWB3: all three are looked up, one payload is submitted. *)
Lemma scheduled_run_caps_valid_list_witness :
  let w := Sample.sampleWorld 1 ["AWB1"; "AWB2"; "AWB3"] in
  let vl := validList w (Sample.sampleSettings 1) ["AWB1"; "AWB2"; "AWB3"] in
  exists st' r E,
    Window.processPreviousDayShipments w "30-04-2024" "2024-04-30" "2024-05-01"
      Sample.emptyState = (st', Ok r)
    /\ lookups (calls st') = ["AWB1"; "AWB2"; "AWB3"]
    /\ submissions (calls st') = flat_map (payloadFor w) (firstn 1 vl)
    /\ List.length (flat_map (payloadFor w) (firstn 1 vl)) = 1%nat
    /\ cron_error_logs st' = []
    /\ errors r
       = (Window.invalidErrors
            (invalidList w (Sample.sampleSettings 1) ["AWB1"; "AWB2"; "AWB3"]) ++ E)%list
    /\ incl (map fst E) (map vr_awb (firstn 1 vl))
    /\ incl (map fst (results r)) (map vr_awb (firstn 1 vl))
    /\ (List.length (results r) + List.length E = 1)%nat
    /\ (["AWB1"; "AWB2"; "AWB3"] <> [] ->
        total r = 3%nat
        /\ validFound r = Some (List.length vl)
        /\ processed r = Some 1%nat).
Proof.
  exact (scheduled_run_caps_valid_list
           (Sample.sampleWorld 1 ["AWB1"; "AWB2"; "AWB3"])
           "30-04-2024" "2024-04-30" "2024-05-01" (Sample.sampleSettings 1)
           (map Some ["AWB1"; "AWB2"; "AWB3"]) Sample.emptyState
           eq_refl eq_refl (Z.le_0_1)).
Defined.

(** The end-to-end scenario of the spec, cap 2: AWB1 and AWB3 are valid and
    both are processed, AWB2 is refused for its destination. Both processed
    shipments count as results, so the rate is 100: the mailer is called and
    hands one summary mail for the two administrators to the transport. *)
Example scheduled_run_scenario :
  let w := Sample.sampleWorld 2 ["AWB1"; "AWB2"; "AWB3"] in
  let out := Window.processPreviousDayShipments w "30-04-2024" "2024-04-30" "2024-05-01"
               Sample.emptyState in
  map vr_awb (validList w (Sample.sampleSettings 2) ["AWB1"; "AWB2"; "AWB3"])
  = ["AWB1"; "AWB3"]
  /\ (exists r, snd out = Ok r
        /\ map fst (results r) = ["AWB1"; "AWB3"]
        /\ map (fun x => savedToDatabase (snd x)) (results r) = [true; false]
        /\ errors r = [("AWB2", DestinationNotAllowed "FR" ["US"; "GB"])]
        /\ processed r = Some 2%nat /\ validFound r = Some 2%nat /\ total r = 3%nat)
  /\ keys (coverzy_shipments (fst out)) = ["AWB1"]
  /\ lookups (calls (fst out)) = ["AWB1"; "AWB2"; "AWB3"]
  /\ List.length (submissions (calls (fst out))) = 2%nat
  /\ mails (calls (fst out))
     = [DailySummaryEmail (mkSummary 3 2 2 2 1 0);
        SendMail "ops@lex.example,it@lex.example" (DailySummary (mkSummary 3 2 2 2 1 0))].
Proof.
  cbv zeta. split; [reflexivity|]. split; [|repeat split].
  eexists. split; [vm_compute; reflexivity|]. repeat split.
Qed.

(* ================================================================== *)
(** * The run when the cap leaves nothing to process *)

Lemma slice0_zero {A} (l : list A) : Js.slice0 l 0 = [].
Proof. unfold Js.slice0. simpl. now destruct l. Qed.

(** With no shipments to process the rate is 0 by the guard of the source,
    not by a division, and 0 is below the 80 that a summary mail needs. *)
Lemma successRate_nothing (ok : nat) :
  successRate ok 0 = 0%float /\ PrimFloat.leb 80 (successRate ok 0) = false.
Proof. split; reflexivity. Qed.

Lemma validateThenProcess_empty_cap (w : World) (settings : Settings)
    (awbNumbers : list string) :
  awbNumbers <> [] ->
  Js.slice0 (validList w settings awbNumbers) (maxShipments settings) = [] ->
  exists cs,
    does (Window.validateThenProcess w settings awbNumbers) (calls_effect cs)
         (Ok (mkRunResult [] (Window.invalidErrors (invalidList w settings awbNumbers))
                (List.length awbNumbers) (Some 0%nat)
                (Some (List.length (validList w settings awbNumbers)))))
    /\ lookups cs = awbNumbers /\ submissions cs = [] /\ mails cs = [].
Proof.
  intros Hne Hcap.
  unfold Window.validateThenProcess.
  destruct awbNumbers as [|a0 rest]; [contradiction|].
  change (Nat.eqb (List.length (a0 :: rest)) 0) with false. cbv iota.
  destruct (validationLoop_does w settings (a0 :: rest) [] []) as [cs [Hv [L [S M]]]].
  simpl app in Hv.
  exists cs. split; [|now repeat split].
  eapply does_bind_pure; [exact Hv|]. cbv zeta. simpl fst. simpl snd.
  destruct (Nat.eqb (List.length (validList w settings (a0 :: rest))) 0) eqn:Hlen.
  - apply Nat.eqb_eq in Hlen. rewrite Hlen. apply does_ret.
  - rewrite Hcap. simpl Window.processingLoop.
    eapply does_bind_pure; [apply does_ret|]. simpl fst. simpl snd.
    change (PrimFloat.leb 80 (successRate (List.length (@nil (string * ProcessResult)))
                                (List.length (@nil ValidationResult)))) with false.
    cbv iota. rewrite app_nil_r.
    eapply does_bind_pure; [apply does_ret | apply does_ret].
Qed.

(** C10. In the scheduled run, with settings loaded and a non-empty listing
    received, when the capped list of valid shipments is empty (as with
    [maxShipments = 0]): the run returns with [processed = 0] and no results;
    the success rate is the constant 0 of the guard, so nothing is divided by
    zero; no payload is submitted, the shipment table and the error log are
    left as they were, and no mail is sent. *)
Theorem scheduled_run_nothing_to_process (w : World) (y ym t : string)
    (settings : Settings) (items : list (option string)) (st : State) :
  settings_row w = Some settings ->
  lex_daily w y y = Some items ->
  truthy_strings items <> [] ->
  Js.slice0 (validList w settings (truthy_strings items)) (maxShipments settings) = [] ->
  exists st' r,
    Window.processPreviousDayShipments w y ym t st = (st', Ok r)
    /\ processed r = Some 0%nat
    /\ results r = []
    /\ successRate (List.length (results r)) 0 = 0%float
    /\ submissions (calls st') = submissions (calls st)
    /\ coverzy_shipments st' = coverzy_shipments st
    /\ cron_error_logs st' = cron_error_logs st
    /\ mails (calls st') = mails (calls st).
Proof.
  intros Hs Hl Hne Hcap.
  destruct (validateThenProcess_empty_cap w settings _ Hne Hcap) as [cs [Hbody [L [S M]]]].
  pose proof (scheduled_run_does w y ym t settings items _ _ _ Hs Hl eq_refl Hbody st) as Hrun.
  eexists _, _. split; [exact Hrun|].
  unfold apply_effect. simpl.
  rewrite submissions_app, mails_app. simpl. rewrite S, M, !app_nil_r.
  repeat split.
Qed.

(** The example of the spec: the sample world, where AWB1 and AWB3 are
    valid, with [maxShipments = 0]. *)
Lemma scheduled_run_nothing_to_process_witness :
  exists st' r,
    Window.processPreviousDayShipments (Sample.sampleWorld 0 ["AWB1"; "AWB2"; "AWB3"])
      "30-04-2024" "2024-04-30" "2024-05-01" Sample.emptyState = (st', Ok r)
    /\ processed r = Some 0%nat
    /\ results r = []
    /\ successRate (List.length (results r)) 0 = 0%float
    /\ submissions (calls st') = []
    /\ coverzy_shipments st' = []
    /\ cron_error_logs st' = []
    /\ mails (calls st') = [].
Proof.
  exact (scheduled_run_nothing_to_process
           (Sample.sampleWorld 0 ["AWB1"; "AWB2"; "AWB3"])
           "30-04-2024" "2024-04-30" "2024-05-01" (Sample.sampleSettings 0)
           (map Some ["AWB1"; "AWB2"; "AWB3"]) Sample.emptyState
           eq_refl eq_refl
           ltac:(discriminate)
           (slice0_zero _)).
Defined.

(* ================================================================== *)
(** * Persisting only what the underwriting API accepted *)




(* ================================================================== *)
(** * The upsert: one row per shipment id, the last write wins *)

Lemma saveShipmentToDatabase_ok (w : World) (awb : string) (sup dest : option string)
    (resp : CoverzyResponse) (st st' : State) :
  saveShipmentToDatabase w awb sup dest resp st = (st', Ok tt) ->
  coverzy_shipments st' = upsert (rowFor awb sup dest resp) (coverzy_shipments st).
Proof.
  unfold saveShipmentToDatabase, rowFor.
  destruct (db_accepts w _); intros H; [|discriminate].
  now injection H as <-.
Qed.

(** Whatever the scheduled run meets, every shipment id of the table is
    still there afterwards. *)
Lemma scheduled_run_keeps_rows (w : World) (y ym t : string) (st : State) :
  incl (keys (coverzy_shipments st))
       (keys (coverzy_shipments (fst (Window.processPreviousDayShipments w y ym t st)))).
Proof.
  destruct (settings_row w) as [settings|] eqn:Hs.
  2:{ unfold Window.processPreviousDayShipments, getCoverzySettings, logErrorToDatabase,
        sendCronErrorEmail. rewrite Hs.
      unfold catch, bind, call, ret, throw. simpl.
      destruct (errlog_accepts w); destruct (Mailer.send _ _); simpl; apply incl_refl. }
  destruct (lex_daily w y y) as [items|] eqn:Hl.
  2:{ unfold Window.processPreviousDayShipments, getCoverzySettings, getDailyShipmentsData,
        logErrorToDatabase, sendCronErrorEmail. rewrite Hs, or_else_same, Hl.
      unfold catch, bind, call, ret, throw. simpl.
      destruct (errlog_accepts w); destruct (Mailer.send _ _); simpl; apply incl_refl. }
  destruct (truthy_strings items) as [|a0 rest] eqn:Hawbs.
  - rewrite (scheduled_run_does w y ym t settings items [] no_effect
               (mkRunResult [] [] 0 None None) Hs Hl Hawbs (does_ret _) st).
    simpl. apply incl_refl.
  - destruct (validateThenProcess_does w settings (a0 :: rest))
      as [e [R [E [Hbody [K _]]]]]; [discriminate|].
    rewrite (scheduled_run_does w y ym t settings items (a0 :: rest) e _
               Hs Hl Hawbs Hbody st).
    simpl. apply K.
Qed.

(** C6. Two saves of the same shipment id, on a table with at most one row
    per id: afterwards the table has exactly one row of that id, and it holds
    the supplier, destination, policy id and amount of the second save, with
    the currency INR; the rows of other ids are untouched and no id is lost.
    And a scheduled run never removes a shipment id from the table. *)
Theorem saveShipmentToDatabase_last_write_wins (w : World) (awb : string)
    (sup1 dest1 sup2 dest2 : option string) (resp1 resp2 : CoverzyResponse)
    (st st1 st2 : State) :
  NoDup (keys (coverzy_shipments st)) ->
  saveShipmentToDatabase w awb sup1 dest1 resp1 st = (st1, Ok tt) ->
  saveShipmentToDatabase w awb sup2 dest2 resp2 st1 = (st2, Ok tt) ->
  rows_of awb (coverzy_shipments st2)
  = [mkRow awb sup2 dest2 (policyId resp2) (amount resp2) "INR" None]
  /\ NoDup (keys (coverzy_shipments st2))
  /\ (forall id, id <> awb ->
        rows_of id (coverzy_shipments st2) = rows_of id (coverzy_shipments st))
  /\ incl (keys (coverzy_shipments st)) (keys (coverzy_shipments st2))
  /\ (forall y ym t st0,
        incl (keys (coverzy_shipments st0))
             (keys (coverzy_shipments
                      (fst (Window.processPreviousDayShipments w y ym t st0))))).
Proof.
  intros Hnd H1 H2.
  apply saveShipmentToDatabase_ok in H1, H2.
  rewrite H2, H1.
  assert (Hnd1 : NoDup (keys (upsert (rowFor awb sup1 dest1 resp1) (coverzy_shipments st))))
    by now apply upsert_NoDup.
  split; [exact (rows_of_upsert_same (rowFor awb sup2 dest2 resp2) _ Hnd1)|].
  split; [now apply upsert_NoDup|].
  split.
  { intros id Hid.
    rewrite (rows_of_upsert_other (rowFor awb sup2 dest2 resp2)) by exact Hid.
    now rewrite (rows_of_upsert_other (rowFor awb sup1 dest1 resp1)) by exact Hid. }
  split; [|intros; apply scheduled_run_keeps_rows].
  eapply incl_tran; apply upsert_keeps_rows.
Qed.

(** Two saves of AWB1 into an empty table, with the amounts 250 and 300. *)
Lemma saveShipmentToDatabase_last_write_wins_witness :
  let w := Sample.sampleWorld 2 ["AWB1"] in
  let st1 := mkState [mkRow "AWB1" (Some "ACME Corp") (Some "US") (Some "POL-1") 250 "INR" None]
               [] [] in
  let st2 := mkState [mkRow "AWB1" (Some "ACME") (Some "GB") (Some "POL-2") 300 "INR" None]
               [] [] in
  rows_of "AWB1" (coverzy_shipments st2)
  = [mkRow "AWB1" (Some "ACME") (Some "GB") (Some "POL-2") 300 "INR" None]
  /\ NoDup (keys (coverzy_shipments st2))
  /\ (forall id, id <> "AWB1" -> rows_of id (coverzy_shipments st2) = rows_of id [])
  /\ incl (keys []) (keys (coverzy_shipments st2))
  /\ (forall y ym t st0,
        incl (keys (coverzy_shipments st0))
             (keys (coverzy_shipments
                      (fst (Window.processPreviousDayShipments w y ym t st0))))).
Proof.
  exact (saveShipmentToDatabase_last_write_wins
           (Sample.sampleWorld 2 ["AWB1"]) "AWB1"
           (Some "ACME Corp") (Some "US") (Some "ACME") (Some "GB")
           (mkResponse (Some "success") (Some "POL-1") 250)
           (mkResponse (Some "success") (Some "POL-2") 300)
           Sample.emptyState _ _ (NoDup_nil _) eq_refl eq_refl).
Defined.

(* ================================================================== *)
(** * The single-date run *)

(** The rules of [processShipment] are those of the validator: the check
    throws the reason of the verdict, or returns what a valid verdict holds. *)
Lemma window_check_does (w : World) (awb : string) (settings : Settings) :
  exists cs,
    does (Window.checkShipment w awb settings) (calls_effect cs)
         (match windowVerdict w settings awb with
          | Valid _ sd ci => Ok (sd, ci)
          | Invalid _ e => Throw e
          end)
    /\ lookups cs = [awb] /\ submissions cs = [] /\ mails cs = [].
Proof.
  destruct (window_validate_does w awb settings) as [cs [Hv [L [S M]]]].
  exists cs. split; [|now repeat split].
  intros st. specialize (Hv st).
  unfold Window.validateShipmentOnly, catch, bind, ret in Hv.
  destruct (Window.checkShipment w awb settings st) as [st1 [[sd ci]|e]];
    injection Hv as Hst Hr; rewrite <- Hr, Hst; reflexivity.
Qed.

Lemma does_catch_rethrow {A} (m : M A) e (r : Result A) :
  does m e r -> does (catch m (fun error => throw error)) e r.
Proof.
  intros Hm st. unfold catch, throw. rewrite Hm. now destruct r.
Qed.

Lemma submitAndSave_does (w : World) (awb : string) (sd : ShipmentDetails)
    (ci : CustomerInfo) :
  exists e r,
    does (Window.submitAndSave w awb sd ci) e r
    /\ keeps_rows (on_rows e) /\ new_logs e = []
    /\ new_calls e = processCalls w sd.
Proof.
  unfold Window.submitAndSave, Window.mapShipmentDetailsToPayload, getCustomerDetails,
    sendToCovrzyAPI, propertiesOf, saveShipmentToDatabase, processCalls.
  destruct (covrzy w (Window.payloadOf sd (lex_customer w (Customer_ID sd))))
    as [[|r]|] eqn:Hr.
  - exists (calls_effect (processCalls w sd)), (Throw TypeError).
    split; [|repeat split; apply keeps_rows_id].
    intros st. unfold bind, call, ret, throw. simpl. rewrite Hr.
    unfold apply_effect. simpl. now rewrite app_nil_r, <- app_assoc.
  - destruct (isSuccessful r) eqn:Hs.
    + destruct (db_accepts w (mkRow awb (company_name ci) (Destination_Country sd)
                                (policyId r) (amount r) "INR" None)) eqn:Hdb.
      * exists (mkEffect (upsert (mkRow awb (company_name ci) (Destination_Country sd)
                                    (policyId r) (amount r) "INR" None)) [] (processCalls w sd)),
               (Ok (mkProcessResult r true None)).
        split; [|repeat split; apply upsert_keeps_rows].
        intros st. unfold bind, call, ret, throw. simpl. rewrite Hr. simpl. rewrite Hs. simpl.
        rewrite Hdb. unfold apply_effect. simpl. now rewrite app_nil_r, <- app_assoc.
      * exists (calls_effect (processCalls w sd)), (Throw DatabaseFailure).
        split; [|repeat split; apply keeps_rows_id].
        intros st. unfold bind, call, ret, throw. simpl. rewrite Hr. simpl. rewrite Hs. simpl.
        rewrite Hdb. unfold apply_effect. simpl. now rewrite app_nil_r, <- app_assoc.
    + exists (calls_effect (processCalls w sd)),
             (Ok (mkProcessResult r false (Some "Coverzy API response not successful"))).
      split; [|repeat split; apply keeps_rows_id].
      intros st. unfold bind, call, ret, throw. simpl. rewrite Hr. simpl. rewrite Hs.
      unfold apply_effect. simpl. now rewrite app_nil_r, <- app_assoc.
  - exists (calls_effect (processCalls w sd)), (Throw CovrzyRequestFailed).
    split; [|repeat split; apply keeps_rows_id].
    intros st. unfold bind, call, ret, throw. simpl. rewrite Hr.
    unfold apply_effect. simpl. now rewrite app_nil_r, <- app_assoc.
Qed.

(** One step of the single-date run: the number is looked up, and its payload
    is submitted exactly when its verdict is valid. *)
Lemma processShipment_does (w : World) (awb : string) (settings : Settings) :
  exists e r,
    does (Window.processShipment w awb settings) e r
    /\ keeps_rows (on_rows e) /\ new_logs e = []
    /\ lookups (new_calls e) = [awb]
    /\ submissions (new_calls e) = payloadFor w (windowVerdict w settings awb).
Proof.
  destruct (window_check_does w awb settings) as [cs [Hc [L [S M]]]].
  unfold Window.processShipment.
  destruct (windowVerdict w settings awb) as [a sd ci|a x].
  - destruct (submitAndSave_does w awb sd ci) as [e2 [r [H2 [K2 [L2 C2]]]]].
    exists (seq_effect (calls_effect cs) e2), r.
    split; [apply does_catch_rethrow; eapply does_bind; [exact Hc | exact H2]|].
    simpl. rewrite lookups_app, submissions_app, L, S, L2, C2. simpl.
    repeat split. exact K2.
  - exists (calls_effect cs), (Throw x).
    split; [apply does_catch_rethrow, does_bind_throw; exact Hc|].
    simpl. rewrite L, S. repeat split. apply keeps_rows_id.
Qed.

Lemma processLoop_does (w : World) (settings : Settings) (awbNumbers : list string) :
  forall results errors,
  exists e acc,
    does (Window.processLoop w settings awbNumbers results errors) e (Ok acc)
    /\ keeps_rows (on_rows e) /\ new_logs e = []
    /\ lookups (new_calls e) = awbNumbers
    /\ submissions (new_calls e)
       = flat_map (fun a => payloadFor w (windowVerdict w settings a)) awbNumbers.
Proof.
  induction awbNumbers as [|awb rest IH]; intros R0 E0.
  - exists no_effect, (R0, E0). split; [apply does_ret|].
    repeat split. apply keeps_rows_id.
  - destruct (processShipment_does w awb settings) as [e1 [r1 [H1 [K1 [L1 [Lk1 S1]]]]]].
    assert (Hstep : exists acc,
      does (catch
              (bind (Window.processShipment w awb settings)
                 (fun result => ret ((R0 ++ [(awb, result)])%list, E0)))
              (fun error => ret (R0, (E0 ++ [(awb, error)])%list)))
           e1 (Ok acc)).
    { destruct r1 as [pr|x].
      - eexists. apply does_catch_ok. eapply does_bind_pure; [exact H1 | apply does_ret].
      - eexists. eapply does_catch_pure; [apply does_bind_throw; exact H1 | apply does_ret]. }
    destruct Hstep as [acc Hs].
    destruct (IH (fst acc) (snd acc)) as [e2 [acc2 [H2 [K2 [L2 [Lk2 S2]]]]]].
    exists (seq_effect e1 e2), acc2.
    split; [simpl; eapply does_bind; [exact Hs | exact H2]|].
    simpl. rewrite L1, L2, lookups_app, submissions_app, Lk1, Lk2, S1, S2.
    repeat split. now apply keeps_rows_compose.
Qed.

Lemma submissions_of_listing (w : World) (settings : Settings) (awbNumbers : list string) :
  flat_map (fun a => payloadFor w (windowVerdict w settings a)) awbNumbers
  = flat_map (payloadFor w) (validList w settings awbNumbers).
Proof.
  induction awbNumbers as [|a rest IH]; [reflexivity|].
  rewrite validList_cons. simpl. rewrite IH.
  now destruct (windowVerdict w settings a).
Qed.

(** The single-date run with settings and a listing at hand: only the first
    [maxShipments] listed numbers are looked up at all, and the payloads
    submitted are those of the valid shipments among them. *)
Lemma single_date_run_does (w : World) (today date : string) (settings : Settings)
    (items : list (option string)) (st : State) :
  settings_row w = Some settings ->
  lex_daily w date date = Some items ->
  let limited := Js.slice0 (truthy_strings items) (maxShipments settings) in
  exists st' r,
    Window.processShipmentsForDate w today date st = (st', Ok r)
    /\ lookups (calls st') = (lookups (calls st) ++ limited)%list
    /\ submissions (calls st')
       = (submissions (calls st) ++ flat_map (payloadFor w) (validList w settings limited))%list
    /\ processed r = Some (List.length limited)
    /\ incl (keys (coverzy_shipments st)) (keys (coverzy_shipments st')).
Proof.
  intros Hs Hl limited.
  unfold Window.processShipmentsForDate, getCoverzySettings, getDailyShipmentsData.
  rewrite Hs. simpl Js.or_else. rewrite Hl.
  unfold catch at 1. unfold bind at 1. unfold ret at 1.
  unfold bind at 1. unfold bind at 1. unfold call at 1. unfold ret at 1.
  destruct (truthy_strings items) as [|a0 rest] eqn:Hawbs.
  - simpl. eexists _, _. split; [reflexivity|]. simpl.
    assert (Hlim : limited = []) by (unfold limited, Js.slice0; apply firstn_nil).
    rewrite Hlim, lookups_app, submissions_app. simpl. rewrite !app_nil_r.
    repeat split. apply incl_refl.
  - change (Nat.eqb (List.length (a0 :: rest)) 0) with false. cbv iota.
    fold limited.
    destruct (processLoop_does w settings limited [] []) as [e [acc [Hd [K [L [Lk Sb]]]]]].
    unfold bind at 1. rewrite Hd. unfold ret at 1.
    eexists _, _. split; [reflexivity|].
    unfold apply_effect. simpl.
    rewrite !lookups_app, !submissions_app, Lk, Sb, submissions_of_listing. simpl.
    rewrite !app_nil_r.
    repeat split. apply K.
Qed.

Lemma filter_firstn_length {A} (f : A -> bool) (l : list A) :
  forall n, (List.length (filter f (firstn n l)) <= List.length (firstn n (filter f l)))%nat.
Proof.
  induction l as [|a l IH]; intros n.
  - rewrite firstn_nil. simpl. lia.
  - destruct n as [|n]; [simpl; lia|].
    rewrite firstn_cons. cbn [filter].
    destruct (f a).
    + rewrite firstn_cons. cbn [List.length]. specialize (IH n). lia.
    + specialize (IH n). rewrite length_firstn in *. lia.
Qed.

(** The calls of the scheduled run, whatever the cap is. *)
Lemma scheduled_run_calls (w : World) (y ym t : string) (settings : Settings)
    (items : list (option string)) (st : State) :
  settings_row w = Some settings ->
  lex_daily w y y = Some items ->
  exists st' r,
    Window.processPreviousDayShipments w y ym t st = (st', Ok r)
    /\ lookups (calls st') = (lookups (calls st) ++ truthy_strings items)%list
    /\ submissions (calls st')
       = (submissions (calls st)
          ++ flat_map (payloadFor w)
               (Js.slice0 (validList w settings (truthy_strings items))
                  (maxShipments settings)))%list.
Proof.
  intros Hs Hl.
  destruct (truthy_strings items) as [|a0 rest] eqn:Hawbs.
  - pose proof (scheduled_run_does w y ym t settings items [] no_effect
                  (mkRunResult [] [] 0 None None) Hs Hl Hawbs (does_ret _) st) as Hrun.
    eexists _, _. split; [exact Hrun|].
    unfold apply_effect. simpl. rewrite lookups_app, submissions_app.
    unfold validList, Js.slice0. simpl. rewrite firstn_nil. simpl.
    now rewrite !app_nil_r.
  - destruct (validateThenProcess_does w settings (a0 :: rest))
      as [e [R [E [Hbody [_ [_ [Lk [Sb _]]]]]]]]; [discriminate|].
    pose proof (scheduled_run_does w y ym t settings items (a0 :: rest) e _
                  Hs Hl Hawbs Hbody st) as Hrun.
    eexists _, _. split; [exact Hrun|].
    unfold apply_effect. simpl. rewrite lookups_app, submissions_app. simpl.
    now rewrite Lk, Sb.
Qed.

(** C4. The single-date run cuts the listing to [maxShipments] before it
    validates anything: it looks up only the first [maxShipments] listed
    numbers and submits the valid ones among them. The scheduled run looks up
    every listed number and submits the first [maxShipments] of the valid
    ones. So the single-date run never submits more, and there is a world,
    with an invalid shipment listed first and the cap 1, in which it submits
    strictly fewer: none, against one. *)
Theorem single_date_run_caps_before_validating :
  (forall w today date settings items st,
      settings_row w = Some settings ->
      lex_daily w date date = Some items ->
      let limited := Js.slice0 (truthy_strings items) (maxShipments settings) in
      exists st' r,
        Window.processShipmentsForDate w today date st = (st', Ok r)
        /\ lookups (calls st') = (lookups (calls st) ++ limited)%list
        /\ submissions (calls st')
           = (submissions (calls st)
              ++ flat_map (payloadFor w) (validList w settings limited))%list)
  /\ (forall w y ym t settings items st,
      settings_row w = Some settings ->
      lex_daily w y y = Some items ->
      exists st' r,
        Window.processPreviousDayShipments w y ym t st = (st', Ok r)
        /\ lookups (calls st') = (lookups (calls st) ++ truthy_strings items)%list
        /\ submissions (calls st')
           = (submissions (calls st)
              ++ flat_map (payloadFor w)
                   (Js.slice0 (validList w settings (truthy_strings items))
                      (maxShipments settings)))%list)
  /\ (forall w settings awbNumbers,
      0 <= maxShipments settings ->
      (List.length (flat_map (payloadFor w)
                      (validList w settings (Js.slice0 awbNumbers (maxShipments settings))))
       <= List.length (flat_map (payloadFor w)
                         (Js.slice0 (validList w settings awbNumbers)
                            (maxShipments settings))))%nat)
  /\ (let w := Sample.sampleWorld 1 ["AWB2"; "AWB1"; "AWB3"] in
      let adhoc := Window.processShipmentsForDate w "2024-05-01" "30-04-2024"
                     Sample.emptyState in
      let scheduled := Window.processPreviousDayShipments w "30-04-2024" "2024-04-30"
                         "2024-05-01" Sample.emptyState in
      lookups (calls (fst adhoc)) = ["AWB2"]
      /\ submissions (calls (fst adhoc)) = []
      /\ lookups (calls (fst scheduled)) = ["AWB2"; "AWB1"; "AWB3"]
      /\ map awb (submissions (calls (fst scheduled))) = [Some "AWB1"]
      /\ (List.length (submissions (calls (fst adhoc)))
          < List.length (submissions (calls (fst scheduled))))%nat).
Proof.
  split; [|split; [|split]].
  - intros w today date settings items st Hs Hl limited.
    destruct (single_date_run_does w today date settings items st Hs Hl)
      as [st' [r [Hrun [Lk [Sb _]]]]].
    exists st', r. repeat split; assumption.
  - intros w y ym t settings items st Hs Hl.
    exact (scheduled_run_calls w y ym t settings items st Hs Hl).
  - intros w settings awbNumbers Hn.
    rewrite !payloadFor_length.
    + rewrite !(slice0_nonneg _ _ Hn), !firstn_min_length.
      unfold validList. rewrite <- firstn_map. apply filter_firstn_length.
    + apply slice0_valid.
    + apply Forall_forall. intros v Hv. unfold validList in Hv. now apply filter_In in Hv.
  - cbv zeta. repeat split. vm_compute. lia.
Qed.

(** Both runs at the sample world with the cap 1 and AWB2 listed first. *)
Lemma single_date_run_caps_before_validating_witness :
  let w := Sample.sampleWorld 1 ["AWB2"; "AWB1"; "AWB3"] in
  (exists st' r,
      Window.processShipmentsForDate w "2024-05-01" "30-04-2024" Sample.emptyState
      = (st', Ok r)
      /\ lookups (calls st') = ["AWB2"]
      /\ submissions (calls st') = [])
  /\ (exists st' r,
      Window.processPreviousDayShipments w "30-04-2024" "2024-04-30" "2024-05-01"
        Sample.emptyState = (st', Ok r)
      /\ lookups (calls st') = ["AWB2"; "AWB1"; "AWB3"]
      /\ submissions (calls st')
         = flat_map (payloadFor w)
             (Js.slice0 (validList w (Sample.sampleSettings 1) ["AWB2"; "AWB1"; "AWB3"]) 1)).
Proof.
  split.
  - exact (proj1 single_date_run_caps_before_validating
             (Sample.sampleWorld 1 ["AWB2"; "AWB1"; "AWB3"]) "2024-05-01" "30-04-2024"
             (Sample.sampleSettings 1) (map Some ["AWB2"; "AWB1"; "AWB3"])
             Sample.emptyState eq_refl eq_refl).
  - exact (proj1 (proj2 single_date_run_caps_before_validating)
             (Sample.sampleWorld 1 ["AWB2"; "AWB1"; "AWB3"])
             "30-04-2024" "2024-04-30" "2024-05-01"
             (Sample.sampleSettings 1) (map Some ["AWB2"; "AWB1"; "AWB3"])
             Sample.emptyState eq_refl eq_refl).
Defined.

(* ================================================================== *)
(** * Texts: cutting, joining, trimming, letter case *)

Lemma append_nil_r (s : string) : s ++ "" = s.
Proof. induction s as [|c s IH]; simpl; [reflexivity | now rewrite IH]. Qed.

Lemma append_assoc (a b c : string) : (a ++ b) ++ c = a ++ (b ++ c).
Proof. induction a as [|x a IH]; simpl; [reflexivity | now rewrite IH]. Qed.

Lemma rev_string_acc (s acc : string) :
  Js.rev_string acc s = Js.rev_string "" s ++ acc.
Proof.
  revert acc. induction s as [|c s IH]; intros acc; simpl; [reflexivity|].
  rewrite (IH (String c acc)), (IH (String c "")), append_assoc. reflexivity.
Qed.

Lemma rev_string_snoc (s : string) (c : ascii) :
  Js.rev_string "" (s ++ String c "") = String c (Js.rev_string "" s).
Proof.
  induction s as [|x s IH]; simpl; [reflexivity|].
  rewrite (rev_string_acc (s ++ String c "")), IH, (rev_string_acc s (String x "")).
  reflexivity.
Qed.

Lemma rev_string_involutive (s : string) :
  Js.rev_string "" (Js.rev_string "" s) = s.
Proof.
  induction s as [|c s IH]; simpl; [reflexivity|].
  now rewrite (rev_string_acc s), rev_string_snoc, IH.
Qed.

Lemma trim_start_idem (s : string) : Js.trim_start (Js.trim_start s) = Js.trim_start s.
Proof.
  induction s as [|c s IH]; simpl; [reflexivity|].
  destruct (Js.is_space c) eqn:E; [exact IH|]. simpl. now rewrite E.
Qed.

(** Trimming the front of a text that ends in a visible character keeps that
    character at the end. *)
Lemma trim_start_snoc (s : string) (c : ascii) :
  Js.is_space c = false ->
  Js.trim_start (s ++ String c "") = Js.trim_start s ++ String c "".
Proof.
  intros Hc. induction s as [|x s IH]; simpl; [now rewrite Hc|].
  now destruct (Js.is_space x).
Qed.

(** A text whose front is trimmed stays so after its back is trimmed. *)
Lemma trim_back_keeps_front (t : string) :
  Js.trim_start t = t ->
  Js.trim_start (Js.rev_string "" (Js.trim_start (Js.rev_string "" t)))
  = Js.rev_string "" (Js.trim_start (Js.rev_string "" t)).
Proof.
  destruct t as [|c t]; [reflexivity|].
  intros Ht. simpl in Ht.
  destruct (Js.is_space c) eqn:Hc.
  - (* the front of a trimmed text cannot be a blank *)
    exfalso. assert (Hlen : (String.length (Js.trim_start t) <= String.length t)%nat).
    { clear. induction t as [|x t IH]; simpl; [lia|]. destruct (Js.is_space x); simpl; lia. }
    rewrite Ht in Hlen. simpl in Hlen. lia.
  - simpl. rewrite (rev_string_acc t), (trim_start_snoc _ _ Hc), rev_string_snoc.
    simpl. now rewrite Hc.
Qed.

Lemma trim_idem (s : string) : Js.trim (Js.trim s) = Js.trim s.
Proof.
  unfold Js.trim.
  rewrite (trim_back_keeps_front (Js.trim_start s) (trim_start_idem s)).
  now rewrite rev_string_involutive, trim_start_idem.
Qed.

(** The pieces of a cut text hold no separator, and joining them with the
    separator gives the text back. *)
Lemma split_pieces (sep : ascii) (s : string) :
  Forall (fun p => has_char sep p = false) (Js.split sep s)
  /\ String.concat (String sep "") (Js.split sep s) = s
  /\ Js.split sep s <> [].
Proof.
  induction s as [|c s [IHf [IHc IHn]]]; simpl.
  - repeat split; [repeat constructor | discriminate].
  - destruct (Ascii.eqb c sep) eqn:E.
    + apply Ascii.eqb_eq in E. subst c. repeat split; try discriminate.
      * constructor; [reflexivity | assumption].
      * destruct (Js.split sep s) as [|p ps] eqn:Hs; [contradiction|].
        simpl. simpl in IHc. now rewrite IHc.
    + destruct (Js.split sep s) as [|p ps] eqn:Hs; [contradiction|].
      repeat split; try discriminate.
      * inversion IHf; subst. constructor; [simpl; now rewrite E, H1 | assumption].
      * simpl. simpl in IHc. destruct ps; simpl in *; now rewrite <- IHc.
Qed.

(** Cutting a joined list of separator-free texts gives the list back. *)
Lemma split_concat (sep : ascii) (l : list string) :
  l <> [] ->
  Forall (fun p => has_char sep p = false) l ->
  Js.split sep (String.concat (String sep "") l) = l.
Proof.
  induction l as [|x l IH]; intros Hne Hf; [contradiction|].
  inversion Hf as [|y ys Hx Hl]; subst.
  destruct l as [|y l].
  - simpl. now apply split_no_sep.
  - change (String.concat (String sep "") (x :: y :: l))
      with (x ++ String sep (String.concat (String sep "") (y :: l))).
    rewrite (split_app_sep _ _ _ Hx), IH; [reflexivity | discriminate | assumption].
Qed.

Lemma lower_upper_char (c : ascii) :
  Js.lower_char (Js.upper_char c) = Js.lower_char c
  /\ Js.upper_char (Js.lower_char c) = Js.upper_char c
  /\ Js.lower_char (Js.lower_char c) = Js.lower_char c.
Proof. destruct c as [[] [] [] [] [] [] [] []]; repeat split. Qed.

Lemma lower_upper (s : string) :
  Js.toLowerCase (Js.toUpperCase s) = Js.toLowerCase s
  /\ Js.toUpperCase (Js.toLowerCase s) = Js.toUpperCase s
  /\ Js.toLowerCase (Js.toLowerCase s) = Js.toLowerCase s.
Proof.
  unfold Js.toLowerCase, Js.toUpperCase.
  induction s as [|c s [IH1 [IH2 IH3]]]; simpl; [repeat split|].
  destruct (lower_upper_char c) as [H1 [H2 H3]].
  now rewrite H1, H2, H3, IH1, IH2, IH3.
Qed.

(** Comparing through upper case and through lower case is the same. *)
Lemma same_case_iff (a b : string) : same_up_to_case a b <-> same_lower a b.
Proof.
  unfold same_up_to_case, same_lower. split; intros H.
  - destruct (lower_upper a) as [Ha _]. destruct (lower_upper b) as [Hb _].
    now rewrite <- Ha, <- Hb, H.
  - destruct (lower_upper a) as [_ [Ha _]]. destruct (lower_upper b) as [_ [Hb _]].
    now rewrite <- Ha, <- Hb, H.
Qed.

Lemma prefix_app (needle hay : string) :
  String.prefix needle hay = true <-> exists post, hay = needle ++ post.
Proof.
  revert hay. induction needle as [|c n IH]; intros hay; simpl.
  - destruct hay; split; intros _; try reflexivity; eexists; reflexivity.
  - destruct hay as [|d h]; simpl.
    + split; [discriminate | intros [post H]; discriminate H].
    + destruct (ascii_dec c d) as [->|Hne].
      * rewrite IH. split; intros [post H]; exists post; [now rewrite H | now injection H].
      * split; [discriminate | intros [post H]; injection H as H1 _; congruence].
Qed.

Lemma str_includes_eq (hay needle : string) :
  Js.str_includes hay needle
  = if String.prefix needle hay then true
    else match hay with
         | EmptyString => false
         | String _ hay' => Js.str_includes hay' needle
         end.
Proof. destruct hay; reflexivity. Qed.

(** [includes] holds exactly of the texts that have [needle] somewhere
    inside. *)
Lemma str_includes_spec (hay needle : string) :
  Js.str_includes hay needle = true <-> exists pre post, hay = pre ++ needle ++ post.
Proof.
  induction hay as [|c h IH]; rewrite str_includes_eq.
  - destruct (String.prefix needle "") eqn:P.
    + split; [|reflexivity]. intros _. apply prefix_app in P. destruct P as [post P].
      exists "", post. exact P.
    + split; [discriminate|]. intros [pre [post H]].
      destruct pre; [|discriminate].
      assert (String.prefix needle "" = true) by (apply prefix_app; exists post; exact H).
      congruence.
  - destruct (String.prefix needle (String c h)) eqn:P.
    + split; [|reflexivity]. intros _. apply prefix_app in P. destruct P as [post P].
      exists "", post. exact P.
    + rewrite IH. split.
      * intros [pre [post H]]. exists (String c pre), post. simpl. now rewrite H.
      * intros [pre [post H]]. destruct pre as [|x pre].
        -- assert (String.prefix needle (String c h) = true)
             by (apply prefix_app; exists post; exact H).
           congruence.
        -- injection H as _ H. exists pre, post. exact H.
Qed.

(* ================================================================== *)
(** * The comma-separated settings columns *)

Lemma split_nonempty (sep : ascii) (s : string) : Js.split sep s <> [].
Proof. apply split_pieces. Qed.

(** X1. Reading a comma-separated settings column never gives an empty list,
    every entry comes out trimmed (trimming it again changes nothing), and a
    column without a comma is one entry, its trimmed text. *)
Theorem splitTrim_shape (text : string) :
  splitTrim text <> []
  /\ Forall (fun entry => Js.trim entry = entry) (splitTrim text)
  /\ (has_char "," text = false -> splitTrim text = [Js.trim text]).
Proof.
  unfold splitTrim. repeat split.
  - intros H. apply map_eq_nil in H. exact (split_nonempty _ _ H).
  - apply Forall_forall. intros entry Hin. apply in_map_iff in Hin.
    destruct Hin as [p [<- _]]. apply trim_idem.
  - intros Hc. now rewrite (split_no_sep _ _ Hc).
Qed.

(** X2. Writing a list of names as a comma-separated column and reading it
    back gives the same list, provided the list is not empty and each name is
    free of commas and of surrounding blanks. *)
Theorem splitTrim_concat (names : list string) :
  names <> [] ->
  Forall (fun n => has_char "," n = false /\ Js.trim n = n) names ->
  splitTrim (String.concat "," names) = names.
Proof.
  intros Hne Hf. unfold splitTrim.
  rewrite split_concat.
  - induction Hf as [|n ns [_ Hn] _ IH]; [reflexivity|].
    simpl. rewrite Hn. f_equal.
    destruct ns; [reflexivity | apply IH; discriminate].
  - exact Hne.
  - eapply Forall_impl; [|exact Hf]. now intros n [Hc _].
Qed.

Lemma splitTrim_concat_witness :
  splitTrim (String.concat "," ["V T GEMS"; "AURA GEMSTONES"; "R.K. INTERNATIONAL"])
  = ["V T GEMS"; "AURA GEMSTONES"; "R.K. INTERNATIONAL"].
Proof.
  apply splitTrim_concat; [discriminate|].
  repeat constructor.
Defined.

(* ================================================================== *)
(** * The supplier rule *)

Lemma str_includes_empty (hay : string) : Js.str_includes hay "" = true.
Proof. apply str_includes_spec. exists "", hay. reflexivity. Qed.

Lemma split_trailing_sep (sep : ascii) (s : string) :
  Js.split sep (s ++ String sep "") = (Js.split sep s ++ [EmptyString])%list.
Proof.
  induction s as [|c s IH]; simpl.
  - now rewrite Ascii.eqb_refl.
  - destruct (Ascii.eqb c sep); [now rewrite IH|].
    rewrite IH. destruct (Js.split sep s) as [|p ps] eqn:Hs; [|reflexivity].
    exfalso. exact (split_nonempty _ _ Hs).
Qed.

Lemma trim_empty : Js.trim "" = "".
Proof. reflexivity. Qed.

(** X3. An empty entry in the supplier allow-list admits every company that
    has a name, because every text includes the empty text; and an empty
    [supplier_names] column, or one that ends in a comma, is read as a list
    with such an entry. *)
Theorem supplier_blank_entry_admits_all (name : string) (allowed : list string) (text : string) :
  name <> "" ->
  (In "" allowed -> isSupplierAllowed (Some name) allowed = true)
  /\ isSupplierAllowed (Some name) (splitTrim (text ++ ",")) = true
  /\ isSupplierAllowed (Some name) (splitTrim "") = true.
Proof.
  intros Hname.
  assert (Hin : forall l, In "" l -> isSupplierAllowed (Some name) l = true).
  { intros l Hl. unfold isSupplierAllowed.
    destruct (String.eqb name "") eqn:E; [apply String.eqb_eq in E; contradiction|].
    apply existsb_exists. exists "". split; [exact Hl|].
    apply orb_true_iff. right. apply str_includes_empty. }
  split; [apply Hin|]. split; apply Hin.
  - unfold splitTrim.
    change (text ++ ",") with (text ++ String "," "").
    rewrite split_trailing_sep, map_app. apply in_or_app. right. now left.
  - now left.
Qed.

Lemma supplier_blank_entry_admits_all_witness :
  (In "" ["ACME"; ""] -> isSupplierAllowed (Some "Globex") ["ACME"; ""] = true)
  /\ isSupplierAllowed (Some "Globex") (splitTrim ("ACME" ++ ",")) = true
  /\ isSupplierAllowed (Some "Globex") (splitTrim "") = true.
Proof.
  apply (supplier_blank_entry_admits_all "Globex" ["ACME"; ""] "ACME"). discriminate.
Defined.

Lemma toLowerCase_empty_iff (s : string) : Js.toLowerCase s = "" <-> s = "".
Proof. destruct s; split; intros H; try reflexivity; discriminate H. Qed.

(** X4. The supplier rule admits a company exactly when it has a non-empty
    name and, both in lower case, some allow-list entry occurs inside the name
    or the name occurs inside the entry. *)
Theorem isSupplierAllowed_spec (companyName : option string) (allowed : list string) :
  isSupplierAllowed companyName allowed = true
  <-> exists name, companyName = Some name /\ name <> ""
      /\ exists supplier, In supplier allowed
         /\ ((exists pre post,
                Js.toLowerCase supplier = pre ++ Js.toLowerCase name ++ post)
             \/ (exists pre post,
                   Js.toLowerCase name = pre ++ Js.toLowerCase supplier ++ post)).
Proof.
  unfold isSupplierAllowed. split.
  - destruct companyName as [name|]; [|discriminate].
    destruct (String.eqb name "") eqn:E; [discriminate|].
    intros H. apply existsb_exists in H. destruct H as [supplier [Hin H]].
    exists name. split; [reflexivity|]. split; [now apply String.eqb_neq|].
    exists supplier. split; [exact Hin|].
    apply orb_true_iff in H. now rewrite !str_includes_spec in H.
  - intros [name [-> [Hne [supplier [Hin H]]]]].
    apply String.eqb_neq in Hne. rewrite Hne.
    apply existsb_exists. exists supplier. split; [exact Hin|].
    apply orb_true_iff. now rewrite !str_includes_spec.
Qed.

(** X5. The supplier rule does not look at letter case on either side: the
    verdict is the same for two names that agree in lower case against two
    allow-lists whose entries agree in lower case, one by one. *)
Theorem isSupplierAllowed_case (name name' : string) (allowed allowed' : list string) :
  same_lower name name' ->
  Forall2 same_lower allowed allowed' ->
  isSupplierAllowed (Some name) allowed = isSupplierAllowed (Some name') allowed'.
Proof.
  unfold same_lower. intros Hn Hl. unfold isSupplierAllowed.
  assert (He : String.eqb name "" = String.eqb name' "").
  { destruct (String.eqb_spec name ""), (String.eqb_spec name' ""); try reflexivity; exfalso.
    - subst name. change (Js.toLowerCase "") with "" in Hn. symmetry in Hn.
      apply (proj1 (toLowerCase_empty_iff _)) in Hn. contradiction.
    - subst name'. change (Js.toLowerCase "") with "" in Hn.
      apply (proj1 (toLowerCase_empty_iff _)) in Hn. contradiction. }
  rewrite He. destruct (String.eqb name' ""); [reflexivity|].
  induction Hl as [|s s' l l' Hs _ IH]; [reflexivity|].
  simpl. now rewrite IH, Hs, Hn.
Qed.

Lemma isSupplierAllowed_case_witness :
  isSupplierAllowed (Some "acme corp") ["ACME"; "Globex"]
  = isSupplierAllowed (Some "ACME Corp") ["acme"; "GLOBEX"].
Proof.
  apply isSupplierAllowed_case; [reflexivity|].
  repeat constructor.
Defined.

(* ================================================================== *)
(** * One pass and two passes over a shipment *)

(** X6. Processing a shipment in one go, as the single-date run does, is
    validating it and then processing the verdict, as the scheduled run does:
    from any state the calls made, the table written and the outcome are the
    same, and a refused shipment makes [processShipment] throw the reason the
    validator reports. *)
Theorem processShipment_is_validate_then_process (w : World) (awb : string)
    (settings : Settings) (st : State) :
  Window.processShipment w awb settings st
  = match Window.validateShipmentOnly w awb settings st with
    | (st1, Ok (Valid a sd ci)) =>
        Window.processValidatedShipment w (Valid a sd ci) settings st1
    | (st1, Ok (Invalid _ reason)) => (st1, Throw reason)
    | (st1, Throw e) => (st1, Throw e)
    end.
Proof.
  unfold Window.processShipment, Window.validateShipmentOnly,
    Window.processValidatedShipment, catch, bind, ret, throw.
  destruct (Window.checkShipment w awb settings st) as [st1 [[sd ci]|e]]; reflexivity.
Qed.

(* ================================================================== *)
(** * What makes a shipment valid *)

(** X7. The window validator never throws and answers about the number it
    was asked about; its verdict is valid exactly when the shipment was found,
    has a destination in the allow-list, a pickup time in the window and a
    customer whose company passes the supplier rule; the verdict then carries
    that shipment and that customer. The shipment table and the error log are
    not touched. *)
Theorem window_valid_iff (w : World) (awb : string) (settings : Settings) (st : State) :
  (exists v, snd (Window.validateShipmentOnly w awb settings st) = Ok v /\ vr_awb v = awb)
  /\ coverzy_shipments (fst (Window.validateShipmentOnly w awb settings st))
     = coverzy_shipments st
  /\ cron_error_logs (fst (Window.validateShipmentOnly w awb settings st))
     = cron_error_logs st
  /\ (forall a sd ci,
        snd (Window.validateShipmentOnly w awb settings st) = Ok (Valid a sd ci)
        <-> a = awb
            /\ lex_shipment w awb = Some sd
            /\ (exists dest, Destination_Country sd = Some dest
                  /\ isDestinationAllowed dest (countries settings) = true)
            /\ Window.isPickupTimeValid (Create_Pick_Up_Date sd)
                 (cutoffTime settings) (cipTime settings) = true
            /\ ci = customerInfoOf (lex_customer w (Customer_ID sd))
            /\ isSupplierAllowed (company_name ci) (suppliers settings) = true).
Proof.
  destruct (window_validate_does w awb settings) as [cs [Hd _]].
  rewrite (Hd st). unfold apply_effect. simpl. rewrite app_nil_r.
  split; [|split; [reflexivity|split; [reflexivity|]]].
  - eexists. split; [reflexivity|].
    unfold windowVerdict.
    repeat match goal with
           | |- context [match ?x with _ => _ end] => destruct x; simpl
           end; reflexivity.
  - intros a sd ci. unfold windowVerdict. split.
    + intros H.
      destruct (lex_shipment w awb) as [sd0|]; [|discriminate].
      destruct (Destination_Country sd0) as [dest|] eqn:Hdest; [|discriminate].
      destruct (isDestinationAllowed dest (countries settings)) eqn:Hd1; simpl in H; [|discriminate].
      destruct (Window.isPickupTimeValid _ _ _) eqn:Hp; simpl in H; [|discriminate].
      destruct (isSupplierAllowed _ _) eqn:Hs; simpl in H; [|discriminate].
      injection H as <- <- <-.
      repeat split; try assumption. exists dest. now split.
    + intros [-> [Hsd [[dest [Hdest Hd1]] [Hp [-> Hs]]]]].
      rewrite Hsd, Hdest, Hd1. simpl. rewrite Hp. simpl. now rewrite Hs.
Qed.

(** The cutoff-only validator step by step: its verdict is the one the five
    rules give in their order; the customer is fetched only when the first
    four rules have passed. *)
Lemma cutoff_validate_does (w : World) (awb : string) (settings : Settings) :
  exists cs,
    does (Cutoff.validateShipmentOnly w awb settings) (calls_effect cs)
         (Ok (cutoffVerdict w settings awb))
    /\ lookups cs = [awb] /\ submissions cs = [] /\ mails cs = []
    /\ (cs = [GetShipment awb]
        \/ exists sd, lex_shipment w awb = Some sd
                      /\ cs = [GetShipment awb; GetCustomer (Customer_ID sd)]
                      /\ match cutoffVerdict w settings awb with
                         | Valid _ _ _ | Invalid _ (SupplierNotAllowed _ _) => True
                         | _ => False
                         end).
Proof.
  unfold cutoffVerdict.
  assert (Hshort : forall r,
    (forall st, Cutoff.validateShipmentOnly w awb settings st
                = (mkState (coverzy_shipments st) (cron_error_logs st)
                           (calls st ++ [GetShipment awb])%list, Ok r)) ->
    exists cs, does (Cutoff.validateShipmentOnly w awb settings) (calls_effect cs) (Ok r)
      /\ lookups cs = [awb] /\ submissions cs = [] /\ mails cs = []
      /\ (cs = [GetShipment awb]
          \/ exists sd, lex_shipment w awb = Some sd
                        /\ cs = [GetShipment awb; GetCustomer (Customer_ID sd)]
                        /\ match r with
                           | Valid _ _ _ | Invalid _ (SupplierNotAllowed _ _) => True
                           | _ => False
                           end)).
  { intros r H. exists [GetShipment awb]. split; [|repeat split; now left].
    intros st. rewrite H. unfold apply_effect. simpl. now rewrite app_nil_r. }
  destruct (lex_shipment w awb) as [sd|] eqn:Hsd.
  2:{ apply Hshort. intros st. unfold_run. simpl. now rewrite Hsd. }
  destruct (Destination_Country sd) as [dest|] eqn:Hdest.
  2:{ apply Hshort. intros st. unfold_run. simpl. rewrite Hsd. simpl. now rewrite Hdest. }
  destruct (isDestinationAllowed dest (countries settings)) eqn:Hd; simpl.
  2:{ apply Hshort. intros st. unfold_run. simpl. rewrite Hsd. simpl. rewrite Hdest. simpl.
      now rewrite Hd. }
  destruct (Service_Type sd) as [service|] eqn:Hsv.
  2:{ apply Hshort. intros st. unfold_run. simpl. rewrite Hsd. simpl. rewrite Hdest. simpl.
      rewrite Hd. simpl. now rewrite Hsv. }
  destruct (Cutoff.isServiceDestinationValid dest service) eqn:Hs; simpl.
  2:{ apply Hshort. intros st. unfold_run. simpl. rewrite Hsd. simpl. rewrite Hdest. simpl.
      rewrite Hd. simpl. rewrite Hsv. simpl. now rewrite Hs. }
  destruct (Cutoff.isPickupTimeValid _ _ _) eqn:Hp; simpl.
  2:{ apply Hshort. intros st. unfold_run. simpl. rewrite Hsd. simpl. rewrite Hdest. simpl.
      rewrite Hd. simpl. rewrite Hsv. simpl. rewrite Hs. simpl. now rewrite Hp. }
  destruct (Cutoff.isShipmentValueValid _ _ _) eqn:Hval; simpl.
  2:{ apply Hshort. intros st. unfold_run. simpl. rewrite Hsd. simpl. rewrite Hdest. simpl.
      rewrite Hd. simpl. rewrite Hsv. simpl. rewrite Hs. simpl. rewrite Hp. simpl.
      now rewrite Hval. }
  exists [GetShipment awb; GetCustomer (Customer_ID sd)].
  split; [|repeat split].
  - intros st. unfold_run. simpl. rewrite Hsd. simpl. rewrite Hdest. simpl. rewrite Hd.
    simpl. rewrite Hsv. simpl. rewrite Hs. simpl. rewrite Hp. simpl. rewrite Hval. simpl.
    destruct (isSupplierAllowed _ _); unfold apply_effect; simpl;
      now rewrite app_nil_r, <- app_assoc.
  - right. exists sd. repeat split. now destruct (isSupplierAllowed _ _).
Qed.

(** X8. The cutoff-only validator never throws, leaves table and error log
    alone, and gives a valid verdict exactly when the shipment was found and
    passes all five rules: destination in the allow-list, a service the
    destination has a carrier for, pickup before the cutoff, declared value
    at or above the threshold, and a company that passes the supplier rule. *)
Theorem cutoff_valid_iff (w : World) (awb : string) (settings : Settings) (st : State) :
  (exists v, snd (Cutoff.validateShipmentOnly w awb settings st) = Ok v /\ vr_awb v = awb)
  /\ coverzy_shipments (fst (Cutoff.validateShipmentOnly w awb settings st))
     = coverzy_shipments st
  /\ cron_error_logs (fst (Cutoff.validateShipmentOnly w awb settings st))
     = cron_error_logs st
  /\ (forall a sd ci,
        snd (Cutoff.validateShipmentOnly w awb settings st) = Ok (Valid a sd ci)
        <-> a = awb
            /\ lex_shipment w awb = Some sd
            /\ (exists dest service,
                  Destination_Country sd = Some dest
                  /\ isDestinationAllowed dest (countries settings) = true
                  /\ Service_Type sd = Some service
                  /\ Cutoff.isServiceDestinationValid dest service = true)
            /\ Cutoff.isPickupTimeValid (Create_Pick_Up_Date sd)
                 (cutoffTime settings) (cipTime settings) = true
            /\ Cutoff.isShipmentValueValid (Package_Value sd)
                 (minShipmentValueUsd settings) (usdToInrRate settings) = true
            /\ ci = customerInfoOf (lex_customer w (Customer_ID sd))
            /\ isSupplierAllowed (company_name ci) (suppliers settings) = true).
Proof.
  destruct (cutoff_validate_does w awb settings) as [cs [Hd _]].
  rewrite (Hd st). unfold apply_effect. simpl. rewrite app_nil_r.
  split; [|split; [reflexivity|split; [reflexivity|]]].
  - eexists. split; [reflexivity|].
    unfold cutoffVerdict.
    repeat match goal with
           | |- context [match ?x with _ => _ end] => destruct x; simpl
           end; reflexivity.
  - intros a sd ci. unfold cutoffVerdict. split.
    + intros H.
      destruct (lex_shipment w awb) as [sd0|]; [|discriminate].
      destruct (Destination_Country sd0) as [dest|] eqn:Hdest; [|discriminate].
      destruct (isDestinationAllowed dest (countries settings)) eqn:Hd1; simpl in H; [|discriminate].
      destruct (Service_Type sd0) as [service|] eqn:Hsv; [|discriminate].
      destruct (Cutoff.isServiceDestinationValid dest service) eqn:Hs1; simpl in H; [|discriminate].
      destruct (Cutoff.isPickupTimeValid _ _ _) eqn:Hp; simpl in H; [|discriminate].
      destruct (Cutoff.isShipmentValueValid _ _ _) eqn:Hval; simpl in H; [|discriminate].
      destruct (isSupplierAllowed _ _) eqn:Hs; simpl in H; [|discriminate].
      injection H as <- <- <-.
      repeat split; try assumption. exists dest, service. now repeat split.
    + intros [-> [Hsd [[dest [service [Hdest [Hd1 [Hsv Hs1]]]]] [Hp [Hval [-> Hs]]]]]].
      rewrite Hsd, Hdest, Hd1. simpl. rewrite Hsv, Hs1. simpl. rewrite Hp. simpl.
      rewrite Hval. simpl. now rewrite Hs.
Qed.

(* ================================================================== *)
(** * Runs that fail *)

(** The mailer's guard against an empty list of recipients never fires, so
    what it hands to the transport is what the settings row lets through. *)
Lemma deliveries_handedOver (w : World) (m : MailKind) :
  deliveries w m = handedOver w m.
Proof.
  unfold deliveries, handedOver, Mailer.send, Mailer.getEmailSettings.
  destruct (email_row w) as [[[text|] enabled]|]; simpl; try reflexivity.
  destruct enabled; simpl; [|reflexivity].
  assert (Hlen : Nat.eqb (List.length (splitTrim text)) 0 = false).
  { pose proof (split_nonempty "," text) as Hne. unfold splitTrim.
    destruct (Js.split "," text); [contradiction | reflexivity]. }
  rewrite Hlen. now destruct (mail_accepts w _).
Qed.

(** X9. When no settings can be read, the scheduled run throws that failure
    after writing two error-log rows (a database error from
    [getCoverzySettings], a cron failure from the run's own handler; none when
    the log insert itself fails) and calling the mailer once, for a
    cron-failure alert. The mailer reads the settings table itself: it hands
    the alert to the transport only when it finds a row with addresses and
    with mail enabled, so with an empty settings table no alert goes out. No
    listing is requested, no shipment is looked up or submitted, and the
    shipment table is as it was. *)
Theorem scheduled_run_without_settings (w : World) (y ym t : string) (st : State) :
  settings_row w = None ->
  Window.processPreviousDayShipments w y ym t st
  = (mkState (coverzy_shipments st)
       (cron_error_logs st ++ (if errlog_accepts w then settingsFailureLogs t ym else []))
       (calls st ++ CronErrorEmail cron_failure :: handedOver w (ErrorAlert cron_failure)),
     Throw NoSettingsFound)
  /\ (email_row w = None ->
      sent (calls (fst (Window.processPreviousDayShipments w y ym t st))) = sent (calls st)).
Proof.
  intros Hs.
  assert (Hrun :
    Window.processPreviousDayShipments w y ym t st
    = (mkState (coverzy_shipments st)
         (cron_error_logs st ++ (if errlog_accepts w then settingsFailureLogs t ym else []))
         (calls st ++ CronErrorEmail cron_failure :: handedOver w (ErrorAlert cron_failure)),
       Throw NoSettingsFound)).
  { eassert (D : does (Window.processPreviousDayShipments w y ym t) _
                       (Throw NoSettingsFound)).
    { unfold Window.processPreviousDayShipments, getCoverzySettings. rewrite Hs.
      eapply does_catch_throw.
      - apply does_bind_throw.
        eapply does_bind; [apply logErrorToDatabase_does | apply does_throw].
      - eapply does_bind; [apply logErrorToDatabase_does|].
        eapply does_bind; [apply sendCronErrorEmail_does | apply does_throw]. }
    rewrite D. unfold apply_effect, settingsFailureLogs. simpl.
    rewrite deliveries_handedOver.
    destruct (errlog_accepts w); simpl; now rewrite ?app_nil_r, <- ?app_assoc. }
  split; [exact Hrun|].
  intros He. rewrite Hrun. unfold handedOver. rewrite He. simpl.
  rewrite sent_app. simpl. now rewrite app_nil_r.
Qed.

(** An empty settings table: neither the run nor the mailer finds a row. *)
Lemma scheduled_run_without_settings_witness :
  let w := mkWorld None (fun _ _ => None) (fun _ => None) (fun _ => None)
             (fun _ => None) (fun _ => true) true None (fun _ => true) in
  Window.processPreviousDayShipments w "30-04-2024" "2024-04-30" "2024-05-01"
    Sample.emptyState
  = (mkState [] (settingsFailureLogs "2024-05-01" "2024-04-30")
       [CronErrorEmail cron_failure],
     Throw NoSettingsFound)
  /\ sent (calls (fst (Window.processPreviousDayShipments w "30-04-2024" "2024-04-30"
                         "2024-05-01" Sample.emptyState))) = [].
Proof.
  exact (let H := scheduled_run_without_settings
                    (mkWorld None (fun _ _ => None) (fun _ => None) (fun _ => None)
                       (fun _ => None) (fun _ => true) true None (fun _ => true))
                    "30-04-2024" "2024-04-30" "2024-05-01" Sample.emptyState eq_refl in
         conj (proj1 H) (proj2 H eq_refl)).
Defined.

(** X10. When the listing request fails, the scheduled run throws that
    failure after one listing request, two error-log rows (an API error, then
    a cron failure) and two calls of the mailer, for an API-error alert and
    then for a cron-failure alert; each of the two alerts goes to the
    transport exactly when the settings row has addresses and mail enabled.
    No shipment is looked up or submitted and the shipment table is as it
    was. *)
Theorem scheduled_run_listing_failure (w : World) (y ym t : string) (settings : Settings)
    (st : State) :
  settings_row w = Some settings ->
  lex_daily w y y = None ->
  Window.processPreviousDayShipments w y ym t st
  = (mkState (coverzy_shipments st)
       (cron_error_logs st ++ (if errlog_accepts w then listingFailureLogs ym else []))
       (calls st
        ++ PostDailyShipments y y
           :: CronErrorEmail api_error :: handedOver w (ErrorAlert api_error)
        ++ CronErrorEmail cron_failure :: handedOver w (ErrorAlert cron_failure)),
     Throw DailyShipmentsFailed).
Proof.
  intros Hs Hl.
  eassert (D : does (Window.processPreviousDayShipments w y ym t) _
                     (Throw DailyShipmentsFailed)).
  { unfold Window.processPreviousDayShipments, getCoverzySettings, getDailyShipmentsData.
    rewrite Hs, or_else_same, Hl.
    eapply does_catch_throw.
    - eapply does_bind; [apply does_ret|].
      apply does_bind_throw.
      eapply does_catch_throw.
      + eapply does_bind; [apply does_call | apply does_throw].
      + eapply does_bind; [apply logErrorToDatabase_does|].
        eapply does_bind; [apply sendCronErrorEmail_does | apply does_throw].
    - eapply does_bind; [apply logErrorToDatabase_does|].
      eapply does_bind; [apply sendCronErrorEmail_does | apply does_throw]. }
  rewrite D. unfold apply_effect, listingFailureLogs. simpl.
  rewrite !deliveries_handedOver.
  destruct (errlog_accepts w); simpl; now rewrite ?app_nil_r, <- ?app_assoc.
Qed.

(** Settings with mail enabled for one administrator, and a listing request
    that fails: both alerts go out. *)
Lemma scheduled_run_listing_failure_witness :
  let w := mkWorld (Some (Sample.sampleSettings 2)) (fun _ _ => None) (fun _ => None)
             (fun _ => None) (fun _ => None) (fun _ => true) true
             (Some (Mailer.mkEmailRow (Some " ops@lex.example ") true)) (fun _ => true) in
  Window.processPreviousDayShipments w "30-04-2024" "2024-04-30" "2024-05-01"
    Sample.emptyState
  = (mkState [] (listingFailureLogs "2024-04-30")
       [PostDailyShipments "30-04-2024" "30-04-2024";
        CronErrorEmail api_error; SendMail "ops@lex.example" (ErrorAlert api_error);
        CronErrorEmail cron_failure; SendMail "ops@lex.example" (ErrorAlert cron_failure)],
     Throw DailyShipmentsFailed).
Proof.
  exact (scheduled_run_listing_failure
           (mkWorld (Some (Sample.sampleSettings 2)) (fun _ _ => None) (fun _ => None)
              (fun _ => None) (fun _ => None) (fun _ => true) true
              (Some (Mailer.mkEmailRow (Some " ops@lex.example ") true)) (fun _ => true))
           "30-04-2024" "2024-04-30" "2024-05-01" (Sample.sampleSettings 2)
           Sample.emptyState eq_refl eq_refl).
Defined.

(** X11. The single-date run fails more quietly than the scheduled one:
    without settings it throws after the one database-error row of
    [getCoverzySettings], and with a failed listing it throws after the
    listing request alone; in neither case is an alert sent or a cron-failure
    row written. *)
Theorem single_date_run_failures (w : World) (today date : string) (st : State) :
  (settings_row w = None ->
   Window.processShipmentsForDate w today date st
   = (mkState (coverzy_shipments st)
        (cron_error_logs st
         ++ (if errlog_accepts w
             then [mkErrorLog "coverzy_daily_shipments" database_error NoSettingsFound
                     today None]
             else []))
        (calls st),
      Throw NoSettingsFound))
  /\ (forall settings,
        settings_row w = Some settings ->
        lex_daily w date date = None ->
        Window.processShipmentsForDate w today date st
        = (mkState (coverzy_shipments st) (cron_error_logs st)
             (calls st ++ [PostDailyShipments date date]),
           Throw DailyShipmentsFailed)).
Proof.
  split.
  - intros Hs.
    unfold Window.processShipmentsForDate, getCoverzySettings, logErrorToDatabase.
    rewrite Hs. unfold catch, bind, call, ret, throw.
    destruct (errlog_accepts w); simpl; [reflexivity|].
    rewrite app_nil_r. now destruct st.
  - intros settings Hs Hl.
    unfold Window.processShipmentsForDate, getCoverzySettings, getDailyShipmentsData.
    rewrite Hs. simpl Js.or_else. rewrite Hl.
    unfold catch, bind, call, ret, throw. reflexivity.
Qed.

Lemma single_date_run_failures_witness :
  let w := mkWorld None (fun _ _ => None) (fun _ => None) (fun _ => None)
             (fun _ => None) (fun _ => true) true None (fun _ => true) in
  Window.processShipmentsForDate w "2024-05-01" "30-04-2024" Sample.emptyState
  = (mkState []
       [mkErrorLog "coverzy_daily_shipments" database_error NoSettingsFound
          "2024-05-01" None] [],
     Throw NoSettingsFound).
Proof.
  exact (proj1 (single_date_run_failures
                  (mkWorld None (fun _ _ => None) (fun _ => None) (fun _ => None)
                     (fun _ => None) (fun _ => true) true None (fun _ => true))
                  "2024-05-01" "30-04-2024" Sample.emptyState) eq_refl).
Defined.

Lemma alerts_app (a b : list Call) : alerts (a ++ b) = (alerts a ++ alerts b)%list.
Proof. apply flat_map_app. Qed.

Lemma alerts_mails (cs : list Call) : alerts (mails cs) = alerts cs.
Proof.
  induction cs as [|c cs IH]; [reflexivity|].
  destruct c; simpl; now rewrite ?IH.
Qed.

(** X12. Whatever the world is like, the scheduled run throws only for
    missing settings or a failed listing; no failure of a single shipment
    (lookup, validation, submission, database write) makes it throw. When it
    returns, the error log is as before and no alert has been sent. *)
Theorem scheduled_run_outcomes (w : World) (y ym t : string) (st : State) :
  match Window.processPreviousDayShipments w y ym t st with
  | (st', Ok _) =>
      settings_row w <> None /\ lex_daily w y y <> None
      /\ cron_error_logs st' = cron_error_logs st
      /\ alerts (calls st') = alerts (calls st)
  | (_, Throw e) =>
      (e = NoSettingsFound /\ settings_row w = None)
      \/ (e = DailyShipmentsFailed /\ settings_row w <> None /\ lex_daily w y y = None)
  end.
Proof.
  destruct (settings_row w) as [settings|] eqn:Hs.
  2:{ unfold Window.processPreviousDayShipments, getCoverzySettings, logErrorToDatabase,
        sendCronErrorEmail.
      rewrite Hs. unfold catch, bind, call, ret, throw.
      destruct (errlog_accepts w); destruct (Mailer.send _ _); simpl; left; now split. }
  destruct (lex_daily w y y) as [items|] eqn:Hl.
  2:{ unfold Window.processPreviousDayShipments, getCoverzySettings, getDailyShipmentsData,
        logErrorToDatabase, sendCronErrorEmail.
      rewrite Hs, or_else_same, Hl. unfold catch, bind, call, ret, throw.
      destruct (errlog_accepts w); destruct (Mailer.send _ _); simpl; right;
        repeat split; discriminate. }
  assert (Hrun : exists e r,
             does (Window.validateThenProcess w settings (truthy_strings items)) e (Ok r)
             /\ new_logs e = [] /\ alerts (new_calls e) = []).
  { destruct (truthy_strings items) as [|a0 rest] eqn:Hawbs.
    - exists no_effect, (mkRunResult [] [] 0 None None).
      split; [apply does_ret|]. now split.
    - destruct (validateThenProcess_does w settings (a0 :: rest))
        as [e [R [E [Hbody [_ [Lg [_ [_ [Ml _]]]]]]]]]; [discriminate|].
      eexists e, _. split; [exact Hbody|]. split; [exact Lg|].
      rewrite <- alerts_mails, Ml. unfold summaryMails, deliveries.
      destruct (PrimFloat.leb 80 _); [|reflexivity].
      now destruct (Mailer.send _ _). }
  destruct Hrun as [e [r [Hbody [Lg Al]]]].
  rewrite (scheduled_run_does w y ym t settings items _ e r Hs Hl eq_refl Hbody st).
  unfold apply_effect. simpl. rewrite Lg, app_nil_r, alerts_app. simpl. rewrite Al, app_nil_r.
  repeat split; discriminate.
Qed.

(* ================================================================== *)
(** * The counts a run reports *)

Lemma processLoop_accounts (w : World) (settings : Settings) (awbNumbers : list string) :
  forall results errors,
  exists e R E,
    does (Window.processLoop w settings awbNumbers results errors) e
         (Ok ((results ++ R)%list, (errors ++ E)%list))
    /\ new_logs e = [] /\ mails (new_calls e) = []
    /\ (List.length R + List.length E = List.length awbNumbers)%nat
    /\ incl (map fst R) awbNumbers /\ incl (map fst E) awbNumbers.
Proof.
  induction awbNumbers as [|awb rest IH]; intros R0 E0.
  - exists no_effect, [], []. rewrite !app_nil_r. split; [apply does_ret|].
    repeat split; apply incl_refl.
  - assert (Hone : exists e1 r1,
               does (Window.processShipment w awb settings) e1 r1
               /\ new_logs e1 = [] /\ mails (new_calls e1) = []).
    { destruct (window_check_does w awb settings) as [cs [Hc [_ [_ M]]]].
      unfold Window.processShipment.
      destruct (windowVerdict w settings awb) as [a sd ci|a x].
      - destruct (submitAndSave_does w awb sd ci) as [e2 [r [H2 [_ [L2 C2]]]]].
        exists (seq_effect (calls_effect cs) e2), r.
        split; [apply does_catch_rethrow; eapply does_bind; [exact Hc | exact H2]|].
        simpl. now rewrite mails_app, M, L2, C2.
      - exists (calls_effect cs), (Throw x).
        split; [apply does_catch_rethrow, does_bind_throw; exact Hc|].
        now split. }
    destruct Hone as [e1 [r1 [H1 [L1 M1]]]].
    assert (Hstep : exists R1 E1,
      does (catch
              (bind (Window.processShipment w awb settings)
                 (fun result => ret ((R0 ++ [(awb, result)])%list, E0)))
              (fun error => ret (R0, (E0 ++ [(awb, error)])%list)))
           e1 (Ok ((R0 ++ R1)%list, (E0 ++ E1)%list))
      /\ (List.length R1 + List.length E1 = 1)%nat
      /\ incl (map fst R1) [awb] /\ incl (map fst E1) [awb]).
    { destruct r1 as [pr|x].
      - exists [(awb, pr)], []. rewrite app_nil_r. split; [|repeat split].
        + apply does_catch_ok. eapply does_bind_pure; [exact H1 | apply does_ret].
        + apply incl_refl.
        + apply incl_nil_l.
      - exists [], [(awb, x)]. rewrite app_nil_r. split; [|repeat split].
        + eapply does_catch_pure; [apply does_bind_throw; exact H1 | apply does_ret].
        + apply incl_nil_l.
        + apply incl_refl. }
    destruct Hstep as [R1 [E1 [Hs [Len1 [IR1 IE1]]]]].
    destruct (IH (R0 ++ R1)%list (E0 ++ E1)%list)
      as [e2 [R2 [E2 [H2 [L2 [M2 [Len2 [IR2 IE2]]]]]]]].
    exists (seq_effect e1 e2), (R1 ++ R2)%list, (E1 ++ E2)%list.
    split; [rewrite !app_assoc; simpl; eapply does_bind; [exact Hs | exact H2]|].
    simpl. rewrite L1, L2, mails_app, M1, M2, !map_app, !length_app.
    repeat split; try lia.
    + apply incl_app; [eapply incl_tran; [exact IR1 | apply incl_cons; [now left | apply incl_nil_l]]
                      | now apply incl_tl].
    + apply incl_app; [eapply incl_tran; [exact IE1 | apply incl_cons; [now left | apply incl_nil_l]]
                      | now apply incl_tl].
Qed.

(** X13. A single-date run that got settings and a listing returns, with
    [total] the size of the listing and [processed] the size of its first
    [maxShipments] numbers; each of those numbers ends up in exactly one of
    the two result lists, so their sizes add up to [processed]; and the run
    sends no mail and writes no error-log row, whatever happened to the
    shipments. *)
Theorem single_date_run_accounts (w : World) (today date : string) (settings : Settings)
    (items : list (option string)) (st : State) :
  settings_row w = Some settings ->
  lex_daily w date date = Some items ->
  let limited := Js.slice0 (truthy_strings items) (maxShipments settings) in
  exists st' r,
    Window.processShipmentsForDate w today date st = (st', Ok r)
    /\ total r = List.length (truthy_strings items)
    /\ processed r = Some (List.length limited)
    /\ (List.length (results r) + List.length (errors r) = List.length limited)%nat
    /\ incl (map fst (results r)) limited
    /\ incl (map fst (errors r)) limited
    /\ cron_error_logs st' = cron_error_logs st
    /\ mails (calls st') = mails (calls st).
Proof.
  intros Hs Hl limited.
  unfold Window.processShipmentsForDate, getCoverzySettings, getDailyShipmentsData.
  rewrite Hs. simpl Js.or_else. rewrite Hl.
  unfold catch at 1. unfold bind at 1. unfold ret at 1.
  unfold bind at 1. unfold bind at 1. unfold call at 1. unfold ret at 1.
  destruct (truthy_strings items) as [|a0 rest] eqn:Hawbs.
  - simpl. eexists _, _. split; [reflexivity|]. simpl.
    assert (Hlim : limited = []) by (unfold limited, Js.slice0; apply firstn_nil).
    rewrite Hlim, mails_app. simpl. rewrite app_nil_r.
    repeat split; apply incl_refl.
  - change (Nat.eqb (List.length (a0 :: rest)) 0) with false. cbv iota.
    fold limited.
    destruct (processLoop_accounts w settings limited [] [])
      as [e [R [E [Hd [L [M [Len [IR IE]]]]]]]].
    unfold bind at 1. rewrite Hd. unfold ret at 1.
    eexists _, _. split; [reflexivity|].
    unfold apply_effect. simpl.
    rewrite !mails_app, M, L. simpl. rewrite !app_nil_r.
    repeat split; assumption.
Qed.

Lemma single_date_run_accounts_witness :
  let w := Sample.sampleWorld 2 ["AWB2"; "AWB1"; "AWB3"] in
  let limited := Js.slice0 (truthy_strings (map Some ["AWB2"; "AWB1"; "AWB3"])) 2 in
  exists st' r,
    Window.processShipmentsForDate w "2024-05-01" "30-04-2024" Sample.emptyState
    = (st', Ok r)
    /\ total r = 3%nat
    /\ processed r = Some 2%nat
    /\ (List.length (results r) + List.length (errors r) = 2)%nat
    /\ incl (map fst (results r)) limited
    /\ incl (map fst (errors r)) limited
    /\ cron_error_logs st' = []
    /\ mails (calls st') = [].
Proof.
  exact (single_date_run_accounts (Sample.sampleWorld 2 ["AWB2"; "AWB1"; "AWB3"])
           "2024-05-01" "30-04-2024" (Sample.sampleSettings 2)
           (map Some ["AWB2"; "AWB1"; "AWB3"]) Sample.emptyState eq_refl eq_refl).
Defined.

Lemma valid_invalid_lengths (w : World) (settings : Settings) (awbNumbers : list string) :
  (List.length (validList w settings awbNumbers)
   + List.length (invalidList w settings awbNumbers)
   = List.length awbNumbers)%nat.
Proof.
  induction awbNumbers as [|a rest IH]; [reflexivity|].
  rewrite validList_cons, invalidList_cons.
  destruct (valid (windowVerdict w settings a)); simpl; lia.
Qed.

Lemma invalidErrors_length (w : World) (settings : Settings) (awbNumbers : list string) :
  List.length (Window.invalidErrors (invalidList w settings awbNumbers))
  = List.length (invalidList w settings awbNumbers).
Proof.
  induction awbNumbers as [|a rest IH]; [reflexivity|].
  rewrite invalidList_cons.
  destruct (windowVerdict w settings a) eqn:E; simpl; [exact IH|].
  now rewrite IH.
Qed.

Lemma sent_mails (cs : list Call) : sent (mails cs) = sent cs.
Proof.
  induction cs as [|c cs IH]; [reflexivity|].
  destruct c; simpl; now rewrite ?IH.
Qed.

(** X14. A scheduled run that got settings and a non-empty listing returns
    counts that add up: [total] is the valid shipments plus the refused ones,
    [processed] is at most [validFound] and splits into the results and the
    processing failures, and the error list holds the refused shipments and
    the processing failures. It calls the mailer for a summary at most once,
    with these same counts, and calls it exactly when the rate of results
    among the processed shipments is at least 80; the summary then goes to
    the transport only if the settings row has addresses and mail enabled,
    and to all these addresses. No other mail is sent. *)
Theorem scheduled_run_counts (w : World) (y ym t : string) (settings : Settings)
    (items : list (option string)) (st : State) :
  settings_row w = Some settings ->
  lex_daily w y y = Some items ->
  truthy_strings items <> [] ->
  exists st' r nValid nProcessed failed,
    Window.processPreviousDayShipments w y ym t st = (st', Ok r)
    /\ validFound r = Some nValid /\ processed r = Some nProcessed
    /\ (nProcessed <= nValid <= total r)%nat
    /\ total r = List.length (truthy_strings items)
    /\ (List.length (results r) + failed = nProcessed)%nat
    /\ (List.length (errors r) = (total r - nValid) + failed)%nat
    /\ let summary := mkSummary (total r) nValid nProcessed (List.length (results r))
                        (total r - nValid) failed in
       let called := PrimFloat.leb 80 (successRate (List.length (results r)) nProcessed) in
       mails (calls st')
       = (mails (calls st)
          ++ (if called
              then DailySummaryEmail summary :: handedOver w (DailySummary summary)
              else []))%list
       /\ sent (calls st')
          = (sent (calls st)
             ++ (if called then sent (handedOver w (DailySummary summary)) else []))%list.
Proof.
  intros Hs Hl Hne.
  destruct (validateThenProcess_does w settings _ Hne)
    as [e [R [E [Hbody [_ [_ [_ [_ [Ml [_ [_ Len]]]]]]]]]]].
  pose proof (scheduled_run_does w y ym t settings items _ e _ Hs Hl eq_refl Hbody st) as Hrun.
  pose proof (valid_invalid_lengths w settings (truthy_strings items)) as Hvi.
  pose proof (invalidErrors_length w settings (truthy_strings items)) as Hie.
  set (awbs := truthy_strings items) in *.
  set (vl := validList w settings awbs) in *.
  set (il := invalidList w settings awbs) in *.
  set (capped := Js.slice0 vl (maxShipments settings)) in *.
  assert (Hcap : (List.length capped <= List.length vl)%nat).
  { unfold capped, Js.slice0. rewrite length_firstn. lia. }
  exists (apply_effect (seq_effect (calls_effect [PostDailyShipments y y]) e) st).
  eexists. exists (List.length vl), (List.length capped), (List.length E).
  split; [exact Hrun|].
  unfold apply_effect. simpl. rewrite mails_app, sent_app.
  change (mails (PostDailyShipments y y :: new_calls e)) with (mails (new_calls e)).
  change (sent (PostDailyShipments y y :: new_calls e)) with (sent (new_calls e)).
  rewrite <- (sent_mails (new_calls e)), Ml. unfold summaryMails.
  rewrite deliveries_handedOver.
  rewrite length_app, Hie.
  replace (List.length awbs - List.length vl)%nat with (List.length il) by lia.
  repeat split; try lia.
  now destruct (PrimFloat.leb 80 _).
Qed.

(** The sample world with mail switched off: both processed shipments count
    as results, the mailer is called, and no mail goes out. *)
Lemma scheduled_run_counts_witness :
  let w := Sample.withMail (Sample.sampleWorld 2 ["AWB1"; "AWB2"; "AWB3"])
             (Some (Mailer.mkEmailRow (Some "ops@lex.example") false)) in
  exists st' r nValid nProcessed failed,
    Window.processPreviousDayShipments w "30-04-2024" "2024-04-30" "2024-05-01"
      Sample.emptyState = (st', Ok r)
    /\ validFound r = Some nValid /\ processed r = Some nProcessed
    /\ (nProcessed <= nValid <= total r)%nat
    /\ total r = 3%nat
    /\ (List.length (results r) + failed = nProcessed)%nat
    /\ (List.length (errors r) = (total r - nValid) + failed)%nat
    /\ mails (calls st')
       = (if PrimFloat.leb 80 (successRate (List.length (results r)) nProcessed)
          then [DailySummaryEmail
                  (mkSummary (total r) nValid nProcessed (List.length (results r))
                     (total r - nValid) failed)]
          else [])
       /\ sent (calls st') = [].
Proof.
  destruct (scheduled_run_counts
              (Sample.withMail (Sample.sampleWorld 2 ["AWB1"; "AWB2"; "AWB3"])
                 (Some (Mailer.mkEmailRow (Some "ops@lex.example") false)))
              "30-04-2024" "2024-04-30" "2024-05-01" (Sample.sampleSettings 2)
              (map Some ["AWB1"; "AWB2"; "AWB3"]) Sample.emptyState eq_refl eq_refl
              ltac:(discriminate))
    as [st' [r [nValid [nProcessed [failed [Hrun [Hv [Hp [Hle [Ht [Hr [He [Hm Hs]]]]]]]]]]]]].
  exists st', r, nValid, nProcessed, failed.
  repeat split; try assumption; try apply Hle.
  rewrite Hs. simpl. now destruct (PrimFloat.leb 80 _).
Defined.

(* ================================================================== *)
(** * The carrier table of the cutoff-only generation *)

Ltac eqb_cases :=
  repeat match goal with
         | |- context [String.eqb ?a ?b] =>
             destruct (String.eqb_spec a b); [try subst|]; cbn [orb andb]
         end.

Lemma carrier_table (destinationCountry serviceType carrier : string) (days : Z) :
  Cutoff.getCarrierInfo destinationCountry serviceType = Some (carrier, days)
  <-> (In (Js.toUpperCase destinationCountry) ["USA"; "US"; "UNITED STATES"]
       /\ carrier = "USPS"
       /\ ((Js.toLowerCase serviceType = "ship+" /\ days = 15)
           \/ (Js.toLowerCase serviceType = "shipd" /\ days = 12)))
      \/ (In (Js.toUpperCase destinationCountry) ["UK"; "GB"; "UNITED KINGDOM"]
          /\ carrier = "Royal Mail"
          /\ ((Js.toLowerCase serviceType = "ship+" /\ days = 10)
              \/ (Js.toLowerCase serviceType = "shipd" /\ days = 8))).
Proof.
  unfold Cutoff.getCarrierInfo.
  generalize (Js.toUpperCase destinationCountry) (Js.toLowerCase serviceType).
  intros D S. cbv zeta.
  eqb_cases; simpl In;
    (split;
     [ intros H; try discriminate H; injection H as <- <-; tauto
     | intros H; intuition (try congruence; try discriminate) ]).
Qed.

(** X15. The carrier table: a destination and a service have a carrier
    exactly when the destination, in upper case, is one of USA, US, UNITED
    STATES (USPS: Ship+ 15 days, ShipD 12) or UK, GB, UNITED KINGDOM (Royal
    Mail: Ship+ 10 days, ShipD 8) and the service, in lower case, is ship+ or
    shipd. Letter case plays no part in either argument, and the service rule
    accepts exactly the pairs that have a carrier. *)
Theorem getCarrierInfo_table (destinationCountry serviceType : string) :
  (forall carrier days,
      Cutoff.getCarrierInfo destinationCountry serviceType = Some (carrier, days)
      <-> (In (Js.toUpperCase destinationCountry) ["USA"; "US"; "UNITED STATES"]
           /\ carrier = "USPS"
           /\ ((Js.toLowerCase serviceType = "ship+" /\ days = 15)
               \/ (Js.toLowerCase serviceType = "shipd" /\ days = 12)))
          \/ (In (Js.toUpperCase destinationCountry) ["UK"; "GB"; "UNITED KINGDOM"]
              /\ carrier = "Royal Mail"
              /\ ((Js.toLowerCase serviceType = "ship+" /\ days = 10)
                  \/ (Js.toLowerCase serviceType = "shipd" /\ days = 8))))
  /\ (forall d' s', same_up_to_case destinationCountry d' -> same_lower serviceType s' ->
        Cutoff.getCarrierInfo d' s' = Cutoff.getCarrierInfo destinationCountry serviceType)
  /\ (Cutoff.isServiceDestinationValid destinationCountry serviceType = true
      <-> exists carrier days,
            Cutoff.getCarrierInfo destinationCountry serviceType = Some (carrier, days)).
Proof.
  split; [intros carrier days; apply carrier_table|]. split.
  - unfold same_up_to_case, same_lower, Cutoff.getCarrierInfo. now intros d' s' -> ->.
  - unfold Cutoff.isServiceDestinationValid.
    destruct (Cutoff.getCarrierInfo destinationCountry serviceType) as [[c n]|]; split.
    + intros _. now exists c, n.
    + reflexivity.
    + discriminate.
    + intros [c [n H]]. discriminate H.
Qed.

(** X16. In the cutoff-only generation an allow-list entry helps only if the
    carrier table knows it: every shipment with a valid verdict has a
    destination that, in upper case, is both in the allow-list and one of the
    six names of the table, and a service that is ship+ or shipd in lower
    case. *)
Theorem cutoff_valid_needs_carrier (w : World) (awb : string) (settings : Settings)
    (st : State) (a : string) (sd : ShipmentDetails) (ci : CustomerInfo) :
  snd (Cutoff.validateShipmentOnly w awb settings st) = Ok (Valid a sd ci) ->
  exists dest service,
    Destination_Country sd = Some dest
    /\ Service_Type sd = Some service
    /\ In (Js.toUpperCase dest) (countries settings)
    /\ In (Js.toUpperCase dest) ["USA"; "US"; "UNITED STATES"; "UK"; "GB"; "UNITED KINGDOM"]
    /\ In (Js.toLowerCase service) ["ship+"; "shipd"].
Proof.
  destruct (cutoff_validate_does w awb settings) as [cs [Hd _]].
  rewrite (Hd st). simpl. unfold cutoffVerdict. intros H.
  destruct (lex_shipment w awb) as [sd0|]; [|discriminate].
  destruct (Destination_Country sd0) as [dest|] eqn:Hdest; [|discriminate].
  destruct (isDestinationAllowed dest (countries settings)) eqn:Hd1; simpl in H; [|discriminate].
  destruct (Service_Type sd0) as [service|] eqn:Hsv; [|discriminate].
  destruct (Cutoff.isServiceDestinationValid dest service) eqn:Hs1; simpl in H; [|discriminate].
  destruct (Cutoff.isPickupTimeValid _ _ _); simpl in H; [|discriminate].
  destruct (Cutoff.isShipmentValueValid _ _ _); simpl in H; [|discriminate].
  destruct (isSupplierAllowed _ _); simpl in H; [|discriminate].
  injection H as _ <- _.
  exists dest, service. split; [exact Hdest|]. split; [exact Hsv|].
  split; [now apply isDestinationAllowed_In|].
  unfold Cutoff.isServiceDestinationValid in Hs1.
  destruct (Cutoff.getCarrierInfo dest service) as [[c n]|] eqn:Hc; [|discriminate].
  apply carrier_table in Hc. simpl In in *.
  destruct Hc as [[Hin [_ Hsvc]]|[Hin [_ Hsvc]]]; split; intuition (auto using eq_sym).
Qed.

Lemma cutoff_valid_needs_carrier_witness :
  exists dest service,
    Destination_Country (Sample.shipment "US" "2024-05-01 20:00:00" "C1" "AWB1") = Some dest
    /\ Service_Type (Sample.shipment "US" "2024-05-01 20:00:00" "C1" "AWB1") = Some service
    /\ In (Js.toUpperCase dest) ["US"; "GB"]
    /\ In (Js.toUpperCase dest) ["USA"; "US"; "UNITED STATES"; "UK"; "GB"; "UNITED KINGDOM"]
    /\ In (Js.toLowerCase service) ["ship+"; "shipd"].
Proof.
  exact (cutoff_valid_needs_carrier (Sample.sampleWorld 2 ["AWB1"]) "AWB1"
           (mkSettings ["ACME"] ["US"; "GB"] 2 (Some "23:00:00") None 10 83)
           Sample.emptyState "AWB1"
           (Sample.shipment "US" "2024-05-01 20:00:00" "C1" "AWB1")
           (mkCustomerInfo (Some "Asha") (Some "Rao") (Some "ACME Corp")
              (Some "asha@acme.example"))
           eq_refl).
Defined.

(* ================================================================== *)
(** * The value rule on input it cannot use *)

(** X17. When the declared value is not a number, or the rate is not a
    number or not above zero, the conversion yields 0 USD instead of
    failing; the value rule then refuses the shipment for every threshold
    above zero and accepts it for every threshold at or below zero. *)
Theorem value_rule_unusable_input (v r m : float) :
  PrimFloat.is_nan v = true \/ PrimFloat.is_nan r = true \/ PrimFloat.leb r 0 = true ->
  Cutoff.convertInrToUsd v r = 0%float
  /\ (PrimFloat.ltb 0 m = true -> Cutoff.isShipmentValueValid v m r = false)
  /\ (PrimFloat.leb m 0 = true -> Cutoff.isShipmentValueValid v m r = true).
Proof.
  intros H.
  assert (Hc : Cutoff.convertInrToUsd v r = 0%float).
  { unfold Cutoff.convertInrToUsd.
    destruct H as [H|[H|H]]; rewrite H; [reflexivity | now rewrite orb_true_r | now rewrite orb_true_r]. }
  split; [exact Hc|].
  unfold Cutoff.isShipmentValueValid. rewrite Hc. split.
  - intros Hm. now destruct (positive_rate m Hm).
  - now intros ->.
Qed.

Lemma value_rule_unusable_input_witness :
  Cutoff.convertInrToUsd 1000 0 = 0%float
  /\ (PrimFloat.ltb 0 20 = true -> Cutoff.isShipmentValueValid 1000 20 0 = false)
  /\ (PrimFloat.leb 20 0 = true -> Cutoff.isShipmentValueValid 1000 20 0 = true).
Proof.
  apply (value_rule_unusable_input 1000 0 20). right. right. reflexivity.
Defined.

(* ================================================================== *)
(** * The schedule of the daily run *)

Lemma digit_char_cases (c : ascii) :
  Schedule.is_digit c = true -> exists k, (k < 10)%nat /\ c = ascii_of_nat (48 + k).
Proof.
  unfold Schedule.is_digit. intros H. apply andb_true_iff in H. destruct H as [H1 H2].
  apply Nat.leb_le in H1, H2.
  exists (nat_of_ascii c - 48)%nat. split; [lia|].
  replace (48 + (nat_of_ascii c - 48))%nat with (nat_of_ascii c) by lia.
  symmetry. apply ascii_nat_embedding.
Qed.

Lemma digit_pair (a b : ascii) :
  Schedule.is_digit a = true -> Schedule.is_digit b = true ->
  exists n, (n < 100)%nat /\ String a (String b "") = two_digits n.
Proof.
  intros Ha Hb.
  destruct (digit_char_cases a Ha) as [ka [Hka ->]].
  destruct (digit_char_cases b Hb) as [kb [Hkb ->]].
  exists (10 * ka + kb)%nat. split; [lia|].
  do 10 (destruct ka as [|ka]; [do 10 (destruct kb as [|kb]; [reflexivity|]); lia|]). lia.
Qed.

Lemma two_digits_are_digits (n : nat) :
  (n < 100)%nat ->
  Schedule.is_digit (ascii_of_nat (48 + n / 10)) = true
  /\ Schedule.is_digit (ascii_of_nat (48 + n mod 10)) = true.
Proof.
  intros H. do 100 (destruct n as [|n]; [split; reflexivity|]). lia.
Qed.

Lemma split_clock (h m s : nat) :
  (h < 100)%nat -> (m < 100)%nat -> (s < 100)%nat ->
  Js.split ":" (clock h m s) = [two_digits h; two_digits m; two_digits s].
Proof.
  intros Hh Hm Hs.
  destruct (two_digits_facts h Hh) as [_ [Ch _]].
  destruct (two_digits_facts m Hm) as [_ [Cm _]].
  destruct (two_digits_facts s Hs) as [_ [Cs _]].
  unfold clock.
  change (two_digits h ++ ":" ++ two_digits m ++ ":" ++ two_digits s)
    with (two_digits h ++ String ":" (two_digits m ++ String ":" (two_digits s))).
  now rewrite (split_app_sep _ _ _ Ch), (split_app_sep _ _ _ Cm), (split_no_sep _ _ Cs).
Qed.

(** The texts the server takes for a [cip_time], and the expression it makes
    of them. *)
Lemma cronExpression_shape (cipTime : option string) (expression : string) :
  Schedule.cronExpression cipTime = Some expression
  <-> exists h m s,
        (h < 100 /\ m < 100 /\ s < 100)%nat
        /\ cipTime = Some (clock h m s)
        /\ expression = two_digits m ++ " " ++ two_digits h ++ " * * *"
        /\ timeToMinutes (clock h m s) = Some (Z.of_nat h * 60 + Z.of_nat m).
Proof.
  split.
  - unfold Schedule.cronExpression.
    destruct cipTime as [t|]; [|discriminate].
    destruct (Js.truthy (Some t)); [|discriminate]. simpl negb. cbn [orb].
    destruct (Schedule.matchesClock t) eqn:Hm; [|discriminate]. simpl negb. cbv iota.
    unfold Schedule.matchesClock in Hm.
    destruct t as [|a [|b [|c [|d [|e [|f [|g [|i [|]]]]]]]]]; try discriminate.
    apply andb_true_iff in Hm; destruct Hm as [Hm Di].
    apply andb_true_iff in Hm; destruct Hm as [Hm Dg].
    apply andb_true_iff in Hm; destruct Hm as [Hm Cf].
    apply andb_true_iff in Hm; destruct Hm as [Hm De].
    apply andb_true_iff in Hm; destruct Hm as [Hm Dd].
    apply andb_true_iff in Hm; destruct Hm as [Hm Cc].
    apply andb_true_iff in Hm; destruct Hm as [Da Db].
    apply Ascii.eqb_eq in Cf, Cc. subst c f.
    destruct (digit_pair a b Da Db) as [h [Hh Eh]].
    destruct (digit_pair d e Dd De) as [m [Hmm Em]].
    destruct (digit_pair g i Dg Di) as [s [Hs Es]].
    assert (Ht : String a (String b (String ":" (String d (String e (String ":"
                   (String g (String i ""))))))) = clock h m s).
    { unfold clock. rewrite <- Eh, <- Em, <- Es. reflexivity. }
    rewrite Ht, (split_clock h m s Hh Hmm Hs).
    intros H. injection H as <-.
    exists h, m, s. repeat split; try assumption.
    now apply timeToMinutes_clock.
  - intros [h [m [s [[Hh [Hm Hs]] [-> [-> _]]]]]].
    unfold Schedule.cronExpression.
    rewrite (split_clock h m s Hh Hm Hs).
    destruct (two_digits_are_digits h Hh) as [H1 H2].
    destruct (two_digits_are_digits m Hm) as [M1 M2].
    destruct (two_digits_are_digits s Hs) as [S1 S2].
    assert (Hmatch : Schedule.matchesClock (clock h m s) = true).
    { unfold clock, two_digits. cbn [append Schedule.matchesClock].
      now rewrite H1, H2, M1, M2, S1, S2. }
    rewrite Hmatch. reflexivity.
Qed.

(** X18. The server hands a cron expression to the scheduler exactly when
    the settings can be read and the stored [cip_time] is three two-digit
    fields, HH:MM:SS; the expression is then "MM HH * * *" with the very
    digits of the text, the minute that the window rule reads as the end of
    the pickup window. The server checks the shape only, not the range of the
    fields: the job is scheduled when the scheduler takes the expression, and
    when the scheduler refuses it the refusal is caught and no job is
    scheduled. Without settings, without a [cip_time] or with one of another
    shape the scheduler is not called. *)
Theorem setupDynamicCronJob_spec (settings : option Settings)
    (schedulerAccepts : string -> bool) (expression : string) :
  let handed accepted :=
    exists st h m s,
      settings = Some st
      /\ (h < 100 /\ m < 100 /\ s < 100)%nat
      /\ cipTime st = Some (clock h m s)
      /\ expression = two_digits m ++ " " ++ two_digits h ++ " * * *"
      /\ timeToMinutes (clock h m s) = Some (Z.of_nat h * 60 + Z.of_nat m)
      /\ schedulerAccepts expression = accepted in
  (Schedule.setupDynamicCronJob settings schedulerAccepts = Schedule.Scheduled expression
   <-> handed true)
  /\ (Schedule.setupDynamicCronJob settings schedulerAccepts
      = Schedule.SchedulerRefused expression
      <-> handed false).
Proof.
  cbv zeta. unfold Schedule.setupDynamicCronJob.
  destruct settings as [st|].
  2:{ split; (split; [discriminate | intros [st [h [m [s [H _]]]]]; discriminate H]). }
  destruct (Schedule.cronExpression (cipTime st)) as [e|] eqn:He.
  - apply cronExpression_shape in He. destruct He as [h [m [s [Hr [Hc [-> Ht]]]]]].
    assert (Hsame : forall st' h' m' s',
               Some st = Some st' ->
               (h' < 100 /\ m' < 100 /\ s' < 100)%nat ->
               cipTime st' = Some (clock h' m' s') ->
               expression = two_digits m' ++ " " ++ two_digits h' ++ " * * *" ->
               expression = two_digits m ++ " " ++ two_digits h ++ " * * *").
    { intros st' h' m' s' Hst Hr' Hc' He'. injection Hst as <-.
      assert (Hx : Schedule.cronExpression (cipTime st) = Some expression).
      { apply cronExpression_shape. exists h', m', s'.
        destruct Hr' as [? [? ?]]. repeat split; try assumption.
        now apply timeToMinutes_clock. }
      assert (Hy : Schedule.cronExpression (cipTime st)
                   = Some (two_digits m ++ " " ++ two_digits h ++ " * * *")).
      { apply cronExpression_shape. exists h, m, s. repeat split; try apply Hr; assumption. }
      congruence. }
    destruct (schedulerAccepts (two_digits m ++ " " ++ two_digits h ++ " * * *")) eqn:Ha.
    + split; split.
      * intros H. injection H as <-. exists st, h, m, s. now repeat split; try apply Hr.
      * intros [st' [h' [m' [s' [Hst [Hr' [Hc' [He' _]]]]]]]].
        now rewrite (Hsame st' h' m' s' Hst Hr' Hc' He').
      * discriminate.
      * intros [st' [h' [m' [s' [Hst [Hr' [Hc' [He' [_ Hf]]]]]]]]].
        rewrite (Hsame st' h' m' s' Hst Hr' Hc' He') in Hf. congruence.
    + split; split.
      * discriminate.
      * intros [st' [h' [m' [s' [Hst [Hr' [Hc' [He' [_ Hf]]]]]]]]].
        rewrite (Hsame st' h' m' s' Hst Hr' Hc' He') in Hf. congruence.
      * intros H. injection H as <-. exists st, h, m, s. now repeat split; try apply Hr.
      * intros [st' [h' [m' [s' [Hst [Hr' [Hc' [He' _]]]]]]]].
        now rewrite (Hsame st' h' m' s' Hst Hr' Hc' He').
  - assert (Hno : forall accepted,
               ~ (exists st' h m s,
                     Some st = Some st'
                     /\ (h < 100 /\ m < 100 /\ s < 100)%nat
                     /\ cipTime st' = Some (clock h m s)
                     /\ expression = two_digits m ++ " " ++ two_digits h ++ " * * *"
                     /\ timeToMinutes (clock h m s) = Some (Z.of_nat h * 60 + Z.of_nat m)
                     /\ schedulerAccepts expression = accepted)).
    { intros accepted [st' [h [m [s [Hst [Hr [Hc [Hx [Ht _]]]]]]]]]. injection Hst as <-.
      assert (Hy : Schedule.cronExpression (cipTime st) = Some expression).
      { apply cronExpression_shape. exists h, m, s. now repeat split; try apply Hr. }
      congruence. }
    split; (split; [discriminate | intros H; exfalso; exact (Hno _ H)]).
Qed.

(* ================================================================== *)
(** * Access to the routes and to the dashboard *)

Lemma nth1_split (h tok : string) :
  nth_error (Js.split " " h) 1 = Some tok
  <-> exists scheme,
        has_char " " scheme = false /\ has_char " " tok = false
        /\ (h = scheme ++ " " ++ tok \/ exists rest, h = scheme ++ " " ++ tok ++ " " ++ rest).
Proof.
  split.
  - intros H. destruct (split_pieces " " h) as [Hf [Hc _]].
    destruct (Js.split " " h) as [|p0 [|p1 ps]]; try discriminate.
    injection H as ->.
    pose proof (Forall_inv Hf) as H0.
    pose proof (Forall_inv (Forall_inv_tail Hf)) as H1. simpl in H0, H1.
    exists p0. split; [exact H0|]. split; [exact H1|].
    destruct ps as [|p2 ps].
    + left. now rewrite <- Hc.
    + right. exists (String.concat " " (p2 :: ps)). now rewrite <- Hc.
  - intros [scheme [Hs [Ht [->|[rest ->]]]]].
    + change (scheme ++ " " ++ tok) with (scheme ++ String " " tok).
      now rewrite (split_app_sep _ _ _ Hs), (split_no_sep _ _ Ht).
    + change (scheme ++ " " ++ tok ++ " " ++ rest)
        with (scheme ++ String " " (tok ++ String " " rest)).
      now rewrite (split_app_sep _ _ _ Hs), (split_app_sep _ _ _ Ht).
Qed.

(** X19. A request passes [authenticateToken] exactly when the bearer token
    is configured and the Authorization header is a first word, one blank,
    and that very token, possibly followed by a blank and more text. The
    first word is never inspected, so any scheme name, even an empty one,
    passes; and a configured token that is empty or contains a blank can
    never be matched. *)
Theorem authenticateToken_next_iff (authHeader BEARER_TOKEN : option string) :
  Access.authenticateToken authHeader BEARER_TOKEN = Access.Next
  <-> exists scheme token,
        BEARER_TOKEN = Some token /\ token <> ""
        /\ has_char " " scheme = false /\ has_char " " token = false
        /\ (authHeader = Some (scheme ++ " " ++ token)
            \/ exists rest, authHeader = Some (scheme ++ " " ++ token ++ " " ++ rest)).
Proof.
  unfold Access.authenticateToken, Access.tokenOf. split.
  - destruct authHeader as [h|]; [|discriminate].
    destruct (Js.truthy (Some h)) eqn:Hh; [|now rewrite Hh].
    destruct (nth_error (Js.split " " h) 1) as [tok|] eqn:Hn; [|discriminate].
    destruct (Js.truthy (Some tok)) eqn:Htok; [|discriminate]. simpl negb. cbv iota.
    destruct BEARER_TOKEN as [expected|]; [|discriminate].
    destruct (String.eqb_spec tok expected) as [->|]; [|discriminate].
    intros _. apply nth1_split in Hn. destruct Hn as [scheme [Hs [Ht Hshape]]].
    exists scheme, expected. split; [reflexivity|].
    split; [intros ->; discriminate Htok|].
    split; [exact Hs|]. split; [exact Ht|].
    destruct Hshape as [->|[rest ->]]; [now left | right; now exists rest].
  - intros [scheme [token [-> [Hne [Hs [Ht Hshape]]]]]].
    assert (Hn : exists h, authHeader = Some h /\ nth_error (Js.split " " h) 1 = Some token).
    { destruct Hshape as [->|[rest ->]]; eexists; (split; [reflexivity|]);
        apply nth1_split; exists scheme; (split; [exact Hs|]); (split; [exact Ht|]).
      - now left.
      - right. now exists rest. }
    destruct Hn as [h [-> Hn]].
    assert (Hh : Js.truthy (Some h) = true).
    { destruct h; [|reflexivity]. destruct Hshape as [H|[rest H]]; destruct scheme; discriminate H. }
    rewrite Hh, Hn.
    assert (Htok : Js.truthy (Some token) = true).
    { simpl. destruct (String.eqb_spec token ""); [contradiction | reflexivity]. }
    rewrite Htok. simpl. now rewrite String.eqb_refl.
Qed.

(** X20. The credential check of the login accepts exactly a non-empty user
    name and a non-empty password that, once trimmed, equal the configured
    ones; so blanks typed around either are ignored, and a configured user
    name or password that itself begins or ends with a blank (or is not set)
    admits nobody. *)
Theorem checkCredentials_accepts_iff (username password ADMIN_USERNAME ADMIN_PASSWORD
                                       : option string) :
  (Access.checkCredentials username password ADMIN_USERNAME ADMIN_PASSWORD = Access.Accepted
   <-> exists u p,
         username = Some u /\ password = Some p /\ u <> "" /\ p <> ""
         /\ ADMIN_USERNAME = Some (Js.trim u) /\ ADMIN_PASSWORD = Some (Js.trim p))
  /\ ((forall au, ADMIN_USERNAME = Some au -> Js.trim au <> au) \/
      (forall ap, ADMIN_PASSWORD = Some ap -> Js.trim ap <> ap) ->
      Access.checkCredentials username password ADMIN_USERNAME ADMIN_PASSWORD
      <> Access.Accepted).
Proof.
  assert (Hiff :
    Access.checkCredentials username password ADMIN_USERNAME ADMIN_PASSWORD = Access.Accepted
    <-> exists u p,
          username = Some u /\ password = Some p /\ u <> "" /\ p <> ""
          /\ ADMIN_USERNAME = Some (Js.trim u) /\ ADMIN_PASSWORD = Some (Js.trim p)).
  { unfold Access.checkCredentials, Js.truthy. split.
    - destruct username as [u|]; [|discriminate].
      destruct (String.eqb_spec u ""); [discriminate|].
      destruct password as [p|]; [|discriminate].
      destruct (String.eqb_spec p ""); [discriminate|]. simpl.
      destruct ADMIN_USERNAME as [au|]; [|discriminate].
      destruct (String.eqb_spec (Js.trim u) au) as [<-|]; [|discriminate]. simpl.
      destruct ADMIN_PASSWORD as [ap|]; [|discriminate].
      destruct (String.eqb_spec (Js.trim p) ap) as [<-|]; [|discriminate].
      intros _. now exists u, p.
    - intros [u [p [-> [-> [Hu [Hp [-> ->]]]]]]].
      apply String.eqb_neq in Hu, Hp. rewrite Hu, Hp. simpl.
      now rewrite !String.eqb_refl. }
  split; [exact Hiff|].
  intros Hbad Hacc. apply Hiff in Hacc.
  destruct Hacc as [u [p [_ [_ [_ [_ [Hau Hap]]]]]]].
  destruct Hbad as [Hbad|Hbad].
  - apply (Hbad _ Hau). apply trim_idem.
  - apply (Hbad _ Hap). apply trim_idem.
Qed.

(* ================================================================== *)
(** * The mailer *)

(** X21. The mailer hands a mail to the transport exactly when a settings
    row with a non-NULL [admin_emails] exists and [email_enabled] is set; the
    recipients are then all entries of [admin_emails], trimmed and joined by
    commas. Its guard against an empty recipient list never fires, because a
    split text has at least one piece: with mail enabled a send is attempted
    even when the column is blank. With mail disabled nothing is sent. *)
Theorem mailer_send_spec (row : option Mailer.EmailRow) (transportAccepts : string -> bool) :
  Mailer.send row transportAccepts <> Mailer.NoRecipients
  /\ (forall to,
        Mailer.send row transportAccepts = Mailer.Sent to
        \/ Mailer.send row transportAccepts = Mailer.SendFailed to
        <-> exists text,
              row = Some (Mailer.mkEmailRow (Some text) true)
              /\ to = String.concat "," (splitTrim text))
  /\ (forall r, row = Some r -> Mailer.email_enabled r = false ->
        Mailer.send row transportAccepts = Mailer.Skipped
        \/ Mailer.send row transportAccepts = Mailer.SettingsNotFound).
Proof.
  unfold Mailer.send, Mailer.getEmailSettings.
  destruct row as [[[text|] enabled]|]; simpl.
  - assert (Hlen : Nat.eqb (List.length (splitTrim text)) 0 = false).
    { pose proof (split_nonempty "," text) as Hne. unfold splitTrim.
      destruct (Js.split "," text); [contradiction | reflexivity]. }
    rewrite Hlen. destruct enabled; simpl.
    + split; [destruct (transportAccepts _); discriminate|]. split.
      * intros to. split.
        -- intros H. exists text. split; [reflexivity|].
           destruct (transportAccepts _); destruct H as [H|H]; congruence.
        -- intros [text' [H ->]]. injection H as <-.
           destruct (transportAccepts _); [now left | now right].
      * intros r H. injection H as <-. discriminate.
    + split; [discriminate|]. split.
      * intros to. split; [intros [H|H]; discriminate H|].
        intros [text' [H _]]. discriminate H.
      * intros r _ _. now left.
  - split; [discriminate|]. split.
    + intros to. split; [intros [H|H]; discriminate H|].
      intros [text' [H _]]. discriminate H.
    + intros r _ _. now right.
  - split; [discriminate|]. split.
    + intros to. split; [intros [H|H]; discriminate H|].
      intros [text' [H _]]. discriminate H.
    + intros r H. discriminate H.
Qed.

(* ================================================================== *)
(** * Business days *)

Lemma businessDaysAfter_front (date : Z) (k : nat) :
  Eta.businessDaysAfter date (S k)
  = (if Eta.isWeekend (date + 1) then 0 else 1) + Eta.businessDaysAfter (date + 1) k.
Proof.
  induction k as [|k IH].
  - cbn [Eta.businessDaysAfter]. change (Z.of_nat 1) with 1. lia.
  - change (Eta.businessDaysAfter date (S (S k)))
      with (Eta.businessDaysAfter date (S k)
            + (if Eta.isWeekend (date + Z.of_nat (S (S k))) then 0 else 1)).
    change (Eta.businessDaysAfter (date + 1) (S k))
      with (Eta.businessDaysAfter (date + 1) k
            + (if Eta.isWeekend (date + 1 + Z.of_nat (S k)) then 0 else 1)).
    rewrite IH.
    replace (date + Z.of_nat (S (S k))) with (date + 1 + Z.of_nat (S k)) by lia.
    lia.
Qed.

Lemma turns_bounds (date : Z) :
  1 <= Eta.turnsToBusinessDay date <= 3.
Proof.
  unfold Eta.turnsToBusinessDay.
  destruct (Eta.getDay date =? 5); [lia|]. destruct (Eta.getDay date =? 6); lia.
Qed.

Lemma turns_weekend (date : Z) :
  Eta.isWeekend (date + 1) = true ->
  Eta.turnsToBusinessDay (date + 1) = Eta.turnsToBusinessDay date - 1.
Proof.
  unfold Eta.isWeekend, Eta.turnsToBusinessDay, Eta.getDay. intros H.
  apply orb_true_iff in H.
  pose proof (Z.mod_pos_bound (date + 4) 7 ltac:(lia)) as B.
  assert (E : (date + 1 + 4) mod 7 = ((date + 4) mod 7 + 1) mod 7).
  { rewrite Zplus_mod_idemp_l. f_equal. lia. }
  rewrite E in *.
  assert (Hc : (date + 4) mod 7 = 6 \/ (date + 4) mod 7 = 5).
  { destruct H as [H|H]; apply Z.eqb_eq in H.
    - left. destruct (Z.eq_dec ((date + 4) mod 7) 6) as [e|ne]; [exact e|].
      rewrite Z.mod_small in H by lia. lia.
    - right. destruct (Z.eq_dec ((date + 4) mod 7) 6) as [e|ne].
      + rewrite e in H. discriminate H.
      + rewrite Z.mod_small in H by lia. lia. }
  destruct Hc as [-> | ->]; reflexivity.
Qed.

Lemma etaLoop_done (fuel : nat) (date added n : Z) :
  n <= added -> Eta.etaLoop fuel date added n = Some date.
Proof.
  intros H. apply Z.ltb_ge in H. destruct fuel; simpl; now rewrite H.
Qed.

Lemma etaLoop_inv (n : Z) (fuel : nat) :
  forall date added,
    added <= n ->
    (added < n -> Eta.turnsToBusinessDay date + 3 * (n - added - 1) <= Z.of_nat fuel) ->
    exists k,
      Eta.etaLoop fuel date added n = Some (date + Z.of_nat k)
      /\ Eta.businessDaysAfter date k = n - added
      /\ (added < n -> Eta.isWeekend (date + Z.of_nat k) = false)
      /\ (added = n -> k = O)
      /\ (added < n ->
          Z.of_nat k <= Eta.turnsToBusinessDay date + 3 * (n - added - 1)).
Proof.
  induction fuel as [|fuel IH]; intros date added Hle Hfuel.
  - destruct (Z.eq_dec added n) as [->|Hne].
    + exists O. rewrite etaLoop_done by lia. rewrite Z.add_0_r.
      repeat split; try reflexivity; try lia. simpl. lia.
    + pose proof (turns_bounds date). specialize (Hfuel ltac:(lia)).
      change (Z.of_nat 0) with 0 in Hfuel. lia.
  - destruct (Z.eq_dec added n) as [->|Hne].
    + exists O. rewrite etaLoop_done by lia. rewrite Z.add_0_r.
      repeat split; try reflexivity; try lia. simpl. lia.
    + assert (Hlt : added < n) by lia. specialize (Hfuel Hlt).
      pose proof (turns_bounds date) as Bd. pose proof (turns_bounds (date + 1)) as Bn.
      cbn [Eta.etaLoop]. rewrite (proj2 (Z.ltb_lt _ _) Hlt). cbv zeta.
      destruct (Eta.isWeekend (date + 1)) eqn:Hw.
      * pose proof (turns_weekend date Hw) as Et.
        destruct (IH (date + 1) added Hle ltac:(lia)) as [k [Hk [Hc [Hd [_ Hb]]]]].
        exists (S k). rewrite Hk, businessDaysAfter_front, Hw, Hc.
        replace (date + Z.of_nat (S k)) with (date + 1 + Z.of_nat k) by lia.
        repeat split; try lia; auto.
      * destruct (IH (date + 1) (added + 1) ltac:(lia) ltac:(lia))
          as [k [Hk [Hc [Hd [Hz Hb]]]]].
        exists (S k). rewrite Hk, businessDaysAfter_front, Hw, Hc.
        replace (date + Z.of_nat (S k)) with (date + 1 + Z.of_nat k) by lia.
        repeat split; try lia.
        intros _. destruct (Z.eq_dec (added + 1) n) as [e|ne].
        -- rewrite (Hz e). rewrite Z.add_0_r. exact Hw.
        -- apply Hd. lia.
Qed.

Lemma etaLoop_more_fuel (n : Z) (fuel : nat) :
  forall fuel' date added result,
    (fuel <= fuel')%nat ->
    Eta.etaLoop fuel date added n = Some result ->
    Eta.etaLoop fuel' date added n = Some result.
Proof.
  induction fuel as [|fuel IH]; intros fuel' date added result Hle.
  - cbn [Eta.etaLoop]. destruct (added <? n) eqn:Hlt; [discriminate|].
    intros H. rewrite <- H. apply etaLoop_done. now apply Z.ltb_ge.
  - destruct fuel' as [|fuel']; [lia|].
    cbn [Eta.etaLoop]. destruct (added <? n); [|trivial]. cbv zeta.
    destruct (Eta.isWeekend (date + 1)); apply IH; lia.
Qed.

(** X22. The business-day loop of [calculateETA] ends: for a count [n >= 0]
    of business days, three turns per business day are enough, and with any
    such bound the loop stops on the same day, [k <= 3 n] calendar days after
    the pickup date. That day is the n-th business day after the pickup date:
    exactly [n] of the [k] days that follow the pickup date are business
    days, and for [n > 0] the day itself is not a Saturday or a Sunday. *)
Theorem addBusinessDays_spec (date n : Z) (H : 0 <= n) :
  exists k,
    Eta.addBusinessDays date n = Some (date + Z.of_nat k)
    /\ (forall fuel, 3 * n <= Z.of_nat fuel ->
          Eta.etaLoop fuel date 0 n = Some (date + Z.of_nat k))
    /\ Eta.businessDaysAfter date k = n
    /\ (0 < n -> Eta.isWeekend (date + Z.of_nat k) = false)
    /\ Z.of_nat k <= 3 * n.
Proof.
  pose proof (turns_bounds date) as Bd.
  destruct (etaLoop_inv n (3 * Z.to_nat n) date 0 H ltac:(lia))
    as [k [Hk [Hc [Hd [Hz Hb]]]]].
  exists k. split; [exact Hk|]. split.
  - intros fuel Hf. apply (etaLoop_more_fuel n (3 * Z.to_nat n)); [lia | exact Hk].
  - split; [lia|]. split; [exact Hd|].
    destruct (Z.eq_dec 0 n) as [e|ne]; [rewrite (Hz e); lia|].
    specialize (Hb ltac:(lia)). lia.
Qed.

Lemma addBusinessDays_spec_witness :
  exists k,
    Eta.addBusinessDays 19661 5 = Some (19661 + Z.of_nat k)
    /\ (forall fuel, 3 * 5 <= Z.of_nat fuel ->
          Eta.etaLoop fuel 19661 0 5 = Some (19661 + Z.of_nat k))
    /\ Eta.businessDaysAfter 19661 k = 5
    /\ (0 < 5 -> Eta.isWeekend (19661 + Z.of_nat k) = false)
    /\ Z.of_nat k <= 3 * 5.
Proof. apply (addBusinessDays_spec 19661 5). lia. Defined.
